(** * TransactionController: a shallow embedding and its verified properties

    The development follows [TransactionController.ts] and
    [BaseController.ts]: JavaScript primitives first, then the [bn.js]
    big numbers the gas estimator relies on, the data model, the state
    container, and one module per component of the controller. *)

From stdpp Require Import base option list strings gmap.
From Stdlib Require Import ZArith QArith Ascii.

Local Open Scope string_scope.
Local Open Scope list_scope.
Local Open Scope Z_scope.

(** ** JavaScript primitives *)

(** JavaScript numbers that the code only parses, compares and prints
    (nonces, block numbers, timestamps, chain ids) are embedded as
    integers, with [None] standing for [NaN]; strings are sequences of
    8-bit characters. The one product the code takes in floating point,
    the gas price of a replacement times its rate, is computed in IEEE-754
    doubles: [double] rounds to the nearest double, ties to even, and
    [parseIntOfPrinted] reads the product back through
    [Number::toString], exponent notation from [1e21] on included. *)
Module JS.

Definition isUpper (c : ascii) : bool :=
  let n := nat_of_ascii c in (65 <=? n)%nat && (n <=? 90)%nat.

Definition lowerChar (c : ascii) : ascii :=
  if isUpper c then ascii_of_nat (nat_of_ascii c + 32) else c.

(** [String.prototype.toLowerCase] *)
Fixpoint toLowerCase (s : string) : string :=
  match s with
  | EmptyString => EmptyString
  | String c r => String (lowerChar c) (toLowerCase r)
  end.

(** The value of a character as a digit, whatever the radix. *)
Definition digitValue (c : ascii) : option Z :=
  let n := Z.of_nat (nat_of_ascii c) in
  if (48 <=? n) && (n <=? 57) then Some (n - 48)
  else if (97 <=? n) && (n <=? 122) then Some (n - 87)
  else if (65 <=? n) && (n <=? 90) then Some (n - 55)
  else None.

Definition digitIn (radix : Z) (c : ascii) : option Z :=
  match digitValue c with
  | Some d => if d <? radix then Some d else None
  | None => None
  end.

(** The longest prefix of digits, folded into a number; [None] when the
    string does not start with a digit. *)
Fixpoint digitsPrefix (radix : Z) (s : string) (acc : option Z) : option Z :=
  match s with
  | EmptyString => acc
  | String c r =>
      match digitIn radix c with
      | Some d => digitsPrefix radix r (Some (default 0 acc * radix + d))
      | None => acc
      end
  end.

(** Every character must be a digit ([None] otherwise); the empty
    string is zero. *)
Fixpoint digitsAll (radix : Z) (s : string) (acc : Z) : option Z :=
  match s with
  | EmptyString => Some acc
  | String c r =>
      match digitIn radix c with
      | Some d => digitsAll radix r (acc * radix + d)
      | None => None
      end
  end.

Definition isWhiteSpace (c : ascii) : bool :=
  let n := nat_of_ascii c in
  ((9 <=? n)%nat && (n <=? 13)%nat) || (n =? 32)%nat.

Fixpoint trimStart (s : string) : string :=
  match s with
  | String c r => if isWhiteSpace c then trimStart r else s
  | EmptyString => EmptyString
  end.

Definition hasHexPrefix (s : string) : bool :=
  match s with
  | String "0" (String "x" _) | String "0" (String "X" _) => true
  | _ => false
  end.

Definition dropPrefix2 (s : string) : string :=
  match s with
  | String _ (String _ r) => r
  | _ => s
  end.

(** [parseInt(s, radix)]; [radix = None] is [undefined]. *)
Definition parseInt (s : string) (radix : option Z) : option Z :=
  let s0 := trimStart s in
  let '(neg, s1) :=
    match s0 with
    | String "-" r => (true, r)
    | String "+" r => (false, r)
    | _ => (false, s0)
    end in
  let '(rdx, s2) :=
    match radix with
    | Some 16 => (16, if hasHexPrefix s1 then dropPrefix2 s1 else s1)
    | Some r => (r, s1)
    | None => if hasHexPrefix s1 then (16, dropPrefix2 s1) else (10, s1)
    end in
  (fun v : Z => if neg then - v else v) <$> digitsPrefix rdx s2 None.

Definition hexChar (d : Z) : ascii :=
  if d <? 10 then ascii_of_nat (Z.to_nat (d + 48))
  else ascii_of_nat (Z.to_nat (d + 87)).

Fixpoint hexOfFuel (fuel : nat) (n : Z) (acc : string) : string :=
  match fuel with
  | O => acc
  | S f =>
      let acc' := String (hexChar (n mod 16)) acc in
      if n / 16 =? 0 then acc' else hexOfFuel f (n / 16) acc'
  end.

Definition hexOfNat (n : Z) : string :=
  hexOfFuel (S (Z.to_nat (Z.log2 n))) n "".

(** [Number.prototype.toString(16)] on an integer; [NaN] prints as
    itself. *)
Definition toString16 (n : option Z) : string :=
  match n with
  | None => "NaN"
  | Some v => if v <? 0 then "-" +:+ hexOfNat (- v) else hexOfNat v
  end.

(** *** Numbers

    A JavaScript number is a double. Those that occur here are at least
    one in size, or zero: such a double is [m * 2^e] with a mantissa of
    53 bits, [2^52 <= m < 2^53]. *)

(** [a / b] rounded to the nearest integer, a tie to the even one. *)
Definition roundHalfEven (a b : Z) : Z :=
  let q := a / b in
  let r := a mod b in
  if 2 * r <? b then q
  else if b <? 2 * r then q + 1
  else if Z.even q then q else q + 1.

(** The double nearest to the rational [p / q], for [p >= q > 0]:
    mantissa and exponent, or [None] for [Infinity]. *)
Definition double (p q : Z) : option (Z * Z) :=
  let e := Z.log2 (p / q) - 52 in
  let m := if 0 <=? e then roundHalfEven p (q * 2 ^ e)
           else roundHalfEven (p * 2 ^ (- e)) q in
  if 1024 <? Z.log2 m + e + 1 then None else Some (m, e).

(** The integer part of the double [m * 2^e]. *)
Definition integerPart (m e : Z) : Z :=
  if 0 <=? e then m * 2 ^ e else m / 2 ^ (- e).

(** Does the integer [candidate] round to the double [m * 2^e] (with
    [e >= 1])? It does between the midpoints to the neighbouring
    doubles, and at a midpoint when the mantissa is even. *)
Definition roundsTo (m e candidate : Z) : bool :=
  let v := m * 2 ^ e in
  let above := (m + 1) * 2 ^ e in
  let below := if m =? 2 ^ 52 then (2 ^ 53 - 1) * 2 ^ (e - 1) else (m - 1) * 2 ^ e in
  if Z.even m then (v + below <=? 2 * candidate) && (2 * candidate <=? v + above)
  else (v + below <? 2 * candidate) && (2 * candidate <? v + above).

(** [Number::toString] on the integer double [v = m * 2^e]: the digits
    [s] and the power [10^j] with [s * 10^j] rounding to [v] and the
    fewest digits, which is the greatest [j]; of two such the one
    nearer to [v], and of two equally near the even [s]. The result is
    [s * 10^j]. *)
Fixpoint shortestDecimal (j : nat) (m e : Z) : Z :=
  let v := m * 2 ^ e in
  let power := 10 ^ Z.of_nat j in
  let s := v / power in
  let low := s * power in
  let high := (s + 1) * power in
  let next := match j with O => v | S j' => shortestDecimal j' m e end in
  match roundsTo m e low, roundsTo m e high with
  | true, false => low
  | false, true => high
  | true, true =>
      if v - low <? high - v then low
      else if high - v <? v - low then high
      else if Z.even s then low else high
  | false, false => next
  end.

Fixpoint leadingDigit (fuel : nat) (n : Z) : Z :=
  match fuel with
  | O => n
  | S f => if n <? 10 then n else leadingDigit f (n / 10)
  end.

(** [parseInt(`${v}`, 10)] on the double [v = m * 2^e], [v >= 1]. Below
    [10^21] the template prints [v] in positional notation and
    [parseInt] reads the digits before the decimal point: the integer
    part of [v] (from [2^53] on the digits printed are those of the
    shortest decimal, which reads back as [v]). From [10^21] on the
    template prints in exponent notation, and [parseInt] reads the
    first digit. *)
Definition parseIntOfPrinted (m e : Z) : Z :=
  if integerPart m e <? 10 ^ 21 then integerPart m e
  else
    let shortest := shortestDecimal (Z.to_nat (Z.log2 (m * 2 ^ e))) m e in
    leadingDigit (Z.to_nat (Z.log2 shortest)) shortest.

(** [parseInt(`${x * rate}`, 10)], where [x] is what [parseInt] returned
    before, an integer as a double or [NaN], and [rate] is the literal
    [num/den] (1.5 or 1.1), a double too. [Infinity] prints as itself,
    which [parseInt] reads as [NaN]. *)
Definition timesTruncated (x : option Z) (num den : Z) : option Z :=
  match x with
  | None => None
  | Some v =>
      if v =? 0 then Some 0
      else
        match double (Z.abs v) 1, double num den with
        | Some (mx, ex), Some (mr, er) =>
            let exponent := ex + er in
            let product :=
              if 0 <=? exponent then double (mx * mr * 2 ^ exponent) 1
              else double (mx * mr) (2 ^ (- exponent)) in
            match product with
            | Some (m, e) => Some (Z.sgn v * parseIntOfPrinted m e)
            | None => None
            end
        | _, _ => None
        end
  end.

(** Strict equality [===] on a value that may be [undefined]. *)
Definition strictEq (a b : option string) : bool := bool_decide (a = b).

(** Truthiness of an optional string: [undefined] and [''] are falsy. *)
Definition truthy (a : option string) : bool :=
  match a with
  | None | Some EmptyString => false
  | Some _ => true
  end.

End JS.

(** ** ethereumjs-util *)

Definition isHexPrefixed (s : string) : bool :=
  match s with
  | String "0" (String "x" _) => true
  | _ => false
  end.

Definition addHexPrefix (s : string) : string :=
  if isHexPrefixed s then s else "0x" +:+ s.

Definition stripHexPrefix (s : string) : string :=
  if isHexPrefixed s then JS.dropPrefix2 s else s.


(** ** bn.js

    A [BN] holds its magnitude as little-endian words of 26 bits. The
    numbers of the controller are never negative, so the sign flag is left
    out. [mul], [div] and the constructor leave a stripped number (no zero
    word on top, except for zero itself); [muln] does not strip. *)
Module BN.

Definition wordSize : Z := 26.
Definition base : Z := 67108864.       (* 0x4000000 *)
Definition mask : Z := 67108863.       (* 0x3ffffff *)

Record t := mk { words : list Z }.

Fixpoint wordsOfFuel (fuel : nat) (n : Z) : list Z :=
  match fuel with
  | O => [n]
  | S f => if n <? base then [n] else (n mod base) :: wordsOfFuel f (n / base)
  end.

(** The stripped number of value [n]. *)
Definition ofZ (n : Z) : t := mk (wordsOfFuel (Z.to_nat (Z.log2 n)) n).

Fixpoint valueOf (ws : list Z) : Z :=
  match ws with
  | [] => 0
  | w :: r => w + base * valueOf r
  end.

Definition toZ (a : t) : Z := valueOf (words a).

(** [new BN(s, 16)]: every character is a hexadecimal digit, or the
    constructor raises 'Invalid character'. *)
Definition ofHex (s : string) : option t := ofZ <$> JS.digitsAll 16 s 0.

(** [zeros[6 - word.length] + word] *)
Definition pad6 (word : string) : string :=
  String.concat "" (replicate (6 - String.length word) "0") +:+ word.

(** The loop of [toString(16)], which prints the words from the lowest
    in groups of 24 bits:
<<
    var w = this.words[i];
    var word = (((w << off) | carry) & 0xffffff).toString(16);
    carry = (w >>> (24 - off)) & 0xffffff;
    off += 2;
    if (off >= 26) { off -= 26; i--; }
    if (carry !== 0 || i !== this.length - 1) {
      out = zeros[6 - word.length] + word + out;
    } else {
      out = word + out;
    }
>>
    and, after the loop, a [carry] that is not zero is printed in front.
    A word is visited twice when [off] wraps around, so the recursion is
    on a count of the visits left. A zero word that [muln] left on top
    is printed like any other word. *)
Fixpoint toString16Loop (visits : nat) (ws : list Z) (off carry : Z) (out : string)
  : string :=
  match visits with
  | O => out
  | S visits' =>
      match ws with
      | [] => if carry =? 0 then out else JS.hexOfNat carry +:+ out
      | w :: rest =>
          let word := JS.hexOfNat (Z.land (Z.lor (Z.shiftl w off) carry) 16777215) in
          let carry' := Z.land (Z.shiftr w (24 - off)) 16777215 in
          let again := 26 <=? off + 2 in
          let off' := if again then off + 2 - 26 else off + 2 in
          let isLast := negb again && bool_decide (rest = []) in
          let out' :=
            if negb (carry' =? 0) || negb isLast then pad6 word +:+ out
            else word +:+ out in
          toString16Loop visits' (if again then ws else rest) off' carry' out'
      end
  end.

(** [toString(16)] *)
Definition toString16 (a : t) : string :=
  toString16Loop (2 * length (words a) + 2) (words a) 0 0 "".

Definition mul (a b : t) : t := ofZ (toZ a * toZ b).
Definition div (a b : t) : t := ofZ (toZ a / toZ b).

(** The loop of [imuln(num)] for the JavaScript number [num = n/d]:
<<
    var w = (this.words[i] | 0) * num;
    var lo = (w & 0x3ffffff) + (carry & 0x3ffffff);
    carry >>= 26;
    carry += (w / 0x4000000) | 0;
    carry += lo >>> 26;
    this.words[i] = lo & 0x3ffffff;
>>
    and, after the loop, [carry] is appended as a new word when it is
    not zero. The bit operations truncate [w] to an integer, word by
    word: the fraction of a word's product is dropped, not carried into
    the word below. *)
Fixpoint imulnLoop (ws : list Z) (n d : Z) (carry : Z) : list Z :=
  match ws with
  | [] => if carry =? 0 then [] else [carry]
  | x :: r =>
      let lo := Z.land (x * n / d) mask + Z.land carry mask in
      let carry' := Z.shiftr carry wordSize + x * n / (d * base)
                    + Z.shiftr lo wordSize in
      Z.land lo mask :: imulnLoop r n d carry'
  end.

(** [a.muln(n/d)] *)
Definition muln (a : t) (n d : Z) : t := mk (imulnLoop (words a) n d 0).

Fixpoint cmpWords (hi_a hi_b : list Z) : comparison :=
  match hi_a, hi_b with
  | x :: ra, y :: rb =>
      if x =? y then cmpWords ra rb else if x <? y then Lt else Gt
  | _, _ => Eq
  end.

(** [ucmp]: the longer number is the greater one; numbers of the same
    length are compared word by word from the top. *)
Definition ucmp (a b : t) : comparison :=
  if (length (words b) <? length (words a))%nat then Gt
  else if (length (words a) <? length (words b))%nat then Lt
  else cmpWords (rev (words a)) (rev (words b)).

Definition gt (a b : t) : bool :=
  match ucmp a b with Gt => true | _ => false end.
Definition lt (a b : t) : bool :=
  match ucmp a b with Lt => true | _ => false end.

End BN.

(** ** util.ts *)

(** Modelled from the spec: [hexToBN] of [util.ts], which is not part of
    the sources at hand. The estimator reads the hexadecimal quantities of
    the node with it, and the spec has it compute on them in big-number
    arithmetic. *)
Definition hexToBN (inputHex : string) : option BN.t :=
  BN.ofHex (stripHexPrefix inputHex).

(** Modelled from the spec: [BNToHex] of [util.ts], the hexadecimal
    quantity of a big number, with its prefix. *)
Definition BNToHex (inputBn : BN.t) : string :=
  addHexPrefix (BN.toString16 inputBn).

(** Modelled from the spec: [fractionBN] of [util.ts], the target times
    the numerator, divided by the denominator, in big-number arithmetic
    (the quotient is rounded down). *)
Definition fractionBN (targetBN : BN.t) (numerator denominator : Z) : BN.t :=
  BN.div (BN.mul targetBN (BN.ofZ numerator)) (BN.ofZ denominator).


(** ** Data model *)

(** A JavaScript number that need not be an integer, as [Number(string)]
    returns it. *)
Inductive JSNumber :=
  | NaN
  | PosInfinity
  | NegInfinity
  | Finite (q : Q).

(** [a < b] for a finite [b]; every comparison with [NaN] is false. *)
Definition numberLt (a : JSNumber) (b : Q) : bool :=
  match a with
  | NaN | PosInfinity => false
  | NegInfinity => true
  | Finite q => if Qlt_le_dec q b then true else false
  end.

(** [a >= b] *)
Definition numberGe (a : JSNumber) (b : Q) : bool :=
  match a with
  | NaN | NegInfinity => false
  | PosInfinity => true
  | Finite q => if Qlt_le_dec q b then false else true
  end.

Definition numberTruthy (a : JSNumber) : bool :=
  match a with
  | NaN => false
  | Finite q => negb (Qeq_bool q 0)
  | _ => true
  end.

Record Error := mkError { message : string }.

Inductive TransactionStatus :=
  | approved
  | cancelled
  | confirmed
  | failed
  | rejected
  | signed
  | cancelSubmitted
  | accelerateSubmitted
  | submitted
  | receiving
  | unapproved.

(** [OTHER] and [ARCHI_PAGE] are the same value, ['other_device']. *)
Inductive WalletDevice := MM_MOBILE | MM_EXTENSION | OTHER.
Definition ARCHI_PAGE : WalletDevice := OTHER.

(** [gasLimit] is not in the interface, but the parameter objects built by
    the fee-bump operations carry it, and [stopTransaction] stores one of
    them as the [transaction] of the replacement record. *)
Record Transaction := mkTransaction {
  tx_chainId : option JSNumber;
  tx_data : option string;
  tx_from : string;
  tx_gas : option string;
  tx_gasPrice : option string;
  tx_nonce : option string;
  tx_to : option string;
  tx_value : option string;
  tx_amount : option string;
  tx_payloadId : option string;
  tx_gasLimit : option string;
}.

Record TransferInformation := mkTransferInformation {
  symbol : string;
  contractAddress : string;
  decimals : JSNumber;
}.

(** [TransactionMeta]: the two arms of the union differ by [error], which
    is an optional field here. [time] is a number, [None] when it is [NaN]. *)
Record TransactionMeta := mkTransactionMeta {
  isTokenTx : option bool;
  transferInformation : option TransferInformation;
  id : string;
  networkID : option string;
  chainId : option string;
  origin : option string;
  rawTransaction : option string;
  time : option Z;
  toSmartContract : option bool;
  fromSmartContract : option bool;
  transaction : Transaction;
  transactionHash : option string;
  blockNumber : option string;
  deviceConfirmedOn : option WalletDevice;
  confirmations : option string;
  amount : option string;
  status : TransactionStatus;
  error : option Error;
}.

Record EtherscanTransactionMeta := mkEtherscanTransactionMeta {
  es_blockNumber : string;
  es_timeStamp : string;
  es_hash : string;
  es_nonce : string;
  es_blockHash : string;
  es_transactionIndex : string;
  es_from : string;
  es_to : string;
  es_value : string;
  es_gas : string;
  es_gasPrice : string;
  es_isError : string;
  es_txreceipt_status : string;
  es_input : string;
  es_contractAddress : string;
  es_cumulativeGasUsed : string;
  es_gasUsed : string;
  es_confirmations : string;
  es_tokenDecimal : string;
  es_tokenSymbol : string;
}.

Record TransactionState := mkTransactionState {
  transactions : list TransactionMeta;
  methodData : list (string * string);
}.

#[global] Instance Q_eq_dec : EqDecision Q.
Proof. solve_decision. Defined.
#[global] Instance JSNumber_eq_dec : EqDecision JSNumber.
Proof. solve_decision. Defined.
#[global] Instance Error_eq_dec : EqDecision Error.
Proof. solve_decision. Defined.
#[global] Instance TransactionStatus_eq_dec : EqDecision TransactionStatus.
Proof. solve_decision. Defined.
#[global] Instance WalletDevice_eq_dec : EqDecision WalletDevice.
Proof. solve_decision. Defined.
#[global] Instance Transaction_eq_dec : EqDecision Transaction.
Proof. solve_decision. Defined.
#[global] Instance TransferInformation_eq_dec : EqDecision TransferInformation.
Proof. solve_decision. Defined.
#[global] Instance TransactionMeta_eq_dec : EqDecision TransactionMeta.
Proof. solve_decision. Defined.

(** Object spreads [{...o, field: v}] of the source. *)
Definition withStatus (m : TransactionMeta) (s : TransactionStatus) : TransactionMeta :=
  mkTransactionMeta (isTokenTx m) (transferInformation m) (id m) (networkID m)
    (chainId m) (origin m) (rawTransaction m) (time m) (toSmartContract m)
    (fromSmartContract m) (transaction m) (transactionHash m) (blockNumber m)
    (deviceConfirmedOn m) (confirmations m) (amount m) s (error m).

Definition withError (m : TransactionMeta) (e : Error) : TransactionMeta :=
  mkTransactionMeta (isTokenTx m) (transferInformation m) (id m) (networkID m)
    (chainId m) (origin m) (rawTransaction m) (time m) (toSmartContract m)
    (fromSmartContract m) (transaction m) (transactionHash m) (blockNumber m)
    (deviceConfirmedOn m) (confirmations m) (amount m) (status m) (Some e).

Definition withTransaction (m : TransactionMeta) (t : Transaction) : TransactionMeta :=
  mkTransactionMeta (isTokenTx m) (transferInformation m) (id m) (networkID m)
    (chainId m) (origin m) (rawTransaction m) (time m) (toSmartContract m)
    (fromSmartContract m) t (transactionHash m) (blockNumber m)
    (deviceConfirmedOn m) (confirmations m) (amount m) (status m) (error m).

Definition withRawTransaction (m : TransactionMeta) (r : string) : TransactionMeta :=
  mkTransactionMeta (isTokenTx m) (transferInformation m) (id m) (networkID m)
    (chainId m) (origin m) (Some r) (time m) (toSmartContract m)
    (fromSmartContract m) (transaction m) (transactionHash m) (blockNumber m)
    (deviceConfirmedOn m) (confirmations m) (amount m) (status m) (error m).

Definition withTransactionHash (m : TransactionMeta) (h : string) : TransactionMeta :=
  mkTransactionMeta (isTokenTx m) (transferInformation m) (id m) (networkID m)
    (chainId m) (origin m) (rawTransaction m) (time m) (toSmartContract m)
    (fromSmartContract m) (transaction m) (Some h) (blockNumber m)
    (deviceConfirmedOn m) (confirmations m) (amount m) (status m) (error m).

Definition withSmartContractFlags (m : TransactionMeta) (t f : option bool) : TransactionMeta :=
  mkTransactionMeta (isTokenTx m) (transferInformation m) (id m) (networkID m)
    (chainId m) (origin m) (rawTransaction m) (time m) t f (transaction m)
    (transactionHash m) (blockNumber m) (deviceConfirmedOn m) (confirmations m)
    (amount m) (status m) (error m).

(** [{...m, id, time, transaction, transactionHash}], the replacement
    record of a fee bump. *)
Definition replacementOf (m : TransactionMeta) (newId : string) (now : Z)
    (t : Transaction) (hash : string) : TransactionMeta :=
  mkTransactionMeta (isTokenTx m) (transferInformation m) newId (networkID m)
    (chainId m) (origin m) (rawTransaction m) (Some now) (toSmartContract m)
    (fromSmartContract m) t (Some hash) (blockNumber m)
    (deviceConfirmedOn m) (confirmations m) (amount m) (status m) (error m).

(** [delete m.amount; delete m.isTokenTx; delete m.transferInformation] *)
Definition withoutTransferFields (m : TransactionMeta) : TransactionMeta :=
  mkTransactionMeta None None (id m) (networkID m)
    (chainId m) (origin m) (rawTransaction m) (time m) (toSmartContract m)
    (fromSmartContract m) (transaction m) (transactionHash m) (blockNumber m)
    (deviceConfirmedOn m) (confirmations m) None (status m) (error m).

Definition withNonceAndChainId (t : Transaction) (n : option string) (c : option JSNumber) : Transaction :=
  mkTransaction c (tx_data t) (tx_from t) (tx_gas t) (tx_gasPrice t) n (tx_to t)
    (tx_value t) (tx_amount t) (tx_payloadId t) (tx_gasLimit t).

Definition withGasLimit (t : Transaction) (l : option string) : Transaction :=
  mkTransaction (tx_chainId t) (tx_data t) (tx_from t) (tx_gas t) (tx_gasPrice t)
    (tx_nonce t) (tx_to t) (tx_value t) (tx_amount t) (tx_payloadId t) l.

Definition withGasPrice (t : Transaction) (p : option string) : Transaction :=
  mkTransaction (tx_chainId t) (tx_data t) (tx_from t) (tx_gas t) p
    (tx_nonce t) (tx_to t) (tx_value t) (tx_amount t) (tx_payloadId t) (tx_gasLimit t).

(** The outcome of a call: a value, a thrown error (a rejected promise for
    an [async] function), or a promise that never settles. *)
Inductive Outcome (A : Type) :=
  | Ok (a : A)
  | Throw (e : Error)
  | Pending.
Arguments Ok {A} a.
Arguments Throw {A} e.
Arguments Pending {A}.

(** [Array.prototype.findIndex]; [None] is [-1]. *)
Fixpoint findIndex {A} (p : A → bool) (l : list A) : option nat :=
  match l with
  | [] => None
  | x :: r => if p x then Some O else S <$> findIndex p r
  end.

(** [Array.prototype.filter] with a callback that reads the index. *)
Fixpoint filterIndexed {A} (p : A → nat → bool) (i : nat) (l : list A) : list A :=
  match l with
  | [] => []
  | x :: r => if p x i then x :: filterIndexed p (S i) r else filterIndexed p (S i) r
  end.

(** ** Reconciliation: normalisation of the remote history *)
Module Normalize.
Section Normalize.

(** [Number(string)] of the JavaScript runtime. *)
Variable Number : string → JSNumber.

(** [random({ msecs })] of the uuid package, as a function of its
    option. *)
Variable random : option Z → string.

(** [number.toString().replace(/\s+/g, '')] *)
Fixpoint withoutWhiteSpace (s : string) : string :=
  match s with
  | EmptyString => EmptyString
  | String c r =>
      if JS.isWhiteSpace c then withoutWhiteSpace r else String c (withoutWhiteSpace r)
  end.

(** [BNToHex(new BN(decimal))]. The constructor of [bn.js] takes the
    empty string for the number zero; of any other string it drops the
    white space, takes a leading minus sign, and reads the rest in base
    10, raising 'Invalid character' on a character that is not a digit.
    When nothing is left to read the number has no word and prints as
    nothing; minus zero prints as zero. *)
Definition decimalToHex (s : string) : Outcome string :=
  match s with
  | EmptyString => Ok (BNToHex (BN.ofZ 0))
  | _ =>
      let number := withoutWhiteSpace s in
      let negative := match number with String "-" _ => true | _ => false end in
      let digits := match number with String "-" r => r | _ => number end in
      match digits with
      | EmptyString =>
          Ok (addHexPrefix ((if negative then "-" else "") +:+ BN.toString16 (BN.mk [])))
      | _ =>
          match JS.digitsAll 10 digits 0 with
          | Some n =>
              Ok (addHexPrefix
                    ((if negative && negb (n =? 0) then "-" else "")
                     +:+ BN.toString16 (BN.ofZ n)))
          | None => Throw (mkError "Invalid character")
          end
      end
  end.

Definition timeOf (txMeta : EtherscanTransactionMeta) : option Z :=
  (fun t => t * 1000) <$> JS.parseInt (es_timeStamp txMeta) (Some 10).

(** The status of an entry that is not flagged as an error. *)
Definition tempStatus (txMeta : EtherscanTransactionMeta) (address : string)
  : TransactionStatus :=
  if numberLt (Number (es_confirmations txMeta)) 2 then
    if bool_decide (JS.toLowerCase (es_from txMeta) = JS.toLowerCase address)
    then submitted else receiving
  else confirmed.

Definition isSender (txMeta : EtherscanTransactionMeta) (address : string) : Prop :=
  JS.toLowerCase (es_from txMeta) = JS.toLowerCase address.

(** The status rule by confirmations and sender, as a property of the
    record [m] an entry is normalised to. *)
Definition statusByConfirmations (txMeta : EtherscanTransactionMeta)
    (address : string) (m : TransactionMeta) : Prop :=
  (numberGe (Number (es_confirmations txMeta)) 2 = true → status m = confirmed) ∧
  (numberLt (Number (es_confirmations txMeta)) 2 = true →
     isSender txMeta address → status m = submitted) ∧
  (numberLt (Number (es_confirmations txMeta)) 2 = true →
     ¬ isSender txMeta address → status m = receiving).

Definition normalizeTx (txMeta : EtherscanTransactionMeta)
    (currentNetworkID : string) (currentChainId : option string) (address : string)
  : Outcome TransactionMeta :=
  let time := timeOf txMeta in
  match decimalToHex (es_gas txMeta) with
  | Ok gas =>
  match decimalToHex (es_gasPrice txMeta) with
  | Ok gasPrice =>
  match decimalToHex (es_nonce txMeta) with
  | Ok nonce =>
  match decimalToHex (es_value txMeta) with
  | Ok value =>
      let normalizedTransactionBase (st : TransactionStatus) (err : option Error) :=
        {| isTokenTx := None; transferInformation := None;
           id := random time;
           networkID := Some currentNetworkID;
           chainId := currentChainId;
           origin := None; rawTransaction := None;
           time := time;
           toSmartContract := None; fromSmartContract := None;
           transaction :=
             {| tx_chainId := None;
                tx_data := Some (es_input txMeta);
                tx_from := es_from txMeta;
                tx_gas := Some gas;
                tx_gasPrice := Some gasPrice;
                tx_nonce := Some nonce;
                tx_to := Some (es_to txMeta);
                tx_value := Some value;
                tx_amount := None; tx_payloadId := None; tx_gasLimit := None |};
           transactionHash := Some (es_hash txMeta);
           blockNumber := Some (es_blockNumber txMeta);
           deviceConfirmedOn := None;
           confirmations := Some (es_confirmations txMeta);
           amount := None;
           status := st;
           error := err |} in
      if bool_decide (es_isError txMeta = "0") then
        Ok (normalizedTransactionBase (tempStatus txMeta address) None)
      else
        Ok (normalizedTransactionBase failed (Some (mkError "Transaction failed")))
  | Throw e => Throw e | Pending => Pending end
  | Throw e => Throw e | Pending => Pending end
  | Throw e => Throw e | Pending => Pending end
  | Throw e => Throw e | Pending => Pending end.

(** [Number(currentNetworkID) || Number(currentChainId)] *)
Definition tokenChainId (currentNetworkID : string) (currentChainId : option string)
  : JSNumber :=
  if numberTruthy (Number currentNetworkID) then Number currentNetworkID
  else match currentChainId with
       | Some chain => Number chain
       | None => NaN
       end.

Definition normalizeTokenTx (txMeta : EtherscanTransactionMeta)
    (currentNetworkID : string) (currentChainId : option string) (address : string)
  : Outcome TransactionMeta :=
  let time := timeOf txMeta in
  match decimalToHex (es_nonce txMeta) with
  | Ok nonce =>
      Ok {| isTokenTx := Some true;
            transferInformation :=
              Some {| contractAddress := es_contractAddress txMeta;
                      decimals := Number (es_tokenDecimal txMeta);
                      symbol := es_tokenSymbol txMeta |};
            id := random time;
            networkID := Some currentNetworkID;
            chainId := currentChainId;
            origin := None; rawTransaction := None;
            time := time;
            toSmartContract := None; fromSmartContract := None;
            transaction :=
              {| tx_chainId := Some (tokenChainId currentNetworkID currentChainId);
                 tx_data := None;
                 tx_from := es_from txMeta;
                 tx_gas := Some (es_gas txMeta);
                 tx_gasPrice := Some (es_gasPrice txMeta);
                 tx_nonce := Some nonce;
                 tx_to := Some (es_to txMeta);
                 tx_value := Some (es_value txMeta);
                 tx_amount := None; tx_payloadId := None; tx_gasLimit := None |};
            transactionHash := Some (es_hash txMeta);
            blockNumber := Some (es_blockNumber txMeta);
            deviceConfirmedOn := None;
            confirmations := Some (es_confirmations txMeta);
            amount := None;
            status := tempStatus txMeta address;
            error := None |}
  | Throw e => Throw e
  | Pending => Pending
  end.

End Normalize.

Definition isDecimal (s : string) : Prop := is_Some (JS.digitsAll 10 s 0).

(** [Number] on a string of decimal digits (the empty string is zero);
    the confirmation counts of the explorer have this form. *)
Definition NumberOfDigits (s : string) : JSNumber :=
  match JS.digitsAll 10 s 0 with
  | Some n => Finite (inject_Z n)
  | None => NaN
  end.

End Normalize.

(** ** Reconciliation: merging the remote history into the local records *)
Module Reconcile.

Definition fromWallet (address : string) (tx : TransactionMeta) : bool :=
  bool_decide (JS.toLowerCase (tx_from (transaction tx)) = JS.toLowerCase address).

Definition sentBy (address : string) (tx : TransactionMeta) : Prop :=
  JS.toLowerCase (tx_from (transaction tx)) = JS.toLowerCase address.

(** The callback that [filterForRemoteTx] hands to [localTxs.find]: does
    this local entry duplicate [remoteTx]? *)
Definition matchesLocal (address : string) (remoteTx localTx : TransactionMeta) : bool :=
  if fromWallet address localTx && fromWallet address remoteTx then
    JS.strictEq (tx_nonce (transaction localTx)) (tx_nonce (transaction remoteTx))
  else
    JS.strictEq (transactionHash localTx) (transactionHash remoteTx).

Definition alreadyInLocalTx (address : string) (localTxs : list TransactionMeta)
    (remoteTx : TransactionMeta) : option TransactionMeta :=
  List.find (matchesLocal address remoteTx) localTxs.

(** The test of case 1-1: the local entry is not confirmed and the
    remote one is. *)
Definition supersedes (localTx remoteTx : TransactionMeta) : bool :=
  bool_decide (status localTx ≠ confirmed) && bool_decide (status remoteTx = confirmed).

(** What the callback of [filterForRemoteTx] answers for a remote
    entry, and what it pushes onto [removeLocalTxs]. *)
Definition keepsRemote (address : string) (localTxs : list TransactionMeta)
    (remoteTx : TransactionMeta) : bool :=
  match alreadyInLocalTx address localTxs remoteTx with
  | Some localTx => supersedes localTx remoteTx
  | None => true
  end.

Definition removedFor (address : string) (localTxs : list TransactionMeta)
    (remoteTx : TransactionMeta) : option TransactionMeta :=
  match alreadyInLocalTx address localTxs remoteTx with
  | Some localTx => if supersedes localTx remoteTx then Some localTx else None
  | None => None
  end.

(** [remoteTxs.filter(this.filterForRemoteTx(localTxs, address,
    removeLocalTxs))]: the callback pushes onto the shared array
    [removeLocalTxs], which is threaded through the traversal and
    returned with the entries that pass. *)
Fixpoint filterForRemoteTx (localTxs : list TransactionMeta) (address : string)
    (removeLocalTxs : list TransactionMeta) (remoteTxs : list TransactionMeta)
  : list TransactionMeta * list TransactionMeta :=
  match remoteTxs with
  | [] => ([], removeLocalTxs)
  | remoteTx :: rest =>
      match alreadyInLocalTx address localTxs remoteTx with
      | Some localTx =>
          if supersedes localTx remoteTx then
            let '(pass, removed) :=
              filterForRemoteTx localTxs address (removeLocalTxs ++ [localTx]) rest in
            (remoteTx :: pass, removed)
          else filterForRemoteTx localTxs address removeLocalTxs rest
      | None =>
          let '(pass, removed) :=
            filterForRemoteTx localTxs address removeLocalTxs rest in
          (remoteTx :: pass, removed)
      end
  end.

Definition filterForLocalTx (removeLocalTxs : list TransactionMeta)
    (localTx : TransactionMeta) : bool :=
  negb (existsb
          (fun removed => JS.strictEq (transactionHash removed) (transactionHash localTx))
          removeLocalTxs).

Definition duplicatedTxHash (remoteTxs : list TransactionMeta)
    (item : TransactionMeta) (index : nat) : bool :=
  bool_decide
    (findIndex (fun tx => JS.strictEq (transactionHash tx) (transactionHash item)) remoteTxs
     = Some index).

Definition dedupe (remoteTxs : list TransactionMeta) : list TransactionMeta :=
  filterIndexed (duplicatedTxHash remoteTxs) 0 remoteTxs.

(** One of the two passes of [fetchAll] ("ether txs", "token txs"). *)
Record Merge := mkMerge {
  localTxs' : list TransactionMeta;        (* the local entries that stay *)
  remoteTxsForAdd : list TransactionMeta;  (* the remote entries added *)
  removeLocalTxs : list TransactionMeta;   (* what the callback pushed *)
}.

Definition merge (address : string) (localTxs remoteTxs : list TransactionMeta) : Merge :=
  let '(forAdd, removed) := filterForRemoteTx localTxs address [] remoteTxs in
  mkMerge (List.filter (filterForLocalTx removed) localTxs) forAdd removed.

(** The part of [tempAllTxs] that one pass contributes. *)
Definition merged (m : Merge) : list TransactionMeta :=
  localTxs' m ++ remoteTxsForAdd m.

Definition isToken (tx : TransactionMeta) : bool :=
  match isTokenTx tx with Some true => true | _ => false end.

(** [tempAllTxs], before the smart-contract flags are filled in. *)
Definition tempAllTxs (address : string) (stateTxs remoteEtherTxs remoteTokenTxs
    : list TransactionMeta) : list TransactionMeta :=
  let ether := merge address (List.filter (fun tx => negb (isToken tx)) stateTxs) remoteEtherTxs in
  let token := merge address (List.filter isToken stateTxs) remoteTokenTxs in
  merged ether ++ merged token.

(** Did the two passes add a remote entry or remove a local one? *)
Definition changed (address : string) (stateTxs remoteEtherTxs remoteTokenTxs
    : list TransactionMeta) : bool :=
  let ether := merge address (List.filter (fun tx => negb (isToken tx)) stateTxs) remoteEtherTxs in
  let token := merge address (List.filter isToken stateTxs) remoteTokenTxs in
  negb (bool_decide (removeLocalTxs ether = []))
  || negb (bool_decide (removeLocalTxs token = []))
  || negb (bool_decide (remoteTxsForAdd ether = []))
  || negb (bool_decide (remoteTxsForAdd token = [])).

(** The matching rule in the words of the specification: the two
    entries share sender address and nonce, or otherwise their hashes
    are equal. *)
Definition SpecMatches (remoteTx localTx : TransactionMeta) : bool :=
  let sameSenderAndNonce :=
    bool_decide (JS.toLowerCase (tx_from (transaction localTx))
                 = JS.toLowerCase (tx_from (transaction remoteTx)))
    && JS.strictEq (tx_nonce (transaction localTx)) (tx_nonce (transaction remoteTx)) in
  sameSenderAndNonce
  || JS.strictEq (transactionHash localTx) (transactionHash remoteTx).

End Reconcile.

(** ** The controller and its collaborators *)

(** What the node answers to [getBlockByNumber] and [getTransactionByHash],
    as far as the controller reads it. *)
Record Block := mkBlock { gasLimit : string }.
Record TransactionObject := mkTransactionObject { txBlockNumber : option string }.

(** The JSON-RPC methods the controller calls through [query]. *)
Inductive Call :=
  | eth_gasPrice
  | eth_getBlockByNumber (tag : string) (full : bool)
  | eth_getCode (address : string)
  | eth_estimateGas (transaction : Transaction)
  | eth_getTransactionCount (address tag : string)
  | eth_sendRawTransaction (rawTransaction : string)
  | eth_getTransactionByHash (hash : option string).

(** The node behind [ethQuery]: its answer to each method. *)
Record EthQuery := mkEthQuery {
  onGasPrice : Outcome string;
  onGetBlockByNumber : Outcome Block;
  onGetCode : string → Outcome string;
  onEstimateGas : Transaction → Outcome string;
  onGetTransactionCount : string → Outcome string;
  onSendRawTransaction : string → Outcome string;
  onGetTransactionByHash : option string → Outcome (option TransactionObject);
}.

Record Provider := mkProvider {
  providerType : string;
  providerChainId : option string;
}.

Record NetworkState := mkNetworkState {
  network : string;
  isCustomNetwork : bool;
  provider : Provider;
}.

(** The parameter object handed to [prepareUnsignedEthTx]. *)
Record TxParams := mkTxParams {
  params : Transaction;
  paramsStatus : option TransactionStatus;
}.

Record FetchAllOptions := mkFetchAllOptions {
  fromBlock : option string;
  etherscanApiKey : option string;
}.

(** The mutable part: the state container of [BaseController], the event
    hub, the mutex, and the log of what went out to listeners and to the
    node. *)
Record Controller := mkController {
  state : TransactionState;
  disabled : bool;
  internalListeners : list string;                  (* the keys subscribed *)
  delivered : list (string * TransactionState);     (* listener calls, oldest first *)
  hub : list (string * TransactionMeta);            (* events emitted, oldest first *)
  mutexLocked : bool;
  calls : list Call;                                (* queries issued, oldest first *)
  uuids : nat;                                      (* identifiers drawn so far *)
}.

Definition isOk {A} (r : Outcome A) : bool :=
  match r with Ok _ => true | _ => false end.

Definition M (A : Type) : Type := Controller → Outcome A * Controller.

Definition ret {A} (a : A) : M A := fun c => (Ok a, c).
Definition throw {A} (e : Error) : M A := fun c => (Throw e, c).
Definition bind {A B} (m : M A) (k : A → M B) : M B :=
  fun c =>
    match m c with
    | (Ok a, c') => k a c'
    | (Throw e, c') => (Throw e, c')
    | (Pending, c') => (Pending, c')
    end.

#[global] Instance M_ret : MRet M := @ret.
#[global] Instance M_bind : MBind M := fun A B k m => bind m k.

Definition getState : M TransactionState := fun c => (Ok (state c), c).

(** [try { body } finally { handler }] *)
Definition finally {A} (body : M A) (handler : M unit) : M A :=
  fun c =>
    match body c with
    | (Pending, c') => (Pending, c')
    | (r, c') =>
        match handler c' with
        | (Ok _, c'') => (r, c'')
        | (Throw e, c'') => (Throw e, c'')
        | (Pending, c'') => (Pending, c'')
        end
    end.

(** Modelled from the spec: [safelyExecute] of [util.ts], which is not
    part of the sources at hand; a failure inside is swallowed, not
    propagated. *)
Definition safelyExecute (body : M unit) : M unit :=
  fun c =>
    match body c with
    | (Throw _, c') => (Ok (), c')
    | r => r
    end.

Definition setState (s : TransactionState) (c : Controller) : Controller :=
  mkController s (disabled c) (internalListeners c) (delivered c) (hub c)
    (mutexLocked c) (calls c) (uuids c).
Definition setDelivered (d : list (string * TransactionState)) (c : Controller) : Controller :=
  mkController (state c) (disabled c) (internalListeners c) d (hub c)
    (mutexLocked c) (calls c) (uuids c).
Definition setHub (h : list (string * TransactionMeta)) (c : Controller) : Controller :=
  mkController (state c) (disabled c) (internalListeners c) (delivered c) h
    (mutexLocked c) (calls c) (uuids c).
Definition setMutexLocked (l : bool) (c : Controller) : Controller :=
  mkController (state c) (disabled c) (internalListeners c) (delivered c) (hub c)
    l (calls c) (uuids c).
Definition setCalls (q : list Call) (c : Controller) : Controller :=
  mkController (state c) (disabled c) (internalListeners c) (delivered c) (hub c)
    (mutexLocked c) q (uuids c).
Definition setUuids (n : nat) (c : Controller) : Controller :=
  mkController (state c) (disabled c) (internalListeners c) (delivered c) (hub c)
    (mutexLocked c) (calls c) n.

(** *** BaseController *)
Module BaseController.

(** [notify]: every subscribed listener is called with the current
    state, unless the controller is disabled. *)
Definition notify : M unit :=
  fun c =>
    if disabled c then (Ok (), c)
    else (Ok (), setDelivered
                   (delivered c ++ List.map (fun key => (key, state c)) (internalListeners c)) c).

(** [update(state)] with [overwrite = false]: the partial state is
    merged into a fresh object, which replaces [internalState]; then
    [notify] runs. [None] is a key the partial state does not have. *)
Definition update (newTransactions : option (list TransactionMeta))
    (newMethodData : option (list (string * string))) : M unit :=
  fun c =>
    let merged :=
      mkTransactionState
        (default (transactions (state c)) newTransactions)
        (default (methodData (state c)) newMethodData) in
    notify (setState merged c).

End BaseController.

(** [this.update({ transactions })] *)
Definition updateTransactions (txs : list TransactionMeta) : M unit :=
  BaseController.update (Some txs) None.

(** [this.hub.emit(event, payload)] *)
Definition emit (event : string) (payload : TransactionMeta) : M unit :=
  fun c => (Ok (), setHub (hub c ++ [(event, payload)]) c).

(** Modelled from the spec: [query] of [util.ts], which is not part of
    the sources at hand; it issues one logical RPC operation through the
    injected query capability. The call is logged and the node's answer
    comes back, an error as a rejection. *)
Definition query {A} (call : Call) (answer : Outcome A) : M A :=
  fun c => (answer, setCalls (calls c ++ [call]) c).

(** [mutex.acquire()]: settles at once when the mutex is free; behind a
    holder that never releases, it never settles. *)
Definition acquire : M unit :=
  fun c => if mutexLocked c then (Pending, c) else (Ok (), setMutexLocked true c).

(** [releaseLock()]. Nothing waits for the mutex within one operation, so
    a second call of the releaser leaves the mutex free. *)
Definition releaseLock : M unit :=
  fun c => (Ok (), setMutexLocked false c).

(** *** TransactionController *)
Module TransactionController.
Section TransactionController.

(** [TypedTransaction] of [@ethereumjs/tx] *)
Variable TypedTransaction : Type.

(** Everything the controller is given or imports: the node, the
    network controller, the signer, [@ethereumjs/tx], [uuid], the clock,
    the JavaScript runtime, and the helpers of [util.ts] that are not
    part of the sources at hand ([normalizeTransaction],
    [validateTransaction], [handleTransactionFetch],
    [isSmartContractCode]). *)
Record Env := mkEnv {
  ethQuery : EthQuery;
  getNetworkState : NetworkState;
  sign : option (TypedTransaction → string → Outcome TypedTransaction);
  fromTxData : TxParams → Outcome TypedTransaction;
  serialize : TypedTransaction → string;      (* bufferToHex(tx.serialize()) *)
  random : option (option Z) → nat → string;  (* options, identifiers drawn before *)
  dateNow : Z;
  Number : string → JSNumber;
  arraySort : list TransactionMeta → list TransactionMeta;
  normalizeTransaction : Transaction → Transaction;
  validateTransaction : Transaction → option Error;   (* the error it throws *)
  handleTransactionFetch :
    string → string → option FetchAllOptions →
    Outcome (list EtherscanTransactionMeta * list EtherscanTransactionMeta);
  isSmartContractCode : string → bool;
}.

Variable env : Env.

Definition CANCEL_RATE : Z * Z := (3, 2).      (* 1.5 *)
Definition SPEED_UP_RATE : Z * Z := (11, 10).  (* 1.1 *)

Definition hasId (transactionID : string) (meta : TransactionMeta) : bool :=
  bool_decide (id meta = transactionID).

(** [random()] *)
Definition freshId (options : option (option Z)) : M string :=
  fun c => (Ok (random env options (uuids c)), setUuids (S (uuids c)) c).

(** [updateTransaction]. The argument object gets its [transaction]
    normalised in place, so the caller goes on with the object returned
    here. An [id] that is not in the list leaves the list as it is. *)
Definition updateTransaction (transactionMeta : TransactionMeta) : M TransactionMeta :=
  s ← getState;
  let tempTxs := transactions s in
  let transactionMeta' :=
    withTransaction transactionMeta
      (normalizeTransaction env (transaction transactionMeta)) in
  match validateTransaction env (transaction transactionMeta') with
  | Some e => throw e
  | None =>
      let tempTxs' :=
        match findIndex (hasId (id transactionMeta')) tempTxs with
        | Some index => <[index := transactionMeta']> tempTxs
        | None => tempTxs
        end in
      updateTransactions tempTxs';;
      mret transactionMeta'
  end.

Definition failTransaction (transactionMeta : TransactionMeta) (error : Error) : M unit :=
  let newTransactionMeta := withStatus (withError transactionMeta error) failed in
  newTransactionMeta' ← updateTransaction newTransactionMeta;
  emit (id transactionMeta +:+ ":finished") newTransactionMeta'.

(** [hexToBN] on an answer of the node; [new BN] raises on a character
    that is not a digit. *)
Definition hexToBN' (inputHex : string) : M BN.t :=
  match hexToBN inputHex with
  | Some bn => mret bn
  | None => throw (mkError "Invalid character")
  end.

(** The test of step 2 of [estimateGas]. *)
Definition intrinsicGasOnly (isCustomNetwork : bool)
    (to data code : option string) : bool :=
  negb isCustomNetwork &&
  (negb (JS.truthy to) ||
   (JS.truthy to && negb (JS.truthy data) &&
    (negb (JS.truthy code) || JS.strictEq code (Some "0x")))).

(** The policy of step 4 on plain integers: [limit] is the block gas
    limit, [estimate] the node's estimate and [gasHex] the string it
    came in. *)
Definition paddedGas (isCustomNetwork : bool) (gasHex : string) (limit estimate : Z) : string :=
  if (limit * 9 / 10 <? estimate) || isCustomNetwork then addHexPrefix gasHex
  else if estimate * 3 / 2 <? limit * 9 / 10
       then addHexPrefix (BNToHex (BN.ofZ (estimate * 3 / 2)))
       else addHexPrefix (BNToHex (BN.ofZ (limit * 9 / 10))).

Definition estimateGas (transaction : Transaction) : M (string * string) :=
  let gas := tx_gas transaction in
  let providedGasPrice := tx_gasPrice transaction in
  let to := tx_to transaction in
  let value := tx_value transaction in
  let data := tx_data transaction in
  gasPrice ← match providedGasPrice with
             | None => query eth_gasPrice (onGasPrice (ethQuery env))
             | Some p => mret p
             end;
  let isCustomNetwork := isCustomNetwork (getNetworkState env) in
  (* 1. If gas is already defined on the transaction, use it *)
  match gas with
  | Some gas => mret (gas, gasPrice)
  | None =>
      block ← query (eth_getBlockByNumber "latest" false)
                    (onGetBlockByNumber (ethQuery env));
      (* 2. No recipient, or no contract behind it and no data: 0x5208 *)
      code ← match to with
             | Some (String _ _ as to') =>
                 c ← query (eth_getCode to') (onGetCode (ethQuery env) to');
                 mret (Some c)
             | _ => mret None
             end;
      if intrinsicGasOnly isCustomNetwork to data code
      then mret ("0x5208", gasPrice)
      else
        let data' := if JS.truthy data then addHexPrefix <$> data else data in
        (* 3. If this is a contract address, safely estimate gas using RPC *)
        let value' := match value with None => Some "0x0" | Some v => Some v end in
        gasLimitBN ← hexToBN' (gasLimit block);
        let estimatedTransaction :=
          mkTransaction (tx_chainId transaction) data' (tx_from transaction)
            (Some (BNToHex (fractionBN gasLimitBN 19 20)))
            (tx_gasPrice transaction) (tx_nonce transaction) to value'
            (tx_amount transaction) (tx_payloadId transaction)
            (tx_gasLimit transaction) in
        gasHex ← query (eth_estimateGas estimatedTransaction)
                       (onEstimateGas (ethQuery env) estimatedTransaction);
        (* 4. Pad estimated gas without exceeding the most recent block gasLimit *)
        gasBN ← hexToBN' gasHex;
        let maxGasBN := BN.muln gasLimitBN 9 10 in      (* muln(0.9) *)
        let paddedGasBN := BN.muln gasBN 3 2 in         (* muln(1.5) *)
        if BN.gt gasBN maxGasBN || isCustomNetwork then
          mret (addHexPrefix gasHex, gasPrice)
        else if BN.lt paddedGasBN maxGasBN then
          mret (addHexPrefix (BNToHex paddedGasBN), gasPrice)
        else
          mret (addHexPrefix (BNToHex maxGasBN), gasPrice)
  end.


(** A synchronous call that may throw, or an awaited promise of a
    collaborator. *)
Definition await {A} (answer : Outcome A) : M A := fun c => (answer, c).

(** The number behind an optional integer, [NaN] when there is none. *)
Definition numberOf (n : option Z) : JSNumber :=
  match n with
  | Some z => Finite (inject_Z z)
  | None => NaN
  end.

(** What [updateTransaction] leaves in the object it was given, also
    when the validation that follows throws. *)
Definition normalized (transactionMeta : TransactionMeta) : TransactionMeta :=
  withTransaction transactionMeta
    (normalizeTransaction env (transaction transactionMeta)).

(** One statement of the [try] block of [approveTransaction], run while
    the variable [tempTxMeta] holds the given value: when the statement
    throws, the [catch] clause fails that value with the error. *)
Definition attempt {A} (tempTxMeta : TransactionMeta) (step : M A)
    (next : A → M unit) : M unit :=
  fun c =>
    match step c with
    | (Ok a, c') => next a c'
    | (Throw error, c') => failTransaction tempTxMeta error c'
    | (Pending, c') => (Pending, c')
    end.

Definition approveTransaction (transactionID : string) : M unit :=
  s ← getState;
  let transactions := transactions s in
  acquire;;
  let currentChainId := providerChainId (provider (getNetworkState env)) in
  match findIndex (hasId transactionID) transactions ≫= (fun index => transactions !! index) with
  | None =>
      (* [transactions[-1]] is undefined: reading its [transaction] throws *)
      throw (mkError "TypeError")
  | Some transactionMeta =>
      let nonce := tx_nonce (transaction transactionMeta) in
      let tempTxMeta := transactionMeta in
      finally
        (let from := tx_from (transaction tempTxMeta) in
         match sign env with
         | None =>
             attempt tempTxMeta
               (releaseLock;;
                failTransaction tempTxMeta (mkError "No sign method defined."))
               mret
         | Some sign =>
             if negb (JS.truthy currentChainId) then
               attempt tempTxMeta
                 (releaseLock;;
                  failTransaction tempTxMeta (mkError "No chainId defined."))
                 mret
             else
               let chainId := numberOf (JS.parseInt (default "" currentChainId) None) in
               let status := approved in
               attempt tempTxMeta
                 (match nonce with
                  | Some (String _ _ as n) => mret n
                  | _ => query (eth_getTransactionCount from "pending")
                               (onGetTransactionCount (ethQuery env) from)
                  end)
                 (fun txNonce =>
               let tempTxMeta :=
                 withTransaction (withStatus tempTxMeta status)
                   (withNonceAndChainId (transaction tempTxMeta) (Some txNonce) (Some chainId)) in
               let txParams :=
                 mkTxParams
                   (withGasLimit (transaction tempTxMeta) (tx_gas (transaction tempTxMeta)))
                   (Some status) in
               attempt tempTxMeta (await (fromTxData env txParams)) (fun unsignedEthTx =>
               attempt tempTxMeta (await (sign unsignedEthTx from)) (fun signedTx =>
               let tempTxMeta := withStatus tempTxMeta signed in
               attempt (normalized tempTxMeta) (updateTransaction tempTxMeta) (fun tempTxMeta =>
               let rawTransaction := serialize env signedTx in
               let tempTxMeta := withRawTransaction tempTxMeta rawTransaction in
               attempt (normalized tempTxMeta) (updateTransaction tempTxMeta) (fun tempTxMeta =>
               attempt tempTxMeta
                 (query (eth_sendRawTransaction rawTransaction)
                        (onSendRawTransaction (ethQuery env) rawTransaction))
                 (fun transactionHash =>
               let tempTxMeta :=
                 withStatus (withTransactionHash tempTxMeta transactionHash) submitted in
               attempt (normalized tempTxMeta) (updateTransaction tempTxMeta) (fun tempTxMeta =>
               attempt tempTxMeta (emit (id tempTxMeta +:+ ":finished") tempTxMeta) mret)))))))
         end)
        releaseLock
  end.

Definition cancelTransaction (transactionID : string) : M unit :=
  s ← getState;
  match List.find (hasId transactionID) (transactions s) with
  | None => mret ()
  | Some transactionMeta =>
      let copiedTransactionMeta := withStatus transactionMeta rejected in
      emit (id transactionMeta +:+ ":finished") copiedTransactionMeta;;
      s' ← getState;
      updateTransactions
        (List.filter (fun meta => negb (hasId transactionID meta)) (transactions s'))
  end.

(** [addHexPrefix(`${parseInt(`${decimal * rate}`, 10).toString(16)}`)] *)
Definition bumpedGasPrice (existingGasPrice : option string) (rate : Z * Z) : string :=
  let existingGasPriceDecimal :=
    JS.parseInt (default "0x0" existingGasPrice) (Some 16) in
  addHexPrefix
    (JS.toString16 (JS.timesTruncated existingGasPriceDecimal (fst rate) (snd rate))).

(** [tempTxs.splice(findIndex, 1); tempTxs.push(newTransactionMeta)] *)
Definition replaceById (transactionID : string) (tempTxs : list TransactionMeta)
    (newTransactionMeta : TransactionMeta) : list TransactionMeta :=
  match findIndex (hasId transactionID) tempTxs with
  | Some index => delete index tempTxs ++ [newTransactionMeta]
  | None => (* splice(-1, 1) takes the last element away *)
      take (length tempTxs - 1) tempTxs ++ [newTransactionMeta]
  end.

Definition stopTransaction (transactionID : string) : M unit :=
  s ← getState;
  match List.find (hasId transactionID) (transactions s) with
  | None => mret ()
  | Some transactionMeta =>
      match sign env with
      | None => throw (mkError "No sign method defined.")
      | Some sign =>
          let tempTxs := transactions s in
          let tempTransactionMeta := transactionMeta in
          let existingGasPrice := tx_gasPrice (transaction tempTransactionMeta) in
          let gasPrice := bumpedGasPrice existingGasPrice CANCEL_RATE in
          let txParams :=
            {| tx_chainId := None; tx_data := None;
               tx_from := tx_from (transaction tempTransactionMeta);
               tx_gas := None;
               tx_gasPrice := Some gasPrice;
               tx_nonce := tx_nonce (transaction tempTransactionMeta);
               tx_to := Some (tx_from (transaction tempTransactionMeta));
               tx_value := Some "0x0";
               tx_amount := None; tx_payloadId := None;
               tx_gasLimit := tx_gas (transaction tempTransactionMeta) |} in
          unsignedEthTx ← await (fromTxData env (mkTxParams txParams None));
          signedTx ← await (sign unsignedEthTx (tx_from (transaction tempTransactionMeta)));
          let rawTransaction := serialize env signedTx in
          transactionHash ← query (eth_sendRawTransaction rawTransaction)
                                  (onSendRawTransaction (ethQuery env) rawTransaction);
          newId ← freshId None;
          let newTransactionMeta :=
            withStatus
              (withoutTransferFields
                 (replacementOf transactionMeta newId (dateNow env)
                    (withGasPrice txParams (Some gasPrice)) transactionHash))
              cancelSubmitted in
          updateTransactions (replaceById transactionID tempTxs newTransactionMeta);;
          emit (id tempTransactionMeta +:+ ":finished") newTransactionMeta
      end
  end.

Definition speedUpTransaction (transactionID : string) : M unit :=
  s ← getState;
  match List.find (hasId transactionID) (transactions s) with
  | None => mret ()
  | Some transactionMeta =>
      match sign env with
      | None => throw (mkError "No sign method defined.")
      | Some sign =>
          let tempTxs := transactions s in
          let existingGasPrice := tx_gasPrice (transaction transactionMeta) in
          let gasPrice := bumpedGasPrice existingGasPrice SPEED_UP_RATE in
          let txParams :=
            withGasPrice
              (withGasLimit (transaction transactionMeta)
                 (tx_gas (transaction transactionMeta)))
              (Some gasPrice) in
          unsignedEthTx ← await (fromTxData env (mkTxParams txParams None));
          signedTx ← await (sign unsignedEthTx (tx_from (transaction transactionMeta)));
          let rawTransaction := serialize env signedTx in
          transactionHash ← query (eth_sendRawTransaction rawTransaction)
                                  (onSendRawTransaction (ethQuery env) rawTransaction);
          newId ← freshId None;
          let newTransactionMeta :=
            withStatus
              (replacementOf transactionMeta newId (dateNow env)
                 (withGasPrice (transaction transactionMeta) (Some gasPrice))
                 transactionHash)
              accelerateSubmitted in
          updateTransactions (replaceById transactionID tempTxs newTransactionMeta);;
          emit (id transactionMeta +:+ ":speedup") newTransactionMeta
      end
  end.

(** Is the record on the network the wallet is on? The network
    identifier decides only for a record without chain identifier. *)
Definition onCurrentNetwork (meta : TransactionMeta) : bool :=
  let currentChainId := providerChainId (provider (getNetworkState env)) in
  let currentNetworkID := network (getNetworkState env) in
  JS.strictEq (chainId meta) currentChainId
  || (negb (JS.truthy (chainId meta))
      && JS.strictEq (networkID meta) (Some currentNetworkID)).

Definition wipeTransactions (ignoreNetwork : bool) : M unit :=
  if ignoreNetwork then updateTransactions []
  else
    s ← getState;
    updateTransactions
      (List.filter (fun meta => negb (onCurrentNetwork meta)) (transactions s)).


(** [list.map(tx => normalize(tx, ...))]: every entry draws an
    identifier. *)
Fixpoint normalizeAll
    (normalize : (option Z → string) → EtherscanTransactionMeta → Outcome TransactionMeta)
    (entries : list EtherscanTransactionMeta) : M (list TransactionMeta) :=
  match entries with
  | [] => mret []
  | entry :: rest =>
      tx ← (fun c =>
              (normalize (fun msecs => random env (Some msecs) (uuids c)) entry,
               setUuids (S (uuids c)) c));
      txs ← normalizeAll normalize rest;
      mret (tx :: txs)
  end.

Definition checkSmartContract (tempTx : TransactionMeta)
    (checkAddress : option string) : M bool :=
  if bool_decide (checkAddress = Some "0x0000000000000000000000000000000000000000")
  then mret true
  else
    match checkAddress with
    | Some (String _ _ as address) =>
        if negb (JS.truthy (tx_data (transaction tempTx)))
           || negb (JS.strictEq (tx_data (transaction tempTx)) (Some "0x"))
        then
          code ← query (eth_getCode address) (onGetCode (ethQuery env) address);
          mret (isSmartContractCode env code)
        else mret false
    | _ => mret false
    end.

(** [parseInt(a, 10) < parseInt(b, 10)] *)
Definition blockBefore (a b : string) : bool :=
  match JS.parseInt a (Some 10), JS.parseInt b (Some 10) with
  | Some x, Some y => x <? y
  | _, _ => false
  end.

(** The synchronous head of the callback that [fetchAll] maps over
    [tempAllTxs]: the block number of the latest incoming transfer. *)
Definition latestIncoming (address : string) (latest : option string)
    (tx : TransactionMeta) : option string :=
  if onCurrentNetwork tx
     && JS.truthy (tx_to (transaction tx))
     && bool_decide (JS.toLowerCase (default "" (tx_to (transaction tx)))
                     = JS.toLowerCase address)
  then
    match blockNumber tx with
    | Some (String _ _ as number) =>
        match latest with
        | Some (String _ _ as l) => if blockBefore l number then Some number else latest
        | _ => Some number
        end
    | _ => latest
    end
  else latest.

(** The rest of that callback: the smart-contract flags that are still
    undefined are looked up. The callbacks of the records run
    interleaved; their queries are logged here record by record. *)
Definition annotate (tx : TransactionMeta) : M TransactionMeta :=
  toFlag ← match toSmartContract tx with
           | None => b ← checkSmartContract tx (tx_to (transaction tx)); mret (Some b)
           | Some b => mret (Some b)
           end;
  fromFlag ← match fromSmartContract tx with
             | None =>
                 b ← checkSmartContract tx (Some (tx_from (transaction tx)));
                 mret (Some b)
             | Some b => mret (Some b)
             end;
  mret (withSmartContractFlags tx toFlag fromFlag).

Fixpoint annotateAll (txs : list TransactionMeta) : M (list TransactionMeta) :=
  match txs with
  | [] => mret []
  | tx :: rest =>
      tx' ← annotate tx;
      rest' ← annotateAll rest;
      mret (tx' :: rest')
  end.

Definition supportedNetworkIds : list string := ["1"; "3"; "4"; "42"].

(** The second half of [fetchAll], from the comment "ether txs" on: the
    two remote lists are merged into the local records, and the result
    is published or not. *)
Definition reconcile (address : string)
    (remoteEtherTxs remoteTokenTxs : list TransactionMeta) : M (option string) :=
  s ← getState;
  (* ether txs *)
  let ether :=
    Reconcile.merge address
      (List.filter (fun localTx => negb (Reconcile.isToken localTx)) (transactions s))
      remoteEtherTxs in
  (* token txs *)
  let token :=
    Reconcile.merge address
      (List.filter Reconcile.isToken (transactions s)) remoteTokenTxs in
  let tempAllTxs := Reconcile.merged ether ++ Reconcile.merged token in
  let latestIncomingTxBlockNumber :=
    fold_left (latestIncoming address) tempAllTxs None in
  tempAllTxs ← annotateAll tempAllTxs;
  let tempAllTxs := arraySort env tempAllTxs in
  (* Update state only if new transactions were fetched *)
  s ← getState;
  (if bool_decide (length (transactions s) = 0%nat) then
     updateTransactions tempAllTxs
   else if negb (bool_decide (Reconcile.removeLocalTxs ether = []))
           || negb (bool_decide (Reconcile.removeLocalTxs token = []))
           || negb (bool_decide (Reconcile.remoteTxsForAdd ether = []))
           || negb (bool_decide (Reconcile.remoteTxsForAdd token = []))
   then updateTransactions tempAllTxs
   else mret ());;
  mret latestIncomingTxBlockNumber.

(** The first half of [fetchAll]: the two remote lists, normalised and
    without duplicates; [None] on a network the explorer does not
    cover. *)
Definition fetchRemote (address : string) (opt : option FetchAllOptions)
  : M (option (list TransactionMeta * list TransactionMeta)) :=
  let currentNetworkID := network (getNetworkState env) in
  let currentChainId := providerChainId (provider (getNetworkState env)) in
  let networkType := providerType (provider (getNetworkState env)) in
  if negb (bool_decide (currentNetworkID ∈ supportedNetworkIds)) then mret None
  else
    '(etherscanTxResponse, etherscanTokenResponse) ←
      await (handleTransactionFetch env networkType address opt);
    remoteEtherTxs ←
      normalizeAll
        (fun random tx =>
           Normalize.normalizeTx (Number env) random tx currentNetworkID currentChainId address)
        etherscanTxResponse;
    let remoteEtherTxs := Reconcile.dedupe remoteEtherTxs in
    remoteTokenTxs ←
      normalizeAll
        (fun random tx =>
           Normalize.normalizeTokenTx (Number env) random tx currentNetworkID currentChainId address)
        etherscanTokenResponse;
    let remoteTokenTxs := Reconcile.dedupe remoteTokenTxs in
    mret (Some (remoteEtherTxs, remoteTokenTxs)).

Definition fetchAll (address : string) (opt : option FetchAllOptions)
  : M (option string) :=
  remote ← fetchRemote address opt;
  match remote with
  | None => mret None
  | Some (remoteEtherTxs, remoteTokenTxs) =>
      reconcile address remoteEtherTxs remoteTokenTxs
  end.

End TransactionController.

Arguments ethQuery {TypedTransaction} _.
Arguments getNetworkState {TypedTransaction} _.
Arguments sign {TypedTransaction} _.
Arguments fromTxData {TypedTransaction} _ _.
Arguments serialize {TypedTransaction} _ _.
Arguments random {TypedTransaction} _ _ _.
Arguments dateNow {TypedTransaction} _.
Arguments Number {TypedTransaction} _ _.
Arguments arraySort {TypedTransaction} _ _.
Arguments normalizeTransaction {TypedTransaction} _ _.
Arguments validateTransaction {TypedTransaction} _ _.
Arguments handleTransactionFetch {TypedTransaction} _ _ _ _.
Arguments isSmartContractCode {TypedTransaction} _ _.
Arguments freshId {TypedTransaction} env options _.
Arguments updateTransaction {TypedTransaction} env transactionMeta _.
Arguments failTransaction {TypedTransaction} env transactionMeta error _.
Arguments estimateGas {TypedTransaction} env transaction _.
Arguments normalized {TypedTransaction} env transactionMeta.
Arguments attempt {TypedTransaction} env {A} tempTxMeta step next _.
Arguments approveTransaction {TypedTransaction} env transactionID _.
Arguments stopTransaction {TypedTransaction} env transactionID _.
Arguments speedUpTransaction {TypedTransaction} env transactionID _.
Arguments onCurrentNetwork {TypedTransaction} env meta.
Arguments wipeTransactions {TypedTransaction} env ignoreNetwork _.
Arguments annotateAll {TypedTransaction} env txs _.
Arguments reconcile {TypedTransaction} env address remoteEtherTxs remoteTokenTxs _.
Arguments fetchRemote {TypedTransaction} env address opt _.
Arguments fetchAll {TypedTransaction} env address opt _.
Arguments normalizeAll {TypedTransaction} env normalize entries _.

End TransactionController.

(** *** The poller, on record objects

    [queryTransactionStatuses] writes to a record through the array it
    read from [this.state], so here the records are objects on a heap and
    the published array is a list of references: an observer who kept the
    array of an earlier publication reads the objects as they are now. *)
Module Poller.

Record Store := mkStore {
  heap : gmap nat TransactionMeta;     (* the record objects *)
  published : list nat;                (* [this.state.transactions] *)
  publications : list (list nat);      (* arrays given to [update], oldest first *)
  events : list (string * nat);        (* hub events with their payload object *)
  queries : list Call;
}.

(** What an observer holding the array [refs] reads. *)
Definition view (st : Store) (refs : list nat) : list TransactionMeta :=
  omap (fun ref => heap st !! ref) refs.

Section Poller.

Variable TypedTransaction : Type.
Variable env : TransactionController.Env TypedTransaction.

Definition isIncluded (txObj : option TransactionObject) : bool :=
  match txObj with
  | Some obj => JS.truthy (txBlockNumber obj)
  | None => false
  end.

(** The callbacks of [transactions.map], with the answers of the node
    coming in in the order of the records. [rejected] is set once a
    query has failed: [Promise.all] has then rejected and the function
    has gone on with the [gotUpdates] of that moment, while the
    callbacks still in flight write to their records all the same.
    [None]: an answer never comes, and the tick never ends. *)
Fixpoint pollRecords (refs : list nat) (st : Store) (gotUpdates rejected : bool)
  : option (Store * bool) :=
  match refs with
  | [] => Some (st, gotUpdates)
  | ref :: rest =>
      match heap st !! ref with
      | None => pollRecords rest st gotUpdates rejected
      | Some meta =>
          if bool_decide (status meta = submitted)
             && TransactionController.onCurrentNetwork env meta
          then
            let st1 :=
              mkStore (heap st) (published st) (publications st) (events st)
                (queries st ++ [eth_getTransactionByHash (transactionHash meta)]) in
            match onGetTransactionByHash (TransactionController.ethQuery env)
                    (transactionHash meta) with
            | Ok txObj =>
                if isIncluded txObj then
                  (* transactions[index].status = TransactionStatus.confirmed *)
                  let st2 :=
                    mkStore (<[ref := withStatus meta confirmed]> (heap st1))
                      (published st1) (publications st1)
                      (events st1 ++ [(id meta +:+ ":confirmed", ref)])
                      (queries st1) in
                  pollRecords rest st2 (gotUpdates || negb rejected) rejected
                else pollRecords rest st1 gotUpdates rejected
            | Throw _ => pollRecords rest st1 gotUpdates true
            | Pending => None
            end
          else pollRecords rest st gotUpdates rejected
      end
  end.

(** [this.update({ transactions: [...transactions] })]: a new array of
    the same objects. *)
Definition update (txs : list nat) (st : Store) : Store :=
  mkStore (heap st) txs (publications st ++ [txs]) (events st) (queries st).

Definition queryTransactionStatuses (st : Store) : option Store :=
  let transactions := published st in
  match pollRecords transactions st false false with
  | Some (st', gotUpdates) =>
      Some (if gotUpdates then update transactions st' else st')
  | None => None
  end.

End Poller.

Arguments pollRecords {TypedTransaction} env refs st gotUpdates rejected.
Arguments queryTransactionStatuses {TypedTransaction} env st.

End Poller.

(** ** Sample data: a wallet, a node and a few records *)
Module Sample.
Import TransactionController.

Definition wallet : string := "0xA1".
Definition other : string := "0xB2".

Definition draft (from : string) (to : option string) (nonce gasPrice : option string)
  : Transaction :=
  {| tx_chainId := None; tx_data := None; tx_from := from; tx_gas := Some "0x5208";
     tx_gasPrice := gasPrice; tx_nonce := nonce; tx_to := to; tx_value := Some "0x1";
     tx_amount := None; tx_payloadId := None; tx_gasLimit := None |}.

Definition record (id from : string) (nonce hash : option string)
    (status : TransactionStatus) : TransactionMeta :=
  {| isTokenTx := None; transferInformation := None; id := id;
     networkID := Some "1"; chainId := Some "1"; origin := None;
     rawTransaction := None; time := Some 1000;
     toSmartContract := Some false; fromSmartContract := Some false;
     transaction := draft from (Some other) nonce (Some "0xa");
     transactionHash := hash; blockNumber := None; deviceConfirmedOn := None;
     confirmations := None; amount := None; status := status;
     error := if bool_decide (status = failed)
              then Some (mkError "Transaction failed") else None |}.

(** A call to a contract, with no gas set. *)
Definition contractCall : Transaction :=
  {| tx_chainId := None; tx_data := Some "0xa9059cbb"; tx_from := wallet;
     tx_gas := None; tx_gasPrice := Some "0x1"; tx_nonce := None;
     tx_to := Some other; tx_value := None;
     tx_amount := None; tx_payloadId := None; tx_gasLimit := None |}.

(** Two local records that failed at broadcast (they have a nonce and no
    hash), and what the explorer reports for the same two nonces. *)
Definition local5 := record "l5" wallet (Some "0x5") None failed.
Definition local6 := record "l6" wallet (Some "0x6") None failed.
(** The second attempt at nonce 5, which went out. *)
Definition retry5 := record "l5b" wallet (Some "0x5") (Some "0xh5") submitted.
Definition remote5 := record "r5" wallet (Some "0x5") (Some "0xh5") confirmed.
Definition remote6 := record "r6" wallet (Some "0x6") (Some "0xh6") submitted.

(** A transfer of another account to the wallet, known locally under one
    hash and reported by the explorer under another. *)
Definition incomingLocal := record "i1" other (Some "0x1") (Some "0xh1") submitted.
Definition incomingRemote := record "i2" other (Some "0x1") (Some "0xh2") confirmed.

Definition entry (from confirmations isError : string) : EtherscanTransactionMeta :=
  {| es_blockNumber := "100"; es_timeStamp := "1600000000"; es_hash := "0xh";
     es_nonce := "7"; es_blockHash := "0xb"; es_transactionIndex := "0";
     es_from := from; es_to := other; es_value := "1"; es_gas := "21000";
     es_gasPrice := "10"; es_isError := isError; es_txreceipt_status := "1";
     es_input := "0x"; es_contractAddress := ""; es_cumulativeGasUsed := "21000";
     es_gasUsed := "21000"; es_confirmations := confirmations;
     es_tokenDecimal := "18"; es_tokenSymbol := "TKN" |}.

Definition uuid (options : option (option Z)) (drawn : nat) : string :=
  "uuid-" +:+ JS.hexOfNat (Z.of_nat drawn).

(** A node with a block gas limit and an estimate to answer with. The
    signer wraps what it signs; the signed transaction serialises to
    ["0xf8"] followed by the nonce. *)
Definition node (gasLimit gasHex : string) : EthQuery :=
  {| onGasPrice := Ok "0x3b9aca00";
     onGetBlockByNumber := Ok (mkBlock gasLimit);
     onGetCode := fun _ => Ok "0x6080";
     onEstimateGas := fun _ => Ok gasHex;
     onGetTransactionCount := fun _ => Ok "0x7";
     onSendRawTransaction := fun _ => Ok "0xsent";
     onGetTransactionByHash := fun _ => Ok (Some (mkTransactionObject (Some "0x10"))) |}.

Definition mainnet : NetworkState :=
  {| network := "1"; isCustomNetwork := false;
     provider := {| providerType := "mainnet"; providerChainId := Some "1" |} |}.

Definition environment (q : EthQuery)
    (signer : option (TxParams → string → Outcome TxParams)) : Env TxParams :=
  {| ethQuery := q;
     getNetworkState := mainnet;
     sign := signer;
     fromTxData := fun txParams => Ok txParams;
     serialize := fun signedTx => "0xf8" +:+ default "" (tx_nonce (params signedTx));
     random := uuid;
     dateNow := 1700000000000;
     Number := Normalize.NumberOfDigits;
     arraySort := fun txs => txs;
     normalizeTransaction := fun transaction => transaction;
     validateTransaction := fun _ => None;
     handleTransactionFetch := fun _ _ _ => Ok ([], []);
     isSmartContractCode := fun code => negb (bool_decide (code = "0x")) |}.

Definition signer : TxParams → string → Outcome TxParams := fun tx _ => Ok tx.

Definition controller (txs : list TransactionMeta) : Controller :=
  {| state := mkTransactionState txs [];
     disabled := false;
     internalListeners := ["ui"];
     delivered := [];
     hub := [];
     mutexLocked := false;
     calls := [];
     uuids := 0 |}.

(** A Store of one record object, at reference 0. *)
Definition store (meta : TransactionMeta) : Poller.Store :=
  Poller.mkStore {[ 0%nat := meta ]} [0%nat] [] [] [].

End Sample.

(** ** The rest of the two files *)

(** *** BaseController: the listeners

    [internalListeners] is an array of maps, and [subscribe] is the only
    place that makes one: a map of one key and one listener. A listener is
    a function, known here by its reference. *)
Module Listeners.

Definition ListenerMap : Type := list (string * nat).

(** The callbacks of the three [findIndex] calls: the loop over the map
    leaves the answer for its last entry. *)
Definition lastKeyIs (findForKey : string) (listenerMap : ListenerMap) : bool :=
  match last listenerMap with
  | Some (key, _) => bool_decide (key = findForKey)
  | None => false
  end.

Definition lastListenerIs (findForListener : nat) (listenerMap : ListenerMap) : bool :=
  match last listenerMap with
  | Some (_, listener) => bool_decide (listener = findForListener)
  | None => false
  end.

Definition subscribe (internalListeners : list ListenerMap)
    (findForKey : string) (listener : nat) : list ListenerMap :=
  match findIndex (lastKeyIs findForKey) internalListeners with
  | None => internalListeners ++ [[(findForKey, listener)]]
  | Some _ => internalListeners
  end.

(** [unsubscribe]: the array after [splice(index, 1)], and the answer
    [index > -1]. *)
Definition unsubscribe (internalListeners : list ListenerMap)
    (findForKey : string) : list ListenerMap * bool :=
  match findIndex (lastKeyIs findForKey) internalListeners with
  | Some index => (delete index internalListeners, true)
  | None => (internalListeners, false)
  end.

Definition unsubscribeByListener (internalListeners : list ListenerMap)
    (findForListener : nat) : list ListenerMap * bool :=
  match findIndex (lastListenerIs findForListener) internalListeners with
  | Some index => (delete index internalListeners, true)
  | None => (internalListeners, false)
  end.

(** [notify]: the listeners called, in order, each with the state. *)
Definition notify {S} (disabled : bool) (internalListeners : list ListenerMap)
    (internalState : S) : list (nat * S) :=
  if disabled then []
  else
    concat (List.map
              (fun listenerMap =>
                 List.map (fun entry : string * nat => (snd entry, internalState)) listenerMap)
              internalListeners).

(** Built by [subscribe] and the two [unsubscribe]s from the empty array. *)
Inductive Op :=
  | Subscribe (key : string) (listener : nat)
  | Unsubscribe (key : string)
  | UnsubscribeByListener (listener : nat).

Definition step (internalListeners : list ListenerMap) (op : Op) : list ListenerMap :=
  match op with
  | Subscribe key listener => subscribe internalListeners key listener
  | Unsubscribe key => fst (unsubscribe internalListeners key)
  | UnsubscribeByListener listener => fst (unsubscribeByListener internalListeners listener)
  end.

Definition keysOf (internalListeners : list ListenerMap) : list string :=
  concat (List.map (List.map fst) internalListeners).

Definition listenersOf (internalListeners : list ListenerMap) : list nat :=
  concat (List.map (List.map snd) internalListeners).

(** The array as [subscribe] and the two [unsubscribe]s keep it: every
    map holds one entry, and no key occurs twice. *)
Definition wellFormed (internalListeners : list ListenerMap) : Prop :=
  Forall (fun listenerMap => length listenerMap = 1%nat) internalListeners ∧
  NoDup (keysOf internalListeners).

End Listeners.

(** *** What an operation asks of the node *)

(** The calls that read from the node. *)
Definition readOnly (call : Call) : bool :=
  match call with
  | eth_sendRawTransaction _ => false
  | _ => true
  end.

(** An operation that does nothing but read from the node: it returns
    the controller as it was, with its queries added to the log. *)
Definition OnlyReads {A} (m : M A) : Prop :=
  ∀ c, ∃ r q, m c = (r, setCalls (calls c ++ q) c) ∧ forallb readOnly q = true.

(** *** Reconciliation: the first entry of every hash *)
Module Dedupe.

(** What [filter(duplicatedTxHash(remoteTxs))] keeps of a rest of the
    list, given the hashes of the entries before it. *)
Fixpoint firstOfHash (seen : list (option string)) (txs : list TransactionMeta)
  : list TransactionMeta :=
  match txs with
  | [] => []
  | tx :: rest =>
      if bool_decide (transactionHash tx ∈ seen) then firstOfHash seen rest
      else tx :: firstOfHash (seen ++ [transactionHash tx]) rest
  end.

End Dedupe.

(** *** TransactionController: method data and new transactions *)
Module Intake.
Import TransactionController.
Section Intake.

Variable TypedTransaction : Type.
Variable env : Env TypedTransaction.

(** [registryLookup]: the method registry is asked for the signature and
    parses it. A [MethodData] object is known by its [registryMethod]
    string, of which [parsedRegistryMethod] is the parse. *)
Variable registryLookup : string → Outcome string.

(** [JSON.stringify] on a record. *)
Variable stringify : TransactionMeta → string.

(** [{ ...methodData, ...{ [fourBytePrefix]: registry } }]: the value of a
    key that is there is replaced, a new key goes to the end. *)
Fixpoint assign (methodData : list (string * string)) (key value : string)
  : list (string * string) :=
  match methodData with
  | [] => [(key, value)]
  | (k, v) :: rest =>
      if bool_decide (k = key) then (k, value) :: rest
      else (k, v) :: assign rest key value
  end.

(** [methodData[fourBytePrefix]] *)
Definition valueOf (methodData : list (string * string)) (key : string) : option string :=
  snd <$> List.find (fun entry => bool_decide (fst entry = key)) methodData.

Definition handleMethodData (fourBytePrefix : string) : M (option string) :=
  acquire;;
  finally
    (s ← getState;
     let methodData := methodData s in
     let knownMethod :=
       List.find (fun knownFourBytePrefix => bool_decide (fourBytePrefix = knownFourBytePrefix))
         (List.map fst methodData) in
     if JS.truthy knownMethod then mret (valueOf methodData fourBytePrefix)
     else
       registry ← await (registryLookup fourBytePrefix);
       BaseController.update None (Some (assign methodData fourBytePrefix registry));;
       mret (Some registry))
    releaseLock.

Definition withGasAndGasPrice (t : Transaction) (gas gasPrice : string) : Transaction :=
  mkTransaction (tx_chainId t) (tx_data t) (tx_from t) (Some gas) (Some gasPrice)
    (tx_nonce t) (tx_to t) (tx_value t) (tx_amount t) (tx_payloadId t) (tx_gasLimit t).

(** The listener that [addTransaction] registers with [hub.once] for the
    finished event of the new record: how the promise [result] settles on
    the record the event carries. A [failed] record carries its error;
    were it missing, the listener itself would throw and the promise
    stay pending. *)
Definition settle (meta : TransactionMeta) : Outcome (option string) :=
  match status meta with
  | submitted => Ok (transactionHash meta)
  | rejected => Throw (mkError "User rejected the transaction")
  | cancelled => Throw (mkError "User cancelled the transaction")
  | failed =>
      match error meta with
      | Some e => Throw (mkError (message e))
      | None => Pending
      end
  | _ => Throw (mkError ("MetaMask Tx Signature: Unknown problem: " +:+ stringify meta))
  end.

(** The promise [result] of a record, given the events the hub has
    emitted since the listener was registered: the first finished event of
    the record settles it. *)
Definition resultOf (transactionID : string) (emitted : list (string * TransactionMeta))
  : Outcome (option string) :=
  match List.find (fun event => bool_decide (fst event = transactionID +:+ ":finished")) emitted with
  | Some (_, meta) => settle meta
  | None => Pending
  end.

(** [try { ... } catch (error) { ... }] around an awaited step, with the
    statements after it. *)
Definition tryCatch {A B} (step : M A) (next : A → M B) (handler : Error → M B) : M B :=
  fun c =>
    match step c with
    | (Ok a, c') => next a c'
    | (Throw e, c') => handler e c'
    | (Pending, c') => (Pending, c')
    end.

(** The number of events the hub has emitted. *)
Definition emittedSoFar : M nat := fun c => (Ok (length (hub c)), c).

(** [addTransaction]. The answer is the new record together with the
    number of events emitted before the listener of [result] was
    registered: [result] is [resultOf] on the events after them. The key
    [payloadId], which the source adds to the record outside its declared
    type, has no field here. *)
Definition addTransaction (transaction : Transaction) (origin : option string)
    (deviceConfirmedOn : option WalletDevice)
    (transferInformation : option TransferInformation) : M (TransactionMeta * nat) :=
  let network := network (getNetworkState env) in
  let provider := provider (getNetworkState env) in
  s ← getState;
  let tempTxs := transactions s in
  let normalTransaction := normalizeTransaction env transaction in
  match validateTransaction env normalTransaction with
  | Some e => throw e
  | None =>
      newId ← freshId env None;
      let transactionMeta :=
        {| id := newId;
           networkID := Some network;
           chainId := providerChainId provider;
           origin := origin;
           status := unapproved;
           time := Some (dateNow env);
           transaction := normalTransaction;
           deviceConfirmedOn := deviceConfirmedOn;
           transferInformation := transferInformation;
           isTokenTx := match transferInformation with Some _ => Some true | None => None end;
           toSmartContract :=
             match transferInformation with Some _ => Some false | None => None end;
           fromSmartContract :=
             match transferInformation with Some _ => Some false | None => None end;
           amount := match transferInformation with
                     | Some _ => tx_amount transaction
                     | None => None
                     end;
           rawTransaction := None; transactionHash := None; blockNumber := None;
           confirmations := None; error := None |} in
      tryCatch (estimateGas env normalTransaction)
        (fun estimate =>
           (* normalTransaction is the object the record holds *)
           let transactionMeta :=
             withTransaction transactionMeta
               (withGasAndGasPrice normalTransaction (fst estimate) (snd estimate)) in
           registered ← emittedSoFar;
           updateTransactions (tempTxs ++ [transactionMeta]);;
           emit "unapprovedTransaction" transactionMeta;;
           mret (transactionMeta, registered))
        (fun e => failTransaction env transactionMeta e;; throw e)
  end.

End Intake.

Arguments addTransaction {TypedTransaction} env transaction origin deviceConfirmedOn
  transferInformation _.

End Intake.

(** *** More sample data *)
Module Cases.
Import TransactionController.

(** A transfer of value with no gas set. *)
Definition transfer (to : option string) : Transaction :=
  {| tx_chainId := None; tx_data := None; tx_from := Sample.wallet;
     tx_gas := None; tx_gasPrice := Some "0xa"; tx_nonce := None;
     tx_to := to; tx_value := Some "0x1";
     tx_amount := None; tx_payloadId := None; tx_gasLimit := None |}.

(** A record that waits for approval: no nonce, no hash. *)
Definition unapprovedRecord : TransactionMeta :=
  Sample.record "u1" Sample.wallet None None unapproved.

(** A record that went out at a gas price of 511772684928469 wei. *)
Definition priced : TransactionMeta :=
  withTransaction (Sample.record "p1" Sample.wallet (Some "0x5") (Some "0xh5") submitted)
    (Sample.draft Sample.wallet (Some Sample.other) (Some "0x5") (Some "0x1d1745d1745d5")).

(** A node that cannot be reached. *)
Definition offline : EthQuery :=
  {| onGasPrice := Throw (mkError "offline");
     onGetBlockByNumber := Throw (mkError "offline");
     onGetCode := fun _ => Throw (mkError "offline");
     onEstimateGas := fun _ => Throw (mkError "offline");
     onGetTransactionCount := fun _ => Throw (mkError "offline");
     onSendRawTransaction := fun _ => Throw (mkError "offline");
     onGetTransactionByHash := fun _ => Throw (mkError "offline") |}.

(** A network added by the user. *)
Definition custom : NetworkState :=
  {| network := "1337"; isCustomNetwork := true;
     provider := {| providerType := "rpc"; providerChainId := Some "1337" |} |}.

(** The sample environment on another network, with another explorer. *)
Definition environment (networkState : NetworkState) (q : EthQuery)
    (signer : option (TxParams → string → Outcome TxParams))
    (explorer : Outcome (list EtherscanTransactionMeta * list EtherscanTransactionMeta))
  : Env TxParams :=
  {| ethQuery := q;
     getNetworkState := networkState;
     sign := signer;
     fromTxData := fromTxData (Sample.environment q signer);
     serialize := serialize (Sample.environment q signer);
     random := Sample.uuid;
     dateNow := dateNow (Sample.environment q signer);
     Number := Normalize.NumberOfDigits;
     arraySort := fun txs => txs;
     normalizeTransaction := fun transaction => transaction;
     validateTransaction := fun _ => None;
     handleTransactionFetch := fun _ _ _ => explorer;
     isSmartContractCode := isSmartContractCode (Sample.environment q signer) |}.

End Cases.

(** * Properties *)

(** ** bn.js on numbers of one word *)
Module BNFacts.

Lemma mask_ones : BN.mask = Z.ones 26.
Proof. reflexivity. Qed.

Lemma land_mask_small x : 0 ≤ x < BN.base → Z.land x BN.mask = x.
Proof.
  intros Hx. rewrite mask_ones, Z.land_ones by lia.
  apply Z.mod_small. exact Hx.
Qed.

Lemma land_mask_mod x : Z.land x BN.mask = x mod BN.base.
Proof. rewrite mask_ones, Z.land_ones by lia. reflexivity. Qed.

Lemma shiftr_word x : Z.shiftr x BN.wordSize = x / BN.base.
Proof. unfold BN.wordSize. rewrite Z.shiftr_div_pow2 by lia. reflexivity. Qed.

Lemma ofZ_small x : 0 ≤ x < BN.base → BN.ofZ x = BN.mk [x].
Proof.
  intros Hx. unfold BN.ofZ.
  destruct (Z.to_nat (Z.log2 x)); simpl; [done|].
  destruct (Z.ltb_spec x BN.base); [done | lia].
Qed.

Lemma valueOf_wordsOfFuel fuel : ∀ n, BN.valueOf (BN.wordsOfFuel fuel n) = n.
Proof.
  induction fuel as [|fuel IH]; intros n; simpl; [lia|].
  destruct (n <? BN.base); simpl; [lia|].
  rewrite IH. pose proof (Z.div_mod n BN.base). unfold BN.base in *. lia.
Qed.

Lemma toZ_ofZ n : BN.toZ (BN.ofZ n) = n.
Proof. apply valueOf_wordsOfFuel. Qed.

(** [ofZ] is stripped: every word fits its 26 bits. *)
Lemma wordsOfFuel_bounded fuel : ∀ n,
  0 ≤ n < 2 ^ (26 * (Z.of_nat fuel + 1)) →
  Forall (fun w => 0 ≤ w < BN.base) (BN.wordsOfFuel fuel n).
Proof.
  induction fuel as [|fuel IH]; intros n Hn; simpl.
  - repeat constructor; try lia. simpl in Hn. unfold BN.base. lia.
  - destruct (Z.ltb_spec n BN.base) as [Hlt|Hge].
    + repeat constructor; lia.
    + constructor.
      * apply Z.mod_pos_bound. unfold BN.base. lia.
      * apply IH. split; [apply Z.div_pos; unfold BN.base; lia|].
        apply Z.div_lt_upper_bound; [unfold BN.base; lia|].
        replace BN.base with (2 ^ 26) by reflexivity.
        rewrite <- Z.pow_add_r by lia.
        replace (26 + 26 * (Z.of_nat fuel + 1)) with (26 * (Z.of_nat (S fuel) + 1)) by lia.
        lia.
Qed.

Lemma ofZ_bounded n :
  0 ≤ n → Forall (fun w => 0 ≤ w < BN.base) (BN.words (BN.ofZ n)).
Proof.
  intros Hn. unfold BN.ofZ. simpl. apply wordsOfFuel_bounded.
  split; [done|].
  destruct (Z.eq_dec n 0) as [->|Hnz]; [simpl; lia|].
  pose proof (Z.log2_spec n ltac:(lia)) as [_ Hlog].
  pose proof (Z.log2_nonneg n).
  rewrite Z2Nat.id by done.
  eapply Z.lt_le_trans; [exact Hlog|].
  apply Z.pow_le_mono_r; lia.
Qed.

Lemma toZ_ofZ_small x : 0 ≤ x < BN.base → BN.toZ (BN.ofZ x) = x.
Proof. intros Hx. rewrite ofZ_small by done. unfold BN.toZ. simpl. lia. Qed.

(** Nine tenths of a one-word number: the floor of the exact product. *)
Lemma muln_9_10_small x :
  0 ≤ x < BN.base → BN.muln (BN.mk [x]) 9 10 = BN.mk [x * 9 / 10].
Proof.
  intros Hx. unfold BN.muln. simpl.
  assert (Hq : 0 ≤ x * 9 / 10 < BN.base).
  { split; [apply Z.div_pos; lia|].
    apply Z.div_lt_upper_bound; unfold BN.base in *; lia. }
  rewrite (land_mask_small (x * 9 / 10)) by done.
  replace (Z.land 0 BN.mask) with 0 by reflexivity.
  rewrite Z.add_0_r, (land_mask_small (x * 9 / 10)) by done.
  rewrite !shiftr_word.
  replace (x * 9 / (10 * BN.base)) with 0.
  2:{ symmetry. apply Z.div_small. unfold BN.base in *. lia. }
  rewrite (Z.div_small (x * 9 / 10)) by done.
  reflexivity.
Qed.

(** One and a half times a one-word number: again the floor of the exact
    product, on one word or on two. *)
Lemma muln_3_2_small x :
  0 ≤ x < BN.base →
  BN.muln (BN.mk [x]) 3 2 =
    BN.mk (if x * 3 / 2 <? BN.base then [x * 3 / 2]
           else [x * 3 / 2 - BN.base; 1]).
Proof.
  intros Hx. unfold BN.muln. simpl.
  replace (Z.land 0 BN.mask) with 0 by reflexivity.
  rewrite Z.add_0_r, !land_mask_mod, !shiftr_word.
  rewrite Z.mod_mod by (unfold BN.base; lia).
  rewrite (Z.div_small (x * 3 / 2 mod BN.base))
    by (apply Z.mod_pos_bound; unfold BN.base; lia).
  replace (x * 3 / (2 * BN.base)) with (x * 3 / 2 / BN.base)
    by (rewrite Z.div_div by (unfold BN.base; lia); reflexivity).
  assert (Hq : 0 ≤ x * 3 / 2 < 2 * BN.base).
  { split; [apply Z.div_pos; lia|].
    apply Z.div_lt_upper_bound; unfold BN.base in *; lia. }
  destruct (Z.ltb_spec (x * 3 / 2) BN.base) as [Hlt|Hge].
  - rewrite (Z.div_small (x * 3 / 2)), (Z.mod_small (x * 3 / 2)) by lia.
    reflexivity.
  - assert (Hd : x * 3 / 2 / BN.base = 1).
    { symmetry. apply (Z.div_unique _ _ 1 (x * 3 / 2 - BN.base)); lia. }
    assert (Hm : (x * 3 / 2) mod BN.base = x * 3 / 2 - BN.base).
    { symmetry. apply (Z.mod_unique _ _ 1); lia. }
    rewrite Hd, Hm. reflexivity.
Qed.

Lemma gt_one_word x y : BN.gt (BN.mk [x]) (BN.mk [y]) = (y <? x).
Proof.
  unfold BN.gt, BN.ucmp. simpl.
  destruct (Z.eqb_spec x y), (Z.ltb_spec x y), (Z.ltb_spec y x); try done; lia.
Qed.

Lemma lt_one_word x y : BN.lt (BN.mk [x]) (BN.mk [y]) = (x <? y).
Proof.
  unfold BN.lt, BN.ucmp. simpl.
  destruct (Z.eqb_spec x y), (Z.ltb_spec x y); try done; lia.
Qed.

Lemma lt_two_words_one x h y : BN.lt (BN.mk [x; h]) (BN.mk [y]) = false.
Proof. reflexivity. Qed.

Lemma digitsAll_nonneg s : ∀ acc, 0 ≤ acc → ∀ radix n,
  JS.digitsAll radix s acc = Some n → 0 < radix → 0 ≤ n.
Proof.
  induction s as [|ch s IH]; simpl; intros acc Hacc radix n Hn Hr.
  - simplify_eq. lia.
  - destruct (JS.digitIn radix ch) as [d|] eqn:Hd; [|done].
    eapply (IH (acc * radix + d)); [| exact Hn | exact Hr].
    assert (0 ≤ d).
    { unfold JS.digitIn, JS.digitValue in Hd.
      repeat case_match; simplify_eq; lia. }
    assert (0 ≤ acc * radix) by (apply Z.mul_nonneg_nonneg; lia).
    lia.
Qed.

(** What [hexToBN] returns is the stripped number of a value that is not
    negative. *)
Lemma hexToBN_value s bn :
  hexToBN s = Some bn → ∃ n, 0 ≤ n ∧ bn = BN.ofZ n.
Proof.
  unfold hexToBN, BN.ofHex. intros H.
  destruct (JS.digitsAll 16 (stripHexPrefix s) 0) as [n|] eqn:Hn; [|done].
  simpl in H. inversion H. exists n. split; [|done].
  eapply digitsAll_nonneg; [| exact Hn |]; lia.
Qed.

End BNFacts.

(** ** Gas estimator *)
Module GasEstimatorFacts.
Import TransactionController.

Ltac run :=
unfold mbind, M_bind, bind, mret, M_ret, ret, throw, query; simpl.

Section Facts.
Variable TypedTransaction : Type.
Variable env : Env TypedTransaction.

(** C8. A draft that carries [gas] gets that very value back. The gas
    price is the one of the draft; only when the draft has none is the
    node asked for it, and that is then the single query issued: the
    block and the code of the recipient are never requested. *)
Theorem estimateGas_preset_gas (transaction : Transaction) (gas : string) (c : Controller) :
  tx_gas transaction = Some gas →
  match tx_gasPrice transaction with
  | Some gasPrice => estimateGas env transaction c = (Ok (gas, gasPrice), c)
  | None =>
      estimateGas env transaction c =
        (match onGasPrice (ethQuery env) with
         | Ok gasPrice => Ok (gas, gasPrice)
         | Throw e => Throw e
         | Pending => Pending
         end,
         setCalls (calls c ++ [eth_gasPrice]) c)
  end.
Proof.
  intros Hgas. unfold estimateGas. rewrite Hgas.
  destruct (tx_gasPrice transaction) as [p|]; run; [done|].
  by destruct (onGasPrice (ethQuery env)).
Qed.

(** As long as the block gas limit and the node's estimate fit one word
    of [bn.js] (they are below [2^26 = 67108864]), the estimation branch
    does what the policy says, on exact integers: the node is asked
    with 95% of the limit as working gas, and the answer is the raw
    estimate when it exceeds 90% of the limit or the network is custom,
    else one and a half times the estimate when that is below 90% of the
    limit, else 90% of the limit. *)
Lemma estimateGas_padding_one_word
    (transaction : Transaction) (c : Controller) (gasPrice to code limitHex gasHex : string)
    (limit estimate : Z) :
  tx_gas transaction = None →
  tx_gasPrice transaction = Some gasPrice →
  tx_to transaction = Some to → to ≠ "" →
  onGetBlockByNumber (ethQuery env) = Ok (mkBlock limitHex) →
  onGetCode (ethQuery env) to = Ok code →
  intrinsicGasOnly (isCustomNetwork (getNetworkState env))
    (Some to) (tx_data transaction) (Some code) = false →
  hexToBN limitHex = Some (BN.ofZ limit) → 0 ≤ limit < BN.base →
  (∀ working, tx_gas working = Some (BNToHex (BN.ofZ (limit * 19 / 20))) →
              onEstimateGas (ethQuery env) working = Ok gasHex) →
  hexToBN gasHex = Some (BN.ofZ estimate) → 0 ≤ estimate < BN.base →
  ∃ working,
    tx_gas working = Some (BNToHex (BN.ofZ (limit * 19 / 20))) ∧
    estimateGas env transaction c =
      (Ok (paddedGas (isCustomNetwork (getNetworkState env)) gasHex limit estimate, gasPrice),
       setCalls (calls c ++ [eth_getBlockByNumber "latest" false; eth_getCode to;
                             eth_estimateGas working]) c).
Proof.
  intros Hgas Hprice Hto Hne Hblock Hcode Hbranch Hlimit Hl Hest Hgashex He.
  unfold estimateGas. rewrite Hgas, Hprice, Hto.
  destruct to as [|ch to']; [done|].
  run. rewrite Hblock. simpl. rewrite Hcode. simpl.
  rewrite Hbranch. unfold hexToBN'. rewrite Hlimit. run.
  assert (Hfrac : fractionBN (BN.ofZ limit) 19 20 = BN.ofZ (limit * 19 / 20)).
  { unfold fractionBN, BN.mul, BN.div. by rewrite !BNFacts.toZ_ofZ. }
  rewrite Hfrac.
  match goal with
  | |- context [onEstimateGas _ ?w] => exists w; split; [done|]; rewrite (Hest w) by done
  end.
  simpl. rewrite Hgashex. run.
  rewrite !BNFacts.ofZ_small by done.
  rewrite BNFacts.muln_9_10_small, BNFacts.muln_3_2_small by done.
  rewrite BNFacts.gt_one_word. unfold paddedGas, setCalls. simpl.
  rewrite <- !app_assoc. simpl.
  destruct ((limit * 9 / 10 <? estimate) || isCustomNetwork (getNetworkState env));
    [done|].
  destruct (Z.ltb_spec (estimate * 3 / 2) BN.base) as [Hs|Hb].
  - rewrite BNFacts.lt_one_word.
    assert (Hp : 0 ≤ estimate * 3 / 2) by (apply Z.div_pos; lia).
    assert (Hm : 0 ≤ limit * 9 / 10 < BN.base).
    { split; [apply Z.div_pos; lia|].
      apply Z.div_lt_upper_bound; unfold BN.base in *; lia. }
    destruct (estimate * 3 / 2 <? limit * 9 / 10).
    + by rewrite (BNFacts.ofZ_small (estimate * 3 / 2)) by lia.
    + by rewrite (BNFacts.ofZ_small (limit * 9 / 10)) by lia.
  - rewrite BNFacts.lt_two_words_one.
    assert (Hm : 0 ≤ limit * 9 / 10 < BN.base).
    { split; [apply Z.div_pos; lia|].
      apply Z.div_lt_upper_bound; unfold BN.base in *; lia. }
    destruct (Z.ltb_spec (estimate * 3 / 2) (limit * 9 / 10)); [lia|].
    by rewrite (BNFacts.ofZ_small (limit * 9 / 10)) by lia.
Qed.

End Facts.

Lemma estimateGas_preset_gas_witness :
  estimateGas (Sample.environment (Sample.node "0x1c9c380" "0x5208") None)
    (Sample.draft Sample.wallet (Some Sample.other) None None) (Sample.controller [])
  = (Ok ("0x5208", "0x3b9aca00"),
     setCalls [eth_gasPrice] (Sample.controller [])).
Proof.
  apply (estimateGas_preset_gas _
           (Sample.environment (Sample.node "0x1c9c380" "0x5208") None)
           (Sample.draft Sample.wallet (Some Sample.other) None None) "0x5208"
           (Sample.controller [])).
  reflexivity.
Defined.

(** C4, where the code departs from it. With a block gas limit of
    [0x8000000] (two words of [bn.js]) and an estimate of [0x3938700],
    one and a half times the estimate, [0x55d4a80], is below nine tenths
    of the limit, [0x7333333], and is what the policy returns;
    [muln(0.9)] makes [0x4000000] of the limit, and the estimator
    returns that. The working gas sent with the estimate request is 95%
    of the limit, [0x7999999]. *)
Theorem estimateGas_two_word_limit :
  fst (estimateGas (Sample.environment (Sample.node "0x8000000" "0x3938700") None)
         Sample.contractCall (Sample.controller []))
    = Ok ("0x4000000", "0x1") ∧
  paddedGas false "0x3938700" 134217728 60000000 = "0x55d4a80" ∧
  hexToBN "0x8000000" = Some (BN.ofZ 134217728) ∧
  hexToBN "0x3938700" = Some (BN.ofZ 60000000) ∧
  BNToHex (BN.ofZ (134217728 * 9 / 10)) = "0x7333333" ∧
  BNToHex (BN.muln (BN.ofZ 134217728) 9 10) = "0x4000000".
Proof. repeat split; reflexivity. Qed.

(** The same call on a limit and an estimate of one word each. *)
Lemma estimateGas_padding_one_word_witness :
  ∃ working,
    tx_gas working = Some "0x1b2e020" ∧
    estimateGas (Sample.environment (Sample.node "0x1c9c380" "0x186a0") None)
      Sample.contractCall (Sample.controller [])
    = (Ok ("0x249f0", "0x1"),
       setCalls [eth_getBlockByNumber "latest" false; eth_getCode Sample.other;
                 eth_estimateGas working] (Sample.controller [])).
Proof.
  apply (estimateGas_padding_one_word _
           (Sample.environment (Sample.node "0x1c9c380" "0x186a0") None)
           Sample.contractCall (Sample.controller []) "0x1" Sample.other "0x6080"
           "0x1c9c380" "0x186a0" 30000000 100000);
    try reflexivity; try done.
Defined.

End GasEstimatorFacts.

(** ** Normalisation of the remote history *)
Module NormalizeFacts.
Import Normalize.

Lemma digitsAll_plain s : ∀ acc n,
  JS.digitsAll 10 s acc = Some n →
  withoutWhiteSpace s = s ∧ match s with String "-" _ => False | _ => True end.
Proof.
  induction s as [|c s IH]; intros acc n; [done|]. cbn [JS.digitsAll withoutWhiteSpace].
  destruct (JS.digitIn 10 c) as [d|] eqn:Hd; [|done]. intros Hn.
  destruct (IH _ _ Hn) as [-> _].
  assert (JS.isWhiteSpace c = false ∧ c ≠ "-"%char) as [-> Hminus].
  { revert Hd. clear. destruct c as [[] [] [] [] [] [] [] []]; by vm_compute. }
  split; [done|]. destruct c as [[] [] [] [] [] [] [] []]; done.
Qed.

Lemma decimalToHex_ok s : isDecimal s → ∃ h, decimalToHex s = Ok h.
Proof.
  intros [n Hn]. unfold decimalToHex. destruct s as [|c s]; [eauto|].
  destruct (digitsAll_plain _ _ _ Hn) as [-> Hplain].
  assert (match String c s with String "-" r => r | _ => String c s end = String c s)
    as -> by (by destruct c as [[] [] [] [] [] [] [] []]).
  rewrite Hn. eauto.
Qed.

Lemma numberGe_not_lt n q : numberGe n q = true → numberLt n q = false.
Proof. destruct n; simpl; try done. by destruct (Qlt_le_dec _ _). Qed.

Section Status.
Variable Number : string → JSNumber.
Variable random : option Z → string.

Lemma tempStatus_rule txMeta address m :
  status m = tempStatus Number txMeta address →
  statusByConfirmations Number txMeta address m.
Proof.
  unfold statusByConfirmations, tempStatus, isSender. intros ->.
  repeat split.
  - intros Hge. by rewrite (numberGe_not_lt _ _ Hge).
  - intros -> Hs. by rewrite bool_decide_eq_true_2.
  - intros -> Hs. by rewrite bool_decide_eq_false_2.
Qed.

Lemma tempStatus_not_failed txMeta address : tempStatus Number txMeta address ≠ failed.
Proof. unfold tempStatus. repeat case_match; done. Qed.

(** C7, as the code has it. An entry of the native list whose numeric
    fields are decimal is normalised to a record that is [failed], with
    an error attached, when the entry is flagged as errored ([isError]
    is not ['0']); otherwise it carries no error and is [confirmed] for
    two confirmations or more, and below that [submitted] when the wallet
    is the sender and [receiving] when it is not. An entry of the token
    list with a decimal nonce follows the same rule by confirmations and
    sender whatever its error flag: it never comes out [failed] and
    never carries an error. *)
Theorem normalize_status (txMeta : EtherscanTransactionMeta)
    (currentNetworkID : string) (currentChainId : option string) (address : string) :
  isDecimal (es_nonce txMeta) →
  (isDecimal (es_gas txMeta) → isDecimal (es_gasPrice txMeta) →
   isDecimal (es_value txMeta) →
   ∃ m, normalizeTx Number random txMeta currentNetworkID currentChainId address = Ok m ∧
        (es_isError txMeta ≠ "0" →
           status m = failed ∧ error m = Some (mkError "Transaction failed")) ∧
        (es_isError txMeta = "0" →
           error m = None ∧ statusByConfirmations Number txMeta address m)) ∧
  (∃ m, normalizeTokenTx Number random txMeta currentNetworkID currentChainId address = Ok m ∧
        error m = None ∧ status m ≠ failed ∧
        statusByConfirmations Number txMeta address m).
Proof.
  intros Hnonce. split.
  - intros Hgas Hprice Hvalue.
    destruct (decimalToHex_ok _ Hnonce) as [n Hn].
    destruct (decimalToHex_ok _ Hgas) as [g Hg].
    destruct (decimalToHex_ok _ Hprice) as [p Hp].
    destruct (decimalToHex_ok _ Hvalue) as [v Hv].
    unfold normalizeTx. rewrite Hg, Hp, Hn, Hv.
    case_bool_decide as Herr; eexists; (split; [reflexivity|]); split; try done.
    intros _. split; [done|]. by apply tempStatus_rule.
  - destruct (decimalToHex_ok _ Hnonce) as [n Hn].
    unfold normalizeTokenTx. rewrite Hn.
    eexists; split; [reflexivity|]. split; [done|]. split.
    + apply tempStatus_not_failed.
    + by apply tempStatus_rule.
Qed.

End Status.

(** C7, as the claim states it, fails on the token list: an entry
    flagged as errored, with twelve confirmations, is normalised to a
    [confirmed] record without error. *)
Lemma token_entry_flagged_not_failed :
  ∃ m, normalizeTokenTx NumberOfDigits (fun msecs => Sample.uuid (Some msecs) 0)
         (Sample.entry Sample.wallet "12" "1") "1" (Some "1") Sample.wallet = Ok m
       ∧ es_isError (Sample.entry Sample.wallet "12" "1") = "1"
       ∧ status m = confirmed ∧ error m = None.
Proof. eexists. repeat split; reflexivity. Qed.

Lemma normalize_status_witness :
  ∃ m, normalizeTx NumberOfDigits (fun msecs => Sample.uuid (Some msecs) 0)
         (Sample.entry Sample.wallet "1" "0") "1" (Some "1") Sample.wallet = Ok m
       ∧ status m = submitted.
Proof.
  destruct (normalize_status NumberOfDigits (fun msecs => Sample.uuid (Some msecs) 0)
              (Sample.entry Sample.wallet "1" "0") "1" (Some "1") Sample.wallet)
    as [Hnative _].
  { vm_compute. eauto. }
  destruct Hnative as (m & Hm & _ & Hok); [vm_compute; eauto ..|].
  exists m. split; [exact Hm|].
  destruct (Hok eq_refl) as (_ & _ & Hsub & _).
  apply Hsub; reflexivity.
Defined.

End NormalizeFacts.

(** ** Reconciliation *)
Module ReconcileFacts.
Import Reconcile.

Lemma strictEq_true a b : JS.strictEq a b = true ↔ a = b.
Proof. unfold JS.strictEq. apply bool_decide_eq_true. Qed.

Lemma strictEq_refl a : JS.strictEq a a = true.
Proof. by apply strictEq_true. Qed.

Lemma fromWallet_true address tx : fromWallet address tx = true ↔ sentBy address tx.
Proof. unfold fromWallet, sentBy. apply bool_decide_eq_true. Qed.

(** C2, as the code has it. A remote entry matches a local entry exactly
    when both were sent from the queried wallet address (letter case
    apart) and carry the same nonce, or, when they were not both sent
    from that address, when their transaction hashes are equal. *)
Theorem matchesLocal_iff (address : string) (remoteTx localTx : TransactionMeta) :
  matchesLocal address remoteTx localTx = true ↔
    (sentBy address localTx ∧ sentBy address remoteTx ∧
     tx_nonce (transaction localTx) = tx_nonce (transaction remoteTx))
    ∨ (¬ (sentBy address localTx ∧ sentBy address remoteTx) ∧
       transactionHash localTx = transactionHash remoteTx).
Proof.
  unfold matchesLocal.
  destruct (fromWallet address localTx) eqn:Hl, (fromWallet address remoteTx) eqn:Hr;
    simpl; rewrite strictEq_true;
    rewrite <- ?fromWallet_true, ?Hl, ?Hr; split; intros H.
  all: try (destruct H as [(_ & _ & H)|[Hn H]]; [done|]).
  all: try (destruct H as [(? & ? & H)|[Hn H]]; [done|exact H]).
  all: try (right; split; [intros [? ?]; done | exact H]).
  - left. done.
  - exfalso. apply Hn. done.
Qed.

(** C2, as the claim states it, fails: a transfer of another account,
    known locally under one hash and reported under another, shares
    sender and nonce with its remote entry, and the merge does not match
    the two. *)
Lemma spec_matching_differs :
  matchesLocal Sample.wallet Sample.incomingRemote Sample.incomingLocal = false ∧
  SpecMatches Sample.incomingRemote Sample.incomingLocal = true.
Proof. split; reflexivity. Qed.

Lemma filterForRemoteTx_spec address localTxs remoteTxs : ∀ removed,
  filterForRemoteTx localTxs address removed remoteTxs =
    (List.filter (keepsRemote address localTxs) remoteTxs,
     removed ++ omap (removedFor address localTxs) remoteTxs).
Proof.
  induction remoteTxs as [|remoteTx rest IH]; intros removed; simpl.
  - by rewrite app_nil_r.
  - unfold keepsRemote, removedFor.
    destruct (alreadyInLocalTx address localTxs remoteTx) as [localTx|].
    + destruct (supersedes localTx remoteTx).
      * rewrite IH. by rewrite <- app_assoc.
      * by rewrite IH.
    + by rewrite IH.
Qed.

Lemma merge_spec address localTxs remoteTxs :
  merge address localTxs remoteTxs =
    mkMerge
      (List.filter
         (filterForLocalTx (omap (removedFor address localTxs) remoteTxs)) localTxs)
      (List.filter (keepsRemote address localTxs) remoteTxs)
      (omap (removedFor address localTxs) remoteTxs).
Proof. unfold merge. by rewrite filterForRemoteTx_spec. Qed.

Lemma filterForLocalTx_false (removed : list TransactionMeta) localTx :
  filterForLocalTx removed localTx = false ↔
  ∃ localTx', localTx' ∈ removed ∧ transactionHash localTx' = transactionHash localTx.
Proof.
  unfold filterForLocalTx. rewrite negb_false_iff, existsb_exists.
  split; intros (x & Hx & Heq); exists x.
  - by rewrite list_elem_of_In, <- strictEq_true.
  - by rewrite <- list_elem_of_In, strictEq_true.
Qed.

Lemma removed_iff address localTxs (remoteTxs : list TransactionMeta) localTx :
  localTx ∈ omap (removedFor address localTxs) remoteTxs ↔
  ∃ remoteTx, remoteTx ∈ remoteTxs ∧
    alreadyInLocalTx address localTxs remoteTx = Some localTx ∧
    supersedes localTx remoteTx = true.
Proof.
  rewrite list_elem_of_omap. unfold removedFor.
  split; intros (remoteTx & Hin & H); exists remoteTx; (split; [done|]).
  - destruct (alreadyInLocalTx address localTxs remoteTx) as [l|]; [|done].
    destruct (supersedes l remoteTx) eqn:Hs; by simplify_eq.
  - destruct H as [-> ->]. done.
Qed.

Lemma alreadyInLocalTx_some address (localTxs : list TransactionMeta) remoteTx localTx :
  alreadyInLocalTx address localTxs remoteTx = Some localTx →
  localTx ∈ localTxs ∧ matchesLocal address remoteTx localTx = true.
Proof.
  unfold alreadyInLocalTx. intros H. apply find_some in H.
  by rewrite list_elem_of_In.
Qed.

(** An entry matches itself: its own nonce, or its own hash. *)
Lemma matchesLocal_self address tx : matchesLocal address tx tx = true.
Proof. unfold matchesLocal. destruct (_ && _); apply strictEq_refl. Qed.

Lemma alreadyInLocalTx_self address (localTxs : list TransactionMeta) localTx :
  localTx ∈ localTxs → is_Some (alreadyInLocalTx address localTxs localTx).
Proof.
  intros Hin. unfold alreadyInLocalTx.
  destruct (List.find _ _) eqn:Hf; [eauto|].
  apply list_elem_of_In in Hin.
  pose proof (find_none _ _ Hf _ Hin) as Hn.
  by rewrite matchesLocal_self in Hn.
Qed.

(** A local entry stays exactly when no local entry removed on account
    of a confirmed remote entry has its transaction hash, present or
    absent. *)
Lemma local_stays_iff (address : string)
    (localTxs remoteTxs : list TransactionMeta) (localTx : TransactionMeta) :
  localTx ∈ localTxs →
  (localTx ∈ localTxs' (merge address localTxs remoteTxs) ↔
   ¬ (∃ remoteTx' localTx',
        remoteTx' ∈ remoteTxs ∧
        alreadyInLocalTx address localTxs remoteTx' = Some localTx' ∧
        supersedes localTx' remoteTx' = true ∧
        transactionHash localTx' = transactionHash localTx)).
Proof.
  intros Hlocal. rewrite merge_spec. simpl.
  rewrite list_elem_of_In, filter_In, <- list_elem_of_In.
  split.
  - intros [_ Hkeep] (remoteTx' & localTx' & Hin' & Hfind' & Hsup' & Hhash).
    assert (filterForLocalTx (omap (removedFor address localTxs) remoteTxs) localTx
            = false) as Hf; [|by rewrite Hf in Hkeep].
    apply filterForLocalTx_false. exists localTx'. split; [|done].
    apply removed_iff. eauto.
  - intros Hno. split; [done|].
    destruct (filterForLocalTx _ localTx) eqn:Hf; [done|].
    exfalso. apply Hno.
    apply filterForLocalTx_false in Hf as (localTx' & Hrem & Hhash).
    apply removed_iff in Hrem as (remoteTx' & ? & ? & ?).
    eauto 10.
Qed.

(** The rule of a pass, as the code has it. A remote entry is compared
    with the first local entry it matches. When that local entry is not confirmed and
    the remote entry is, the remote entry is added and the local entry
    is not in the merged result. In every other matched case the remote
    entry is not added, and the local entry stays, provided that no
    local entry removed on account of a confirmed remote entry carries
    its transaction hash. A remote entry that matches no local entry is
    added. *)
Lemma merge_precedence (address : string)
    (localTxs remoteTxs : list TransactionMeta) (remoteTx : TransactionMeta) :
  remoteTx ∈ remoteTxs →
  match alreadyInLocalTx address localTxs remoteTx with
  | Some localTx =>
      if supersedes localTx remoteTx then
        (remoteTx ∈ remoteTxsForAdd (merge address localTxs remoteTxs) ∧
         localTx ∉ merged (merge address localTxs remoteTxs))
      else
        ((remoteTx ∉ remoteTxsForAdd (merge address localTxs remoteTxs)) ∧
         ((∀ remoteTx' localTx',
             remoteTx' ∈ remoteTxs →
             alreadyInLocalTx address localTxs remoteTx' = Some localTx' →
             supersedes localTx' remoteTx' = true →
             transactionHash localTx' ≠ transactionHash localTx) →
          localTx ∈ merged (merge address localTxs remoteTxs)))
  | None => remoteTx ∈ remoteTxsForAdd (merge address localTxs remoteTxs)
  end.
Proof.
  intros Hin.
  destruct (alreadyInLocalTx address localTxs remoteTx) as [localTx|] eqn:Hfind.
  - destruct (alreadyInLocalTx_some _ _ _ _ Hfind) as [Hlocal _].
    destruct (supersedes localTx remoteTx) eqn:Hsup.
    + rewrite merge_spec. unfold merged. simpl. split.
      * apply list_elem_of_In, filter_In. split; [by apply list_elem_of_In|].
        unfold keepsRemote. by rewrite Hfind.
      * rewrite elem_of_app. intros [Hkept|Hadd].
        -- apply list_elem_of_In, filter_In in Hkept as [_ Hkept].
           assert (filterForLocalTx (omap (removedFor address localTxs) remoteTxs) localTx
                   = false) as Hf; [|by rewrite Hf in Hkept].
           apply filterForLocalTx_false. exists localTx. split; [|done].
           apply removed_iff. eauto.
        -- apply list_elem_of_In, filter_In in Hadd as [_ Hadd].
           unfold keepsRemote in Hadd.
           destruct (alreadyInLocalTx_self address _ _ Hlocal) as [l0 Hl0].
           rewrite Hl0 in Hadd.
           unfold supersedes in Hsup, Hadd.
           apply andb_true_iff in Hsup as [Hsup _], Hadd as [_ Hadd].
           apply bool_decide_eq_true in Hsup, Hadd. done.
    + split.
      * rewrite merge_spec. simpl.
        intros Hadd. apply list_elem_of_In, filter_In in Hadd as [_ Hadd].
        unfold keepsRemote in Hadd. rewrite Hfind in Hadd. congruence.
      * intros Hno. unfold merged. apply elem_of_app. left.
        apply local_stays_iff; [done|].
        intros (remoteTx' & localTx' & ? & ? & ? & ?). by eapply Hno.
  - rewrite merge_spec. simpl.
    apply list_elem_of_In, filter_In. split; [by apply list_elem_of_In|].
    unfold keepsRemote. by rewrite Hfind.
Qed.

(** The rule of the claim fails twice on one Store. [remote5] is
    confirmed and matches [retry5], which is not: [retry5] should go, and
    it stays, because [remote5] was compared with [local5], the first
    entry it matches. [remote6] matches [local6] and does not supersede
    it: [local6] should stay, and it goes, because it has no hash, like
    [local5], which was removed. *)
Lemma matched_local_not_treated_as_stated :
  matchesLocal Sample.wallet Sample.remote5 Sample.retry5 = true ∧
  supersedes Sample.retry5 Sample.remote5 = true ∧
  alreadyInLocalTx Sample.wallet [Sample.local5; Sample.retry5; Sample.local6]
    Sample.remote6 = Some Sample.local6 ∧
  supersedes Sample.local6 Sample.remote6 = false ∧
  merged (merge Sample.wallet [Sample.local5; Sample.retry5; Sample.local6]
            [Sample.remote5; Sample.remote6])
    = [Sample.retry5; Sample.remote5].
Proof. repeat split; reflexivity. Qed.

Lemma merge_precedence_witness :
  Sample.remote5 ∈ remoteTxsForAdd
    (merge Sample.wallet [Sample.local5; Sample.local6] [Sample.remote5; Sample.remote6]) ∧
  Sample.local5 ∉ merged
    (merge Sample.wallet [Sample.local5; Sample.local6] [Sample.remote5; Sample.remote6]).
Proof.
  apply (merge_precedence Sample.wallet [Sample.local5; Sample.local6]
           [Sample.remote5; Sample.remote6] Sample.remote5).
  apply list_elem_of_In. simpl. auto.
Defined.

(** C1, where the code departs from it. A local entry that a remote
    entry matches and does not supersede is to be used as it is (case
    1-2-1 of the comment in [filterForRemoteTx]). The code removes it
    all the same when it has no transaction hash and some local entry
    without hash is superseded in the same pass: [filterForLocalTx]
    compares hashes, and [undefined === undefined]. Its remote
    counterpart is not added either, so the transaction is in the
    merged result under neither form. *)
Theorem unsuperseded_local_is_removed (address : string)
    (localTxs remoteTxs : list TransactionMeta)
    (localTx remoteTx other remoteOther : TransactionMeta) :
  remoteTx ∈ remoteTxs →
  alreadyInLocalTx address localTxs remoteTx = Some localTx →
  supersedes localTx remoteTx = false →
  transactionHash localTx = None →
  remoteOther ∈ remoteTxs →
  alreadyInLocalTx address localTxs remoteOther = Some other →
  supersedes other remoteOther = true →
  transactionHash other = None →
  Forall (fun kept => kept ≠ localTx) (localTxs' (merge address localTxs remoteTxs)) ∧
  Forall (fun added => added ≠ remoteTx)
    (remoteTxsForAdd (merge address localTxs remoteTxs)).
Proof.
  intros Hin Hfind Hkeep Hhash Hin' Hfind' Hsup Hhash'.
  rewrite merge_spec. simpl. split; apply Forall_forall.
  - intros kept Hkept ->. apply list_elem_of_In, filter_In in Hkept as [_ Hkept].
    assert (filterForLocalTx (omap (removedFor address localTxs) remoteTxs) localTx = false)
      as Hgone; [|congruence].
    apply filterForLocalTx_false. exists other. split; [|congruence].
    apply removed_iff. eauto.
  - intros added Hadded ->. apply list_elem_of_In, filter_In in Hadded as [_ Hadded].
    unfold keepsRemote in Hadded. rewrite Hfind in Hadded. congruence.
Qed.

Lemma unsuperseded_local_is_removed_witness :
  Forall (fun kept => kept ≠ Sample.local6)
    (localTxs' (merge Sample.wallet [Sample.local5; Sample.retry5; Sample.local6]
                  [Sample.remote5; Sample.remote6])) ∧
  Forall (fun added => added ≠ Sample.remote6)
    (remoteTxsForAdd (merge Sample.wallet [Sample.local5; Sample.retry5; Sample.local6]
                        [Sample.remote5; Sample.remote6])).
Proof.
  apply (unsuperseded_local_is_removed Sample.wallet
           [Sample.local5; Sample.retry5; Sample.local6]
           [Sample.remote5; Sample.remote6]
           Sample.local6 Sample.remote6 Sample.local5 Sample.remote5);
    try reflexivity.
  - apply list_elem_of_further, list_elem_of_here.
  - apply list_elem_of_here.
Defined.

End ReconcileFacts.

(** ** Cancel, stop and speed up *)
Module FeeBumpFacts.
Import TransactionController.

Lemma find_none_unknown (transactionID : string) (txs : list TransactionMeta) :
  (∀ meta, meta ∈ txs → id meta ≠ transactionID) →
  List.find (hasId transactionID) txs = None.
Proof.
  intros Hno. induction txs as [|meta txs IH]; [done|]. simpl.
  unfold hasId at 1. rewrite bool_decide_eq_false_2.
  - apply IH. intros m Hm. apply Hno. by right.
  - apply Hno. by left.
Qed.

Lemma find_findIndex (transactionID : string) (txs : list TransactionMeta) meta :
  List.find (hasId transactionID) txs = Some meta →
  ∃ index, findIndex (hasId transactionID) txs = Some index ∧
           txs !! index = Some meta ∧ id meta = transactionID.
Proof.
  induction txs as [|m txs IH]; [done|]. simpl.
  destruct (hasId transactionID m) eqn:Hm.
  - intros [= ->]. exists 0%nat. repeat split.
    by apply bool_decide_eq_true in Hm.
  - intros H. destruct (IH H) as (index & Hi & Hl & Hid).
    exists (S index). rewrite Hi. done.
Qed.

(** The first record with a given identifier is the only one when the
    identifiers of the list are all different, so that deleting it
    leaves no record with that identifier. *)
Lemma delete_first_by_id (transactionID : string) (txs : list TransactionMeta) index :
  findIndex (hasId transactionID) txs = Some index →
  NoDup (id <$> txs) →
  transactionID ∉ id <$> delete index txs.
Proof.
  revert index. induction txs as [|m txs IH]; [done|]. simpl. intros index.
  destruct (hasId transactionID m) eqn:Hm.
  - intros [= <-] Hnd. simpl. apply bool_decide_eq_true in Hm. subst.
    by apply NoDup_cons in Hnd as [? _].
  - destruct (findIndex (hasId transactionID) txs) as [i|] eqn:Hi; [|done].
    intros [= <-] Hnd. simpl. apply NoDup_cons in Hnd as [_ Hnd].
    apply bool_decide_eq_false in Hm.
    rewrite not_elem_of_cons. split; [done|]. by apply IH.
Qed.

(** *** The product of a price and a rate, in doubles *)

Lemma roundHalfEven_between (a b lo hi : Z) :
  0 < b → lo * b ≤ a → a ≤ hi * b → lo ≤ JS.roundHalfEven a b ≤ hi.
Proof.
  intros Hb Hlo Hhi. unfold JS.roundHalfEven.
  pose proof (Z.div_mod a b ltac:(lia)) as Hdm.
  pose proof (Z.mod_pos_bound a b Hb) as Hr.
  set (q := a / b) in *. set (r := a mod b) in *.
  assert (lo ≤ q) by nia. assert (q ≤ hi) by nia.
  destruct (Z.ltb_spec (2 * r) b); [lia|].
  assert (q < hi) by nia.
  destruct (Z.ltb_spec b (2 * r)); [lia|]. destruct (Z.even q); lia.
Qed.

(** A product that lies on or between two neighbours of a grid that
    the doubles of its size contain is rounded within them: its
    integer part is that of the exact product. *)
Lemma double_in_grid (p q n t : Z) :
  0 < q → q ≤ p → 1 ≤ t ≤ 52 → p / q < 2 ^ (53 - t) → 0 ≤ n →
  n * q ≤ p → 2 ^ t * p ≤ (2 ^ t * n + 2 ^ t - 1) * q →
  ∃ m e, JS.double p q = Some (m, e) ∧ JS.integerPart m e = n.
Proof.
  intros Hq Hpq Ht Hsize Hn Hlo Hhi.
  assert (1 ≤ p / q) as Hone by (apply Z.div_le_lower_bound; lia).
  assert (n ≤ p / q) as Hnle by (apply Z.div_le_lower_bound; lia).
  pose proof (Z.log2_nonneg (p / q)) as HL0.
  assert (Z.log2 (p / q) < 53 - t) as HL by (apply Z.log2_lt_pow2; lia).
  pose proof (Z.log2_spec (p / q) ltac:(lia)) as [_ Hup].
  unfold JS.double. set (L := Z.log2 (p / q)) in *.
  destruct (Z.leb_spec 0 (L - 52)) as [?|_]; [lia|].
  replace (- (L - 52)) with (t + (52 - L - t)) by lia.
  rewrite Z.pow_add_r by lia.
  set (T := 2 ^ t) in *. set (S' := 2 ^ (52 - L - t)).
  assert (0 < T) as HT by (apply Z.pow_pos_nonneg; lia).
  assert (0 < S') as HS by (apply Z.pow_pos_nonneg; lia).
  assert (0 < T * S') as HTS by nia.
  destruct (roundHalfEven_between (p * (T * S')) q (n * (T * S'))
              (n * (T * S') + (T - 1) * S') Hq) as [Hm1 Hm2].
  { nia. }
  { assert (T * p * S' ≤ (T * n + T - 1) * q * S') by (apply Z.mul_le_mono_nonneg_r; lia).
    nia. }
  set (m := JS.roundHalfEven (p * (T * S')) q) in *.
  assert (m < 2 ^ 53) as Hm53.
  { assert (T * S' = 2 ^ (52 - L)) as HTS'.
    { unfold T, S'. rewrite <- Z.pow_add_r by lia. f_equal. lia. }
    assert (2 ^ Z.succ L * 2 ^ (52 - L) = 2 ^ 53) as Hpow.
    { rewrite <- Z.pow_add_r by lia. f_equal. lia. }
    rewrite <- Hpow, <- HTS'. nia. }
  assert (Z.log2 m < 53) as Hlog.
  { destruct (decide (m ≤ 0)) as [Hz|Hp]; [rewrite Z.log2_nonpos by done; lia|].
    apply Z.log2_lt_pow2; lia. }
  destruct (Z.ltb_spec 1024 (Z.log2 m + (L - 52) + 1)); [lia|].
  eexists _, _. split; [reflexivity|].
  unfold JS.integerPart. destruct (Z.leb_spec 0 (L - 52)) as [?|_]; [lia|].
  replace (- (L - 52)) with (t + (52 - L - t)) by lia.
  rewrite Z.pow_add_r by lia. fold T S'.
  symmetry. apply (Z.div_unique m (T * S') n (m - n * (T * S'))); [nia|lia].
Qed.

Lemma double_integer (v : Z) :
  0 < v < 2 ^ 52 →
  JS.double v 1 = Some (v * 2 ^ (52 - Z.log2 v), Z.log2 v - 52).
Proof.
  intros Hv. unfold JS.double. rewrite Z.div_1_r.
  pose proof (Z.log2_nonneg v) as HL0.
  assert (Z.log2 v < 52) as HL by (apply Z.log2_lt_pow2; lia).
  destruct (Z.leb_spec 0 (Z.log2 v - 52)) as [?|_]; [lia|].
  replace (- (Z.log2 v - 52)) with (52 - Z.log2 v) by lia.
  assert (∀ a, JS.roundHalfEven a 1 = a) as ->.
  { intros a. unfold JS.roundHalfEven. by rewrite Z.div_1_r, Z.mod_1_r. }
  rewrite Z.log2_mul_pow2 by lia.
  destruct (Z.ltb_spec 1024 (52 - Z.log2 v + Z.log2 v + (Z.log2 v - 52) + 1)); [lia|done].
Qed.

(** Up to 422212465065984 wei the product in doubles has the integer
    part of the exact product, for both rates. *)
Lemma timesTruncated_in_range (price : Z) :
  0 ≤ price ≤ 422212465065984 →
  JS.timesTruncated (Some price) 3 2 = Some (price * 3 / 2) ∧
  JS.timesTruncated (Some price) 11 10 = Some (price * 11 / 10).
Proof.
  intros Hprice. unfold JS.timesTruncated.
  destruct (Z.eqb_spec price 0) as [->|Hne]; [done|].
  rewrite Z.abs_eq by lia. rewrite double_integer by lia.
  pose proof (Z.log2_nonneg price) as HL0.
  assert (Z.log2 price < 49) as HL by (apply Z.log2_lt_pow2; lia).
  change (JS.double 3 2) with (Some (6755399441055744, -52)).
  change (JS.double 11 10) with (Some (4953959590107546, -52)).
  cbv beta iota zeta.
  repeat match goal with
  | |- context [0 <=? ?x] => destruct (Z.leb_spec 0 x) as [?|_]; [lia|]
  end.
  repeat match goal with
  | |- context [2 ^ (- ?x)] => replace (- x) with ((52 - Z.log2 price) + 52) by lia
  end.
  rewrite Z.pow_add_r by lia.
  set (K := 2 ^ (52 - Z.log2 price)).
  assert (0 < K) as HK by (apply Z.pow_pos_nonneg; lia).
  assert (Z.sgn price = 1) as -> by (apply Z.sgn_pos; lia).
  assert (∀ mr n t,
            4503599627370496 ≤ mr → 1 ≤ t ≤ 52 → 0 ≤ n < 2 ^ 52 →
            price * mr / 4503599627370496 < 2 ^ (53 - t) →
            n * 4503599627370496 ≤ price * mr →
            2 ^ t * (price * mr) ≤ (2 ^ t * n + 2 ^ t - 1) * 4503599627370496 →
            match JS.double (price * K * mr) (K * 2 ^ 52) with
            | Some (m, e) => Some (1 * JS.parseIntOfPrinted m e)
            | None => None
            end = Some n) as Hrate.
  { intros mr n t Hmr Ht Hn Hsize Hlo Hhi. change (2 ^ 52) with 4503599627370496.
    assert (0 < 2 ^ t) by (apply Z.pow_pos_nonneg; lia).
    destruct (double_in_grid (price * K * mr) (K * 4503599627370496) n t)
      as (m & e & -> & Hint); try lia; try nia.
    - replace (price * K * mr) with (price * mr * K) by lia.
      rewrite (Z.mul_comm K), Z.div_mul_cancel_r by lia. done.
    - unfold JS.parseIntOfPrinted. rewrite Hint.
      destruct (Z.ltb_spec n (10 ^ 21)); [f_equal; lia|].
      assert (2 ^ 52 < 10 ^ 21) by done. lia. }
  pose proof (Z.div_mod (price * 3) 2 ltac:(lia)) as Hd32.
  pose proof (Z.mod_pos_bound (price * 3) 2 ltac:(lia)) as Hm32.
  pose proof (Z.div_mod (price * 11) 10 ltac:(lia)) as Hd1110.
  pose proof (Z.mod_pos_bound (price * 11) 10 ltac:(lia)) as Hm1110.
  split.
  - apply (Hrate _ _ 1);
      change (2 ^ (53 - 1)) with 4503599627370496;
      change (2 ^ 52) with 4503599627370496; change (2 ^ 1) with 2; try lia.
    apply Z.div_lt_upper_bound; lia.
  - apply (Hrate _ _ 4);
      change (2 ^ (53 - 4)) with 562949953421312;
      change (2 ^ 52) with 4503599627370496; change (2 ^ 4) with 16; try lia.
    apply Z.div_lt_upper_bound; lia.
Qed.

Section Facts.
Variable TypedTransaction : Type.
Variable env : Env TypedTransaction.

(** C10. For an identifier that no record of the Store carries,
    [cancelTransaction], [stopTransaction] and [speedUpTransaction]
    return normally and leave everything as it was: the Store, what went
    out to listeners and the events of the hub; this holds whether a
    signer is configured or not. *)
Theorem unknown_id_is_noop (transactionID : string) (c : Controller) :
  (∀ meta, meta ∈ transactions (state c) → id meta ≠ transactionID) →
  cancelTransaction transactionID c = (Ok (), c) ∧
  stopTransaction env transactionID c = (Ok (), c) ∧
  speedUpTransaction env transactionID c = (Ok (), c).
Proof.
  intros Hno. apply find_none_unknown in Hno.
  unfold cancelTransaction, stopTransaction, speedUpTransaction,
    mbind, M_bind, bind, getState.
  by rewrite Hno.
Qed.

(** The Store of a controller after [update({ transactions })]. *)
Lemma updateTransactions_state txs c :
  ∃ c', updateTransactions txs c = (Ok (), c') ∧
        transactions (state c') = txs ∧
        methodData (state c') = methodData (state c) ∧
        hub c' = hub c ∧ mutexLocked c' = mutexLocked c.
Proof.
  unfold updateTransactions, BaseController.update, BaseController.notify.
  destruct c as [s dis ls del h l q u]; simpl.
  destruct dis; (eexists; split; [reflexivity|]; done).
Qed.

(** Within the range in which the product in doubles is exact (a gas
    price up to 422212465065984 wei), the claim holds: when the signer
    signs and the node accepts the broadcast,
    [stopTransaction] and [speedUpTransaction] take the first record
    with the given identifier out of the Store and append a replacement
    whose identifier is freshly drawn; when identifiers are unique and
    the fresh one differs from the original, no record with the original
    identifier is left. The replacement of [stopTransaction] is
    [cancelSubmitted]: a transfer of value zero from the original sender
    to itself, with the original nonce and one and a half times the
    original gas price, rounded down. The replacement of
    [speedUpTransaction] is [accelerateSubmitted]: recipient, value, data
    and nonce are the original ones and the gas price is eleven tenths
    of the original, rounded down. *)
Lemma fee_bump_replaces_record
    (transactionID : string) (c : Controller) (transactionMeta : TransactionMeta)
    (signer : TypedTransaction → string → Outcome TypedTransaction)
    (price : Z) (cancel : bool) :
  List.find (hasId transactionID) (transactions (state c)) = Some transactionMeta →
  sign env = Some signer →
  (∀ txParams, ∃ unsignedEthTx signedTx,
      fromTxData env txParams = Ok unsignedEthTx ∧
      signer unsignedEthTx (tx_from (transaction transactionMeta)) = Ok signedTx) →
  (∀ rawTransaction, ∃ hash, onSendRawTransaction (ethQuery env) rawTransaction = Ok hash) →
  JS.parseInt (default "0x0" (tx_gasPrice (transaction transactionMeta))) (Some 16)
    = Some price →
  0 ≤ price ≤ 422212465065984 →
  ∃ c' index replacement,
    (if cancel then stopTransaction env transactionID c
     else speedUpTransaction env transactionID c) = (Ok (), c') ∧
    findIndex (hasId transactionID) (transactions (state c)) = Some index ∧
    transactions (state c') = delete index (transactions (state c)) ++ [replacement] ∧
    id replacement = random env None (uuids c) ∧
    (NoDup (id <$> transactions (state c)) → id replacement ≠ transactionID →
     transactionID ∉ id <$> transactions (state c')) ∧
    tx_from (transaction replacement) = tx_from (transaction transactionMeta) ∧
    tx_nonce (transaction replacement) = tx_nonce (transaction transactionMeta) ∧
    if cancel then
      status replacement = cancelSubmitted ∧
      tx_to (transaction replacement) = Some (tx_from (transaction transactionMeta)) ∧
      tx_value (transaction replacement) = Some "0x0" ∧
      tx_gasPrice (transaction replacement)
        = Some (addHexPrefix (JS.toString16 (Some (price * 3 / 2))))
    else
      status replacement = accelerateSubmitted ∧
      tx_to (transaction replacement) = tx_to (transaction transactionMeta) ∧
      tx_value (transaction replacement) = tx_value (transaction transactionMeta) ∧
      tx_data (transaction replacement) = tx_data (transaction transactionMeta) ∧
      tx_gasPrice (transaction replacement)
        = Some (addHexPrefix (JS.toString16 (Some (price * 11 / 10)))).
Proof.
  intros Hfind Hsign Hsigner Hsend Hprice Hpos.
  destruct (find_findIndex _ _ _ Hfind) as (index & Hindex & Hlookup & Hid).
  destruct (timesTruncated_in_range price Hpos) as [Hq32 Hq1110].
  destruct cancel.
  - unfold stopTransaction, mbind, M_bind, bind, getState, await, query, freshId.
    rewrite Hfind, Hsign.
    match goal with
    | |- context [fromTxData env ?p] =>
        destruct (Hsigner p) as (unsignedEthTx & signedTx & -> & ->)
    end.
    destruct (Hsend (serialize env signedTx)) as (hash & ->).
    unfold replaceById. simpl. rewrite Hindex.
    match goal with
    | |- context [updateTransactions ?txs ?c0] =>
        destruct (updateTransactions_state txs c0) as (c' & -> & Htxs & _)
    end.
    unfold emit. eexists _, index, _. split; [reflexivity|].
    simpl. rewrite Htxs. simpl.
    split; [done|]. split; [reflexivity|]. split; [done|].
    split.
    { intros Hnd Hfresh. rewrite fmap_app, elem_of_app. intros [Hin|Hin].
      - by apply (delete_first_by_id _ _ _ Hindex Hnd).
      - simpl in Hin. apply list_elem_of_singleton in Hin. done. }
    unfold bumpedGasPrice, CANCEL_RATE. rewrite Hprice. cbn [fst snd]. rewrite Hq32.
    done.
  - unfold speedUpTransaction, mbind, M_bind, bind, getState, await, query, freshId.
    rewrite Hfind, Hsign.
    match goal with
    | |- context [fromTxData env ?p] =>
        destruct (Hsigner p) as (unsignedEthTx & signedTx & -> & ->)
    end.
    destruct (Hsend (serialize env signedTx)) as (hash & ->).
    unfold replaceById. simpl. rewrite Hindex.
    match goal with
    | |- context [updateTransactions ?txs ?c0] =>
        destruct (updateTransactions_state txs c0) as (c' & -> & Htxs & _)
    end.
    unfold emit. eexists _, index, _. split; [reflexivity|].
    simpl. rewrite Htxs. simpl.
    split; [done|]. split; [reflexivity|]. split; [done|].
    split.
    { intros Hnd Hfresh. rewrite fmap_app, elem_of_app. intros [Hin|Hin].
      - by apply (delete_first_by_id _ _ _ Hindex Hnd).
      - simpl in Hin. apply list_elem_of_singleton in Hin. done. }
    unfold bumpedGasPrice, SPEED_UP_RATE. rewrite Hprice. cbn [fst snd]. rewrite Hq1110.
    done.
Qed.

End Facts.

(** C5, where the code departs from it. The new gas price is computed
    in doubles: [existingGasPriceDecimal * SPEED_UP_RATE] is rounded to
    the nearest double before [parseInt] cuts the fraction off. For a
    record at 511772684928469 wei ([0x1d1745d1745d5]) eleven tenths are
    562949953421315.9, and the floor is 562949953421315; the product in
    doubles is 562949953421316, and [speedUpTransaction] broadcasts and
    stores the replacement with gas price [0x2000000000004], one wei
    above the floor, as the only record of the Store, under a fresh
    identifier, with the nonce of the original and the hash the node
    answered, and emits it under the speedup event. *)
Theorem speed_up_price_above_floor :
  ∃ c' replacement,
    speedUpTransaction
      (Sample.environment (Sample.node "0x1c9c380" "0x5208") (Some Sample.signer))
      "p1" (Sample.controller [Cases.priced]) = (Ok (), c') ∧
    JS.parseInt (default "0x0" (tx_gasPrice (transaction Cases.priced))) (Some 16)
      = Some 511772684928469 ∧
    511772684928469 * 11 / 10 = 562949953421315 ∧
    transactions (state c') = [replacement] ∧
    tx_gasPrice (transaction replacement) = Some "0x2000000000004" ∧
    JS.parseInt "0x2000000000004" (Some 16) = Some 562949953421316 ∧
    id replacement = "uuid-0" ∧
    status replacement = accelerateSubmitted ∧
    tx_nonce (transaction replacement) = Some "0x5" ∧
    tx_to (transaction replacement) = Some Sample.other ∧
    transactionHash replacement = Some "0xsent" ∧
    hub c' = [("p1:speedup", replacement)] ∧
    calls c' = [eth_sendRawTransaction "0xf80x5"].
Proof.
  eexists _, _. split; [vm_compute; reflexivity|].
  repeat split; vm_compute; reflexivity.
Qed.

Lemma unknown_id_is_noop_witness :
  cancelTransaction "nobody" (Sample.controller [Sample.local5]) =
    (Ok (), Sample.controller [Sample.local5]) ∧
  stopTransaction (Sample.environment (Sample.node "0x1c9c380" "0x5208") None)
    "nobody" (Sample.controller [Sample.local5]) =
    (Ok (), Sample.controller [Sample.local5]) ∧
  speedUpTransaction (Sample.environment (Sample.node "0x1c9c380" "0x5208") None)
    "nobody" (Sample.controller [Sample.local5]) =
    (Ok (), Sample.controller [Sample.local5]).
Proof.
  apply (unknown_id_is_noop _
           (Sample.environment (Sample.node "0x1c9c380" "0x5208") None)
           "nobody" (Sample.controller [Sample.local5])).
  intros meta Hin. apply list_elem_of_singleton in Hin. subst. discriminate.
Defined.

Lemma fee_bump_replaces_record_witness :
  ∃ c' replacement,
    stopTransaction
      (Sample.environment (Sample.node "0x1c9c380" "0x5208") (Some Sample.signer))
      "l5" (Sample.controller [Sample.local5; Sample.local6]) = (Ok (), c') ∧
    transactions (state c') = [Sample.local6; replacement] ∧
    tx_gasPrice (transaction replacement) = Some "0xf".
Proof.
  destruct (fee_bump_replaces_record _
              (Sample.environment (Sample.node "0x1c9c380" "0x5208") (Some Sample.signer))
              "l5" (Sample.controller [Sample.local5; Sample.local6])
              Sample.local5 Sample.signer 10 true)
    as (c' & index & replacement & Hrun & Hindex & Htxs & _ & _ & _ & _ & _ & _ & _ & Hprice);
    try reflexivity; try lia.
  - intros txParams. exists txParams, txParams. split; reflexivity.
  - intros rawTransaction. exists "0xsent". reflexivity.
  - exists c', replacement. split; [exact Hrun|].
    simpl in Hindex. injection Hindex as <-. split; [exact Htxs|exact Hprice].
Defined.

End FeeBumpFacts.

(** ** Approval and signing *)
Module ApprovalFacts.
Import TransactionController.

Lemma findIndex_none_unknown (transactionID : string) (txs : list TransactionMeta) :
  (∀ meta, meta ∈ txs → id meta ≠ transactionID) →
  findIndex (hasId transactionID) txs = None.
Proof.
  intros Hno. induction txs as [|meta txs IH]; [done|]. simpl.
  unfold hasId at 1. rewrite bool_decide_eq_false_2.
  - rewrite IH; [done|]. intros m Hm. apply Hno. by right.
  - apply Hno. by left.
Qed.

Section Facts.
Variable TypedTransaction : Type.
Variable env : Env TypedTransaction.

(** C6, where the code departs from it. [approveTransaction] called
    with an identifier that no record carries takes the mutex, fails on
    reading the record before it enters [try], and ends with the mutex
    still held: no record is failed and no event is emitted. *)
Theorem approve_unknown_id_keeps_lock (transactionID : string) (c : Controller) :
  mutexLocked c = false →
  (∀ meta, meta ∈ transactions (state c) → id meta ≠ transactionID) →
  approveTransaction env transactionID c
    = (Throw (mkError "TypeError"), setMutexLocked true c).
Proof.
  intros Hfree Hno. apply findIndex_none_unknown in Hno.
  unfold approveTransaction, mbind, M_bind, bind, getState, acquire.
  rewrite Hfree. simpl. rewrite Hno. reflexivity.
Qed.

Lemma findIndex_lookup (transactionID : string) (txs : list TransactionMeta) index :
  findIndex (hasId transactionID) txs = Some index →
  ∃ meta, txs !! index = Some meta ∧ id meta = transactionID.
Proof.
  revert index. induction txs as [|m txs IH]; [done|]. simpl. intros index.
  destruct (hasId transactionID m) eqn:Hm.
  - intros [= <-]. exists m. split; [done|]. by apply bool_decide_eq_true in Hm.
  - destruct (findIndex (hasId transactionID) txs) as [i|]; [|done].
    intros [= <-]. simpl. by apply IH.
Qed.

(** What [failTransaction] does to a record of the Store whose
    transaction passes validation. *)
Lemma failTransaction_records (transactionMeta : TransactionMeta) (error : Error)
    (c : Controller) (index : nat) :
  validateTransaction env (normalizeTransaction env (transaction transactionMeta)) = None →
  findIndex (hasId (id transactionMeta)) (transactions (state c)) = Some index →
  ∃ c',
    failTransaction env transactionMeta error c = (Ok (), c') ∧
    transactions (state c')
      = <[index := normalized env (withStatus (withError transactionMeta error) failed)]>
          (transactions (state c)) ∧
    hub c' = hub c ++ [(id transactionMeta +:+ ":finished",
                        normalized env (withStatus (withError transactionMeta error) failed))] ∧
    mutexLocked c' = mutexLocked c.
Proof.
  intros Hvalid Hindex.
  unfold failTransaction, updateTransaction, mbind, M_bind, bind, getState,
    mret, M_ret, ret, emit.
  simpl. rewrite Hvalid, Hindex.
  unfold updateTransactions, BaseController.update, BaseController.notify.
  destruct c as [s dis ls del h l q u]; simpl in *.
  destruct dis; simpl; (eexists; split; [reflexivity|]; done).
Qed.

(** Whichever statement of the [try] block throws, the [catch] clause
    fails the record with the error thrown and emits the failed record
    with the finished event. *)
Lemma attempt_recovers {A} (tempTxMeta : TransactionMeta) (step : M A)
    (next : A → M unit) (c c1 : Controller) (err : Error) (index : nat) :
  step c = (Throw err, c1) →
  validateTransaction env (normalizeTransaction env (transaction tempTxMeta)) = None →
  findIndex (hasId (id tempTxMeta)) (transactions (state c1)) = Some index →
  ∃ c',
    attempt env tempTxMeta step next c = (Ok (), c') ∧
    transactions (state c')
      = <[index := normalized env (withStatus (withError tempTxMeta err) failed)]>
          (transactions (state c1)) ∧
    hub c' = hub c1 ++ [(id tempTxMeta +:+ ":finished",
                         normalized env (withStatus (withError tempTxMeta err) failed))] ∧
    mutexLocked c' = mutexLocked c1.
Proof.
  intros Hstep Hvalid Hindex. unfold attempt. rewrite Hstep.
  by apply failTransaction_records.
Qed.

(** The recovery path of C6, for a record that is in the Store and a
    signer that rejects with [err]: the record is failed with that
    error, the failed record goes out with the finished event, and the
    mutex is free again. *)
Lemma approve_signer_error_is_recorded
    (transactionID : string) (c : Controller) (index : nat)
    (signer : TypedTransaction → string → Outcome TypedTransaction)
    (count : string) (err : Error) :
  mutexLocked c = false →
  findIndex (hasId transactionID) (transactions (state c)) = Some index →
  (∀ meta, transactions (state c) !! index = Some meta →
           tx_nonce (transaction meta) = None) →
  sign env = Some signer →
  JS.truthy (providerChainId (provider (getNetworkState env))) = true →
  (∀ address, onGetTransactionCount (ethQuery env) address = Ok count) →
  (∀ txParams, ∃ unsignedEthTx,
      fromTxData env txParams = Ok unsignedEthTx ∧
      ∀ from, signer unsignedEthTx from = Throw err) →
  (∀ transaction, validateTransaction env transaction = None) →
  ∃ c' failedMeta,
    approveTransaction env transactionID c = (Ok (), c') ∧
    mutexLocked c' = false ∧
    transactions (state c') !! index = Some failedMeta ∧
    id failedMeta = transactionID ∧
    status failedMeta = failed ∧
    error failedMeta = Some err ∧
    hub c' = hub c ++ [(transactionID +:+ ":finished", failedMeta)].
Proof.
  intros Hfree Hindex Hnonce Hsign Hchain Hcount Hsigner Hvalid.
  destruct (findIndex_lookup _ _ _ Hindex) as (meta & Hlookup & Hid).
  specialize (Hnonce meta Hlookup).
  unfold approveTransaction, mbind, M_bind, bind, getState, acquire.
  rewrite Hfree. simpl. rewrite Hindex. simpl. rewrite Hlookup.
  unfold finally. rewrite Hsign, Hchain. simpl.
  unfold attempt at 1. rewrite Hnonce. unfold query at 1. rewrite Hcount.
  unfold attempt at 1, await at 1.
  match goal with
  | |- context [fromTxData env ?p] =>
      destruct (Hsigner p) as (unsignedEthTx & -> & Hthrow)
  end.
  unfold attempt at 1, await at 1. rewrite Hthrow.
  match goal with
  | |- context [failTransaction env ?m ?e ?c0] =>
      destruct (failTransaction_records m e c0 index) as (c1 & -> & Htxs & Hhub & Hlock)
  end.
  { apply Hvalid. }
  { simpl. rewrite Hid. exact Hindex. }
  unfold releaseLock. eexists _, _. split; [reflexivity|].
  simpl. split; [done|]. rewrite Htxs, Hhub. simpl.
  split.
  { apply list_lookup_insert_eq. by eapply lookup_lt_Some. }
  rewrite Hid. done.
Qed.

(** The mutex is then never released: a second approval, of a record
    that exists, waits for ever. *)
Lemma approve_after_unknown_id_waits (unknown known : string) (c c' : Controller) :
  approveTransaction env unknown c = (Throw (mkError "TypeError"), c') →
  mutexLocked c' = true →
  fst (approveTransaction env known c') = Pending.
Proof.
  intros _ Hheld.
  unfold approveTransaction, mbind, M_bind, bind, getState, acquire.
  by rewrite Hheld.
Qed.

End Facts.

Lemma approve_unknown_id_keeps_lock_witness :
  approveTransaction
    (Sample.environment (Sample.node "0x1c9c380" "0x5208") (Some Sample.signer))
    "nobody" (Sample.controller [Sample.local5])
    = (Throw (mkError "TypeError"),
       setMutexLocked true (Sample.controller [Sample.local5])).
Proof.
  apply (approve_unknown_id_keeps_lock _
           (Sample.environment (Sample.node "0x1c9c380" "0x5208") (Some Sample.signer))
           "nobody" (Sample.controller [Sample.local5])).
  - reflexivity.
  - intros meta Hin. apply list_elem_of_singleton in Hin. subst. discriminate.
Defined.

End ApprovalFacts.

(** ** Publication by fetchAll *)
Module FetchAllFacts.
Import TransactionController.

Lemma setCalls_setCalls q q' c : setCalls q (setCalls q' c) = setCalls q c.
Proof. reflexivity. Qed.

Lemma setCalls_same c : c = setCalls (calls c) c.
Proof. by destruct c. Qed.

Section Facts.
Variable TypedTransaction : Type.
Variable env : Env TypedTransaction.

(** The smart-contract lookups only add to the log of queries. *)
Lemma checkSmartContract_frame tempTx checkAddress c :
  ∃ r q, checkSmartContract _ env tempTx checkAddress c = (r, setCalls q c).
Proof.
  unfold checkSmartContract, mbind, M_bind, bind, mret, M_ret, ret, query.
  case_bool_decide; [exists (Ok true), (calls c); by rewrite <- setCalls_same|].
  destruct checkAddress as [[|ch address]|];
    try (exists (Ok false), (calls c); by rewrite <- setCalls_same).
  destruct (_ || _);
    [|exists (Ok false), (calls c); by rewrite <- setCalls_same].
  destruct (onGetCode (ethQuery env) (String ch address)); eauto.
Qed.

Lemma annotate_frame tx c :
  ∃ r q, annotate _ env tx c = (r, setCalls q c).
Proof.
  unfold annotate, mbind, M_bind, bind, mret, M_ret, ret.
  destruct (toSmartContract tx) as [t|].
  - destruct (fromSmartContract tx) as [f|].
    + eexists _, (calls c). by rewrite <- setCalls_same.
    + destruct (checkSmartContract_frame tx (Some (tx_from (transaction tx))) c)
        as (r & q & ->).
      destruct r; eauto.
  - destruct (checkSmartContract_frame tx (tx_to (transaction tx)) c) as (r & q & ->).
    destruct r as [b|e|]; eauto.
    destruct (fromSmartContract tx) as [f|]; [eauto|].
    destruct (checkSmartContract_frame tx (Some (tx_from (transaction tx))) (setCalls q c))
      as (r' & q' & ->).
    rewrite setCalls_setCalls. destruct r'; eauto.
Qed.

Lemma annotateAll_frame txs : ∀ c,
  ∃ r q, annotateAll env txs c = (r, setCalls q c).
Proof.
  induction txs as [|tx txs IH]; intros c; simpl.
  - exists (Ok []), (calls c). by rewrite <- setCalls_same.
  - unfold mbind, M_bind, bind, mret, M_ret, ret.
    destruct (annotate_frame tx c) as (r & q & ->).
    destruct r as [tx'|e|]; eauto.
    destruct (IH (setCalls q c)) as (r' & q' & ->).
    rewrite setCalls_setCalls. destruct r'; eauto.
Qed.

(** The second half of [fetchAll] publishes exactly when it completes
    and either the Store held no record before, or the merge added a
    remote entry or removed a local one. *)
Lemma reconcile_publishes (address : string)
    (remoteEtherTxs remoteTokenTxs : list TransactionMeta) (c : Controller) :
  ∃ r c',
    reconcile env address remoteEtherTxs remoteTokenTxs c = (r, c') ∧
    if isOk r &&
       (bool_decide (length (transactions (state c)) = 0%nat)
        || Reconcile.changed address (transactions (state c)) remoteEtherTxs remoteTokenTxs)
    then
      ∃ txs, state c' = mkTransactionState txs (methodData (state c)) ∧
             delivered c' =
               delivered c ++
               (if disabled c then []
                else List.map (fun key => (key, state c')) (internalListeners c))
    else state c' = state c ∧ delivered c' = delivered c.
Proof.
  unfold reconcile, mbind, M_bind, bind, getState, mret, M_ret, ret.
  match goal with
  | |- context [annotateAll env ?txs c] =>
      destruct (annotateAll_frame txs c) as (r & q & ->)
  end.
  destruct r as [annotated|e|]; [|by eexists _, _; split..].
  unfold Reconcile.changed. cbv zeta.
  change (state (setCalls q c)) with (state c).
  destruct (bool_decide (length (transactions (state c)) = 0%nat)) eqn:Hempty.
  - unfold updateTransactions, BaseController.update, BaseController.notify.
    destruct c as [s dis ls del h l qs u]. cbn in Hempty |- *.
    destruct dis; cbn; eexists _, _; (split; [reflexivity|]); cbn;
      (eexists; split; [reflexivity|]); by rewrite ?app_nil_r.
  - match goal with
    | |- context [if ?b then updateTransactions _ else _] => destruct b
    end.
    + unfold updateTransactions, BaseController.update, BaseController.notify.
      destruct c as [s dis ls del h l qs u]. cbn in Hempty |- *.
      destruct dis; cbn; eexists _, _; (split; [reflexivity|]); cbn;
        (eexists; split; [reflexivity|]); by rewrite ?app_nil_r.
    + eexists _, _. split; [reflexivity|]. done.
Qed.

Lemma setUuids_same c : c = setUuids (uuids c) c.
Proof. by destruct c. Qed.

(** Normalising the remote lists only draws identifiers. *)
Lemma normalizeAll_frame normalize entries : ∀ c,
  ∃ r n, normalizeAll env normalize entries c = (r, setUuids n c).
Proof.
  induction entries as [|entry entries IH]; intros c; simpl.
  - exists (Ok []), (uuids c). by rewrite <- setUuids_same.
  - unfold mbind, M_bind, bind, mret, M_ret, ret.
    destruct (normalize _ entry) as [tx|e|]; [|eauto..].
    destruct (IH (setUuids (S (uuids c)) c)) as (r & n & ->).
    destruct r; eauto.
Qed.

Lemma fetchRemote_frame address opt c :
  ∃ r n, fetchRemote env address opt c = (r, setUuids n c).
Proof.
  unfold fetchRemote, mbind, M_bind, bind, mret, M_ret, ret, await.
  destruct (negb _); [exists (Ok None), (uuids c); by rewrite <- setUuids_same|].
  destruct (handleTransactionFetch env _ address opt) as [[ether token]|e|];
    [|exists (Throw e), (uuids c); by rewrite <- setUuids_same
     |exists Pending, (uuids c); by rewrite <- setUuids_same].
  match goal with
  | |- context [normalizeAll env ?f ether c] =>
      destruct (normalizeAll_frame f ether c) as (r & n & ->)
  end.
  destruct r as [etherTxs|e|]; [|eauto..].
  match goal with
  | |- context [normalizeAll env ?f token ?c0] =>
      destruct (normalizeAll_frame f token c0) as (r & n' & ->)
  end.
  destruct r; eauto.
Qed.

(** C9, as the code has it. On a network other than 1, 3, 4 and 42 a
    run of [fetchAll] returns at once: nothing is fetched, nothing is
    published, and the controller is as before, whatever the Store
    holds. On one of these four networks the run publishes exactly when
    the remote history was fetched and normalised, the run completes,
    and either the Store held no record before or the merge added a
    remote entry or removed a local one; the new state then goes to
    every listener. In every other case the state and what went out to
    listeners are as before. *)
Theorem fetchAll_publishes (address : string) (opt : option FetchAllOptions)
    (c : Controller) :
  ∃ r c',
    fetchAll env address opt c = (r, c') ∧
    if bool_decide (network (getNetworkState env) ∈ supportedNetworkIds) then
      match fst (fetchRemote env address opt c) with
      | Ok (Some (remoteEtherTxs, remoteTokenTxs)) =>
          if isOk r &&
             (bool_decide (length (transactions (state c)) = 0%nat)
              || Reconcile.changed address (transactions (state c))
                   remoteEtherTxs remoteTokenTxs)
          then
            ∃ txs, state c' = mkTransactionState txs (methodData (state c)) ∧
                   delivered c' =
                     delivered c ++
                     (if disabled c then []
                      else List.map (fun key => (key, state c')) (internalListeners c))
          else state c' = state c ∧ delivered c' = delivered c
      | _ => state c' = state c ∧ delivered c' = delivered c
      end
    else r = Ok None ∧ c' = c.
Proof.
  destruct (bool_decide (network (getNetworkState env) ∈ supportedNetworkIds)) eqn:Hnet.
  - unfold fetchAll, mbind, M_bind, bind, mret, M_ret, ret.
    destruct (fetchRemote_frame address opt c) as (remote & n & ->). simpl.
    destruct remote as [[[remoteEtherTxs remoteTokenTxs]|]|e|];
      [|by eexists _, _; split..].
    destruct (reconcile_publishes address remoteEtherTxs remoteTokenTxs (setUuids n c))
      as (r & c' & -> & H).
    exists r, c'. split; [reflexivity|]. exact H.
  - exists (Ok None), c. split; [|done].
    unfold fetchAll, fetchRemote, mbind, M_bind, bind, mret, M_ret, ret.
    by rewrite Hnet.
Qed.

End Facts.

(** C9, as the claim states it, fails: with no record in the Store and
    none reported by the explorer, nothing is added or removed, and the
    listener is called all the same. *)
Lemma fetchAll_publishes_without_change :
  transactions (state (Sample.controller [])) = [] ∧
  handleTransactionFetch
    (Sample.environment (Sample.node "0x1c9c380" "0x5208") None)
    "mainnet" Sample.wallet None = Ok ([], []) ∧
  delivered
    (snd (fetchAll (Sample.environment (Sample.node "0x1c9c380" "0x5208") None)
            Sample.wallet None (Sample.controller [])))
    = [("ui", mkTransactionState [] [])].
Proof. repeat split; reflexivity. Qed.

End FetchAllFacts.

(** ** The poller *)
Module PollerFacts.
Import Poller.

Section Facts.
Variable TypedTransaction : Type.
Variable env : TransactionController.Env TypedTransaction.

(** A record that is not [submitted] is left alone. *)
Lemma pollRecords_keeps (ref : nat) (meta : TransactionMeta) (refs : list nat) :
  status meta ≠ submitted →
  ∀ st gotUpdates rejected st' gotUpdates',
    heap st !! ref = Some meta →
    pollRecords env refs st gotUpdates rejected = Some (st', gotUpdates') →
    heap st' !! ref = Some meta.
Proof.
  intros Hstatus. induction refs as [|r refs IH]; simpl;
    intros st gotUpdates rejected st' gotUpdates' Hheap Hrun.
  - by simplify_eq.
  - destruct (heap st !! r) as [m|] eqn:Hr; [|by eapply IH].
    destruct (bool_decide (status m = submitted)
              && TransactionController.onCurrentNetwork env m) eqn:Hcond;
      [|by eapply IH].
    assert (r ≠ ref) as Hne.
    { intros ->. rewrite Hheap in Hr. simplify_eq.
      apply andb_true_iff in Hcond as [Hs _]. by apply bool_decide_eq_true in Hs. }
    destruct (onGetTransactionByHash _ (transactionHash m)) as [txObj|e|]; [| |done].
    + destruct (isIncluded txObj).
      * eapply IH; [|exact Hrun]. simpl. by rewrite lookup_insert_ne.
      * eapply IH; [|exact Hrun]. done.
    + eapply IH; [|exact Hrun]. done.
Qed.

Lemma pollRecords_confirms (ref : nat) (meta : TransactionMeta)
    (txObj : option TransactionObject) (refs : list nat) :
  status meta = submitted →
  TransactionController.onCurrentNetwork env meta = true →
  onGetTransactionByHash (TransactionController.ethQuery env) (transactionHash meta)
    = Ok txObj →
  isIncluded txObj = true →
  ref ∈ refs →
  ∀ st gotUpdates rejected st' gotUpdates',
    heap st !! ref = Some meta →
    pollRecords env refs st gotUpdates rejected = Some (st', gotUpdates') →
    heap st' !! ref = Some (withStatus meta confirmed).
Proof.
  intros Hstatus Hnet Hanswer Hincluded.
  induction refs as [|r refs IH]; intros Hin; [by apply elem_of_nil in Hin|].
  intros st gotUpdates rejected st' gotUpdates' Hheap Hrun. simpl in Hrun.
  destruct (decide (r = ref)) as [->|Hne].
  - rewrite Hheap, Hstatus, Hnet, Hanswer, Hincluded in Hrun.
    rewrite bool_decide_eq_true_2 in Hrun by done. simpl in Hrun.
    eapply (pollRecords_keeps ref (withStatus meta confirmed)); [done| |exact Hrun].
    simpl. apply lookup_insert_eq.
  - apply elem_of_cons in Hin as [->|Hin]; [done|].
    destruct (heap st !! r) as [m|] eqn:Hr; [|by eapply IH].
    destruct (bool_decide (status m = submitted)
              && TransactionController.onCurrentNetwork env m);
      [|by eapply IH].
    destruct (onGetTransactionByHash _ (transactionHash m)) as [obj|e|]; [| |done].
    + destruct (isIncluded obj).
      * eapply IH; [done| |exact Hrun]. simpl. by rewrite lookup_insert_ne.
      * eapply IH; [done| |exact Hrun]. done.
    + eapply IH; [done| |exact Hrun]. done.
Qed.

(** C3, where the code departs from it. When a tick of the poller finds
    a [submitted] record of the current network included in a block, it
    sets the status on the record object of the published array: after
    the tick, the object that the array published before refers to reads
    [confirmed]. *)
Theorem poller_writes_published_record
    (st st' : Store) (index ref : nat) (meta : TransactionMeta)
    (txObj : option TransactionObject) :
  published st !! index = Some ref →
  heap st !! ref = Some meta →
  status meta = submitted →
  TransactionController.onCurrentNetwork env meta = true →
  onGetTransactionByHash (TransactionController.ethQuery env) (transactionHash meta)
    = Ok txObj →
  isIncluded txObj = true →
  queryTransactionStatuses env st = Some st' →
  heap st' !! ref = Some (withStatus meta confirmed) ∧
  published st' !! index = Some ref.
Proof.
  intros Hpub Hheap Hstatus Hnet Hanswer Hincluded Hrun.
  unfold queryTransactionStatuses in Hrun.
  destruct (pollRecords env (published st) st false false) as [[st1 got]|] eqn:Hpoll;
    [|done].
  assert (Hin : ref ∈ published st) by (by eapply list_elem_of_lookup_2).
  pose proof (pollRecords_confirms ref meta txObj (published st)
                Hstatus Hnet Hanswer Hincluded Hin _ _ _ _ _ Hheap Hpoll) as Hconf.
  assert (Hsame : published st1 = published st).
  { clear -Hpoll. revert Hpoll. generalize (published st) at 1 as refs.
    generalize false at 1 as g. generalize false as rj. revert st.
    intros st rj g refs. revert st rj g.
    induction refs as [|r refs IH]; simpl; intros st rj g Hrun.
    - by simplify_eq.
    - repeat case_match; try done; apply IH in Hrun; done. }
  simplify_eq. destruct got; simpl; [done|]. by rewrite Hsame.
Qed.

End Facts.

Lemma poller_writes_published_record_witness :
  ∃ st',
    queryTransactionStatuses
      (Sample.environment (Sample.node "0x1c9c380" "0x5208") None)
      (Sample.store Sample.incomingLocal) = Some st' ∧
    heap st' !! 0%nat = Some (withStatus Sample.incomingLocal confirmed) ∧
    heap (Sample.store Sample.incomingLocal) !! 0%nat = Some Sample.incomingLocal.
Proof.
  eexists. split; [reflexivity|]. split; [|reflexivity].
  apply (poller_writes_published_record _
           (Sample.environment (Sample.node "0x1c9c380" "0x5208") None)
           (Sample.store Sample.incomingLocal) _ 0%nat 0%nat Sample.incomingLocal
           (Some (mkTransactionObject (Some "0x10")))); reflexivity.
Defined.

End PollerFacts.

(** ** Arrays: [findIndex] and [filter] *)
Module ArrayFacts.

Lemma findIndex_None {A} (p : A → bool) (l : list A) :
  findIndex p l = None ↔ Forall (fun x => p x = false) l.
Proof.
  induction l as [|x l IH]; simpl.
  - split; [constructor|done].
  - destruct (p x) eqn:Hx.
    + split; [done|]. intros H. apply Forall_cons in H as [H _]. congruence.
    + destruct (findIndex p l) as [i|]; simpl.
      * split; [done|]. intros H. apply Forall_cons in H as [_ H].
        by apply IH in H.
      * split; [|done]. intros _. constructor; [done|]. by apply IH.
Qed.

Lemma findIndex_app {A} (p : A → bool) (l k : list A) :
  findIndex p (l ++ k) =
    match findIndex p l with
    | Some i => Some i
    | None => (fun i => length l + i)%nat <$> findIndex p k
    end.
Proof.
  induction l as [|x l IH]; simpl.
  - by destruct (findIndex p k).
  - destruct (p x); [done|]. rewrite IH.
    destruct (findIndex p l); [done|]. by destruct (findIndex p k).
Qed.

Lemma findIndex_Some {A} (p : A → bool) (l : list A) (i : nat) :
  findIndex p l = Some i →
  ∃ x, l !! i = Some x ∧ p x = true ∧ Forall (fun y => p y = false) (take i l).
Proof.
  revert i. induction l as [|x l IH]; intros i; simpl; [done|].
  destruct (p x) eqn:Hx.
  - intros [= <-]. exists x. simpl. repeat split; [done|constructor].
  - destruct (findIndex p l) as [j|]; [|done]. simpl. intros [= <-].
    destruct (IH j eq_refl) as (y & Hy & Hp & Hb). exists y. simpl.
    repeat split; [done..|]. by constructor.
Qed.

Lemma findIndex_first {A} (p : A → bool) (l : list A) (i : nat) (x : A) :
  l !! i = Some x → p x = true → Forall (fun y => p y = false) (take i l) →
  findIndex p l = Some i.
Proof.
  revert i. induction l as [|y l IH]; intros [|i]; simpl; try done.
  - by intros [= ->] ->.
  - intros Hx Hp Hb. apply Forall_cons in Hb as [-> Hb].
    by rewrite (IH i Hx Hp Hb).
Qed.

Lemma elem_of_filterIndexed {A} (p : A → nat → bool) (l : list A) (x : A) : ∀ n,
  x ∈ filterIndexed p n l ↔ ∃ i, l !! i = Some x ∧ p x (n + i)%nat = true.
Proof.
  induction l as [|y l IH]; intros n; simpl.
  - split; [by intros ?%elem_of_nil|by intros (i & ? & _)].
  - assert (x ∈ filterIndexed p (S n) l ↔
            ∃ i, (y :: l) !! S i = Some x ∧ p x (n + S i)%nat = true) as Hrest.
    { rewrite IH. by setoid_rewrite Nat.add_succ_r. }
    destruct (p y n) eqn:Hy.
    + rewrite elem_of_cons, Hrest. split.
      * intros [->|(i & Hi)]; [|eauto]. exists 0%nat. by rewrite Nat.add_0_r.
      * intros ([|i] & Hi & Hp); [left; by injection Hi|right; eauto].
    + rewrite Hrest. split; [intros (i & Hi); eauto|].
      intros ([|i] & Hi & Hp); [|eauto].
      injection Hi as ->. rewrite Nat.add_0_r in Hp. congruence.
Qed.

Lemma filterIndexed_sublist {A} (p : A → nat → bool) (l : list A) : ∀ n,
  filterIndexed p n l `sublist_of` l.
Proof.
  induction l as [|y l IH]; intros n; simpl; [done|].
  destruct (p y n); [by apply sublist_skip|by apply sublist_cons].
Qed.

Lemma filter_sublist {A} (p : A → bool) (l : list A) : List.filter p l `sublist_of` l.
Proof.
  induction l as [|y l IH]; simpl; [done|].
  destruct (p y); [by apply sublist_skip|by apply sublist_cons].
Qed.

Lemma elem_of_List_filter {A} (p : A → bool) (l : list A) (x : A) :
  x ∈ List.filter p l ↔ x ∈ l ∧ p x = true.
Proof. by rewrite !list_elem_of_In, filter_In. Qed.

End ArrayFacts.

(** ** BaseController: subscribing and unsubscribing *)
Module ListenerFacts.
Import Listeners ArrayFacts.

Lemma keysOf_app l k : keysOf (l ++ k) = keysOf l ++ keysOf k.
Proof. unfold keysOf. by rewrite List.map_app, concat_app. Qed.

Lemma lastKeyIs_single key k f : lastKeyIs key [(k, f)] = bool_decide (k = key).
Proof. done. Qed.

Lemma singleton_map (listenerMap : ListenerMap) :
  length listenerMap = 1%nat → ∃ k f, listenerMap = [(k, f)].
Proof. destruct listenerMap as [|[k f] [|? ?]]; try done. eauto. Qed.

Lemma findIndex_key_None (l : list ListenerMap) key :
  Forall (fun listenerMap => length listenerMap = 1%nat) l →
  findIndex (lastKeyIs key) l = None ↔ key ∉ keysOf l.
Proof.
  intros Hone. rewrite findIndex_None.
  induction Hone as [|m l Hm Hone IH].
  - split; [intros _; by apply not_elem_of_nil|constructor].
  - destruct (singleton_map m Hm) as (k & f & ->).
    rewrite Forall_cons, IH, lastKeyIs_single, bool_decide_eq_false.
    unfold keysOf. simpl. fold (keysOf l). rewrite not_elem_of_cons.
    split; (intros [? ?]; split; [congruence|tauto]).
Qed.

Lemma wellFormed_delete l i : wellFormed l → wellFormed (delete i l).
Proof.
  intros [Hone Hnd]. split.
  - apply Forall_forall. intros m Hm.
    eapply (proj1 (Forall_forall _ _) Hone), elem_of_sublist; [done|].
    apply sublist_delete.
  - eapply sublist_NoDup; [done|]. unfold keysOf.
    revert i. clear. induction l as [|m l IH]; intros [|i]; simpl; try done.
    + by apply sublist_inserts_l.
    + by apply sublist_app.
Qed.

Lemma wellFormed_step l op : wellFormed l → wellFormed (step l op).
Proof.
  intros Hwf. destruct op as [key f|key|f]; simpl.
  - unfold subscribe. destruct (findIndex _ _) eqn:Hf; [done|].
    destruct Hwf as [Hone Hnd].
    apply (findIndex_key_None _ _ Hone) in Hf. split.
    + apply Forall_app. split; [done|]. by repeat constructor.
    + rewrite keysOf_app. apply NoDup_app. repeat split; [done| |].
      * intros k Hk Hk'. unfold keysOf in Hk'. simpl in Hk'.
        apply list_elem_of_singleton in Hk'. by subst.
      * unfold keysOf. simpl. apply NoDup_singleton.
  - unfold unsubscribe. destruct (findIndex _ _); simpl; [|done].
    by apply wellFormed_delete.
  - unfold unsubscribeByListener. destruct (findIndex _ _); simpl; [|done].
    by apply wellFormed_delete.
Qed.

Lemma wellFormed_run ops : ∀ l, wellFormed l → wellFormed (fold_left step ops l).
Proof.
  induction ops as [|op ops IH]; intros l Hl; simpl; [done|].
  by apply IH, wellFormed_step.
Qed.

Lemma wellFormed_nil : wellFormed [].
Proof. split; [constructor|]. unfold keysOf. simpl. apply NoDup_nil_2. Qed.

(** X1. However listeners were subscribed and unsubscribed, every map of
    [internalListeners] holds exactly one entry and no key is subscribed
    twice. *)
Theorem listener_keys_stay_unique (ops : list Op) :
  Forall (fun listenerMap => length listenerMap = 1%nat) (fold_left step ops []) ∧
  NoDup (keysOf (fold_left step ops [])).
Proof. apply (wellFormed_run ops []), wellFormed_nil. Qed.

(** X2. A second [subscribe] under a key is ignored, whatever listener
    it brings: the listener subscribed first stays. *)
Theorem subscribe_same_key_is_ignored
    (internalListeners : list ListenerMap) (key : string) (first second : nat) :
  subscribe (subscribe internalListeners key first) key second
  = subscribe internalListeners key first.
Proof.
  unfold subscribe at 2 3.
  destruct (findIndex (lastKeyIs key) internalListeners) as [i|] eqn:Hf.
  - unfold subscribe. by rewrite Hf.
  - unfold subscribe. rewrite findIndex_app, Hf.
    cbn [findIndex]. rewrite lastKeyIs_single, bool_decide_eq_true_2; done.
Qed.

Lemma filter_other_keys (keys : list string) (key : string) :
  key ∉ keys → List.filter (fun k => negb (bool_decide (k = key))) keys = keys.
Proof.
  induction keys as [|k keys IH]; [done|]. intros Hk.
  apply not_elem_of_cons in Hk as [Hne Hk]. simpl.
  rewrite bool_decide_eq_false_2 by done. simpl. f_equal. by apply IH.
Qed.

Lemma unsubscribe_keys (l : list ListenerMap) (key : string) :
  wellFormed l →
  match findIndex (lastKeyIs key) l with
  | Some index =>
      keysOf (delete index l)
      = List.filter (fun k => negb (bool_decide (k = key))) (keysOf l) ∧
      key ∈ keysOf l
  | None => key ∉ keysOf l
  end.
Proof.
  induction l as [|m l IH]; intros [Hone Hnd].
  - simpl. apply not_elem_of_nil.
  - apply Forall_cons in Hone as [Hm Hone].
    destruct (singleton_map m Hm) as (k & f & ->).
    change (keysOf ([(k, f)] :: l)) with (k :: keysOf l) in Hnd |- *.
    apply NoDup_cons in Hnd as [Hk Hnd].
    specialize (IH (conj Hone Hnd)).
    cbn [findIndex]. rewrite lastKeyIs_single.
    destruct (bool_decide (k = key)) eqn:Hkey.
    + apply bool_decide_eq_true in Hkey. subst k. cbn [delete]. split.
      * cbn [List.filter]. rewrite bool_decide_eq_true_2 by done. cbn [negb].
        by rewrite filter_other_keys.
      * apply list_elem_of_here.
    + apply bool_decide_eq_false in Hkey.
      destruct (findIndex (lastKeyIs key) l) as [i|]; cbn [fmap option_fmap option_map].
      * destruct IH as [IH Hin]. split.
        -- change (keysOf (delete (S i) ([(k, f)] :: l))) with (k :: keysOf (delete i l)).
           cbn [List.filter]. rewrite bool_decide_eq_false_2 by done. cbn [negb].
           by rewrite IH.
        -- by apply list_elem_of_further.
      * rewrite not_elem_of_cons. split; [congruence|done].
Qed.

(** X3. [unsubscribe] answers [true] exactly for a key that is
    subscribed, and then takes that key, and no other, out of the array;
    for any other key it answers [false] and leaves the array as it
    is. *)
Theorem unsubscribe_answer (ops : list Op) (key : string) :
  let internalListeners := fold_left step ops [] in
  snd (unsubscribe internalListeners key) = bool_decide (key ∈ keysOf internalListeners) ∧
  keysOf (fst (unsubscribe internalListeners key))
  = List.filter (fun k => negb (bool_decide (k = key))) (keysOf internalListeners) ∧
  (snd (unsubscribe internalListeners key) = false ↔
   fst (unsubscribe internalListeners key) = internalListeners).
Proof.
  intros l. pose proof (wellFormed_run ops [] wellFormed_nil) as Hwf. fold l in Hwf.
  pose proof (unsubscribe_keys l key Hwf) as H. unfold unsubscribe.
  destruct (findIndex (lastKeyIs key) l) as [i|] eqn:Hf; simpl.
  - destruct H as [Hk Hin]. rewrite bool_decide_eq_true_2 by done.
    repeat split; [done|done|].
    intros Heq. apply findIndex_Some in Hf as (x & Hx & _).
    apply (f_equal length) in Heq. rewrite length_delete in Heq by eauto.
    apply lookup_lt_Some in Hx. lia.
  - rewrite bool_decide_eq_false_2 by done. by rewrite filter_other_keys.
Qed.

Lemma delete_middle {A} (l : list A) (x : A) (k : list A) :
  delete (length l) (l ++ x :: k) = l ++ k.
Proof. induction l as [|y l IH]; [done|]. simpl. by rewrite IH. Qed.

(** X4. Subscribing under a key that is not subscribed and unsubscribing
    that key again gives the array back as it was. *)
Theorem subscribe_then_unsubscribe (ops : list Op) (key : string) (listener : nat) :
  key ∉ keysOf (fold_left step ops []) →
  unsubscribe (subscribe (fold_left step ops []) key listener) key
  = (fold_left step ops [], true).
Proof.
  intros Hkey. pose proof (wellFormed_run ops [] wellFormed_nil) as [Hone _].
  apply (findIndex_key_None _ _ Hone) in Hkey.
  unfold subscribe, unsubscribe. rewrite Hkey, findIndex_app, Hkey.
  cbn [findIndex]. rewrite lastKeyIs_single, bool_decide_eq_true_2 by done.
  cbn [fmap option_fmap option_map]. f_equal.
  by rewrite Nat.add_0_r, delete_middle, app_nil_r.
Qed.

Lemma subscribe_then_unsubscribe_witness :
  unsubscribe (subscribe (fold_left step [Subscribe "ui" 1] []) "log" 2) "log"
  = (fold_left step [Subscribe "ui" 1] [], true).
Proof.
  apply (subscribe_then_unsubscribe [Subscribe "ui" 1] "log" 2).
  vm_compute. intros H. apply list_elem_of_singleton in H. discriminate.
Defined.

Lemma findIndex_listener_None (l : list ListenerMap) (listener : nat) :
  Forall (fun listenerMap => length listenerMap = 1%nat) l →
  findIndex (lastListenerIs listener) l = None ↔ listener ∉ listenersOf l.
Proof.
  intros Hone. rewrite findIndex_None.
  induction Hone as [|m l Hm Hone IH].
  - split; [intros _; by apply not_elem_of_nil|constructor].
  - destruct (singleton_map m Hm) as (k & f & ->).
    rewrite Forall_cons, IH.
    change (lastListenerIs listener [(k, f)]) with (bool_decide (f = listener)).
    rewrite bool_decide_eq_false.
    unfold listenersOf. simpl. fold (listenersOf l). rewrite not_elem_of_cons.
    split; (intros [? ?]; split; [congruence|tauto]).
Qed.

(** X5. [unsubscribeByListener] takes out one subscription only: a
    listener subscribed under two keys is, after one call that answers
    [true], still subscribed under the second key, and [notify] still
    calls it. *)
Theorem unsubscribeByListener_takes_first
    (ops : list Op) (key1 key2 : string) (listener : nat) :
  key1 ∉ keysOf (fold_left step ops []) →
  key2 ∉ keysOf (fold_left step ops []) →
  key1 ≠ key2 →
  listener ∉ listenersOf (fold_left step ops []) →
  unsubscribeByListener
    (subscribe (subscribe (fold_left step ops []) key1 listener) key2 listener) listener
  = (subscribe (fold_left step ops []) key2 listener, true) ∧
  ∀ (S : Type) (internalState : S),
    (listener, internalState)
    ∈ notify false
        (fst (unsubscribeByListener
                (subscribe (subscribe (fold_left step ops []) key1 listener) key2 listener)
                listener))
        internalState.
Proof.
  intros H1 H2 Hne Hl.
  assert (unsubscribeByListener
            (subscribe (subscribe (fold_left step ops []) key1 listener) key2 listener)
            listener
          = (subscribe (fold_left step ops []) key2 listener, true)) as Hrun;
    [|split; [exact Hrun|]; intros S internalState; rewrite Hrun;
      pose proof (wellFormed_run ops [] wellFormed_nil) as [Hone _];
      apply (findIndex_key_None _ _ Hone) in H2;
      cbn [fst]; unfold subscribe, notify; rewrite H2;
      rewrite List.map_app, concat_app, elem_of_app; right; cbn;
      apply list_elem_of_here].
  pose proof (wellFormed_run ops [] wellFormed_nil) as [Hone _].
  apply (findIndex_key_None _ _ Hone) in H1, H2.
  apply (findIndex_listener_None _ _ Hone) in Hl.
  unfold subscribe at 2. rewrite H1.
  unfold subscribe. rewrite findIndex_app, H2.
  cbn [findIndex]. rewrite lastKeyIs_single, bool_decide_eq_false_2 by done.
  cbn [fmap option_fmap option_map].
  unfold unsubscribeByListener. rewrite <- app_assoc, findIndex_app, Hl.
  cbn [findIndex app].
  change (lastListenerIs listener [(key1, listener)]) with (bool_decide (listener = listener)).
  rewrite bool_decide_eq_true_2 by done. cbn [fmap option_fmap option_map].
  rewrite Nat.add_0_r. by rewrite delete_middle.
Qed.

Lemma unsubscribeByListener_takes_first_witness :
  unsubscribeByListener
    (subscribe (subscribe (fold_left step [Subscribe "ui" 1] []) "log" 2) "audit" 2) 2
  = (subscribe (fold_left step [Subscribe "ui" 1] []) "audit" 2, true).
Proof.
  apply (unsubscribeByListener_takes_first [Subscribe "ui" 1] "log" "audit" 2).
  - vm_compute. intros H. apply list_elem_of_singleton in H. discriminate.
  - vm_compute. intros H. apply list_elem_of_singleton in H. discriminate.
  - discriminate.
  - vm_compute. intros H. apply list_elem_of_singleton in H. discriminate.
Defined.

End ListenerFacts.

(** ** Reconciliation: duplicates, and what a merge can take away *)
Module ReconcileExtras.
Import Reconcile Dedupe ArrayFacts.

Lemma firstOfHash_seen (txs : list TransactionMeta) : ∀ seen seen',
  (∀ h, h ∈ seen ↔ h ∈ seen') → firstOfHash seen txs = firstOfHash seen' txs.
Proof.
  induction txs as [|tx txs IH]; intros seen seen' Hsame; simpl; [done|].
  rewrite (bool_decide_ext _ _ (Hsame (transactionHash tx))).
  destruct (bool_decide (transactionHash tx ∈ seen')); [by apply IH|].
  f_equal. apply IH. intros h. rewrite !elem_of_app, Hsame. done.
Qed.

Lemma hash_seen (tx : TransactionMeta) (pre : list TransactionMeta) :
  findIndex (fun tx' => JS.strictEq (transactionHash tx') (transactionHash tx)) pre = None
  ↔ transactionHash tx ∉ transactionHash <$> pre.
Proof.
  rewrite findIndex_None, Forall_forall, list_elem_of_fmap. split.
  - intros H (y & Hy & Hin). specialize (H y Hin).
    unfold JS.strictEq in H. apply bool_decide_eq_false in H. congruence.
  - intros H y Hin. unfold JS.strictEq. apply bool_decide_eq_false.
    intros Hy. apply H. eauto.
Qed.

Lemma filterIndexed_firstOfHash (suf : list TransactionMeta) : ∀ pre,
  filterIndexed (duplicatedTxHash (pre ++ suf)) (length pre) suf
  = firstOfHash (transactionHash <$> pre) suf.
Proof.
  induction suf as [|tx suf IH]; intros pre; simpl; [done|].
  assert (duplicatedTxHash (pre ++ tx :: suf) tx (length pre)
          = negb (bool_decide (transactionHash tx ∈ transactionHash <$> pre))) as ->.
  { unfold duplicatedTxHash. rewrite findIndex_app.
    destruct (findIndex _ pre) as [i|] eqn:Hf.
    - assert (transactionHash tx ∈ transactionHash <$> pre) as Hin.
      { destruct (decide (transactionHash tx ∈ transactionHash <$> pre)); [done|].
        apply hash_seen in n. congruence. }
      rewrite (bool_decide_eq_true_2 _ Hin). simpl. apply bool_decide_eq_false.
      intros [= ->]. apply findIndex_Some in Hf as (y & Hy & _).
      apply lookup_lt_Some in Hy. lia.
    - apply hash_seen in Hf. rewrite (bool_decide_eq_false_2 _ Hf). simpl.
      rewrite ReconcileFacts.strictEq_refl. simpl.
      apply bool_decide_eq_true. by rewrite Nat.add_0_r. }
  specialize (IH (pre ++ [tx])). rewrite <- app_assoc, length_app in IH. simpl in IH.
  rewrite Nat.add_1_r in IH. rewrite IH, fmap_app. simpl.
  destruct (bool_decide (transactionHash tx ∈ transactionHash <$> pre)) eqn:Hin; simpl.
  - apply bool_decide_eq_true in Hin. apply firstOfHash_seen.
    intros h. rewrite elem_of_app, list_elem_of_singleton.
    split; [|tauto]. intros [?| ->]; done.
  - done.
Qed.

Lemma dedupe_firstOfHash (remoteTxs : list TransactionMeta) :
  dedupe remoteTxs = firstOfHash [] remoteTxs.
Proof. apply (filterIndexed_firstOfHash remoteTxs []). Qed.

Lemma firstOfHash_hashes (txs : list TransactionMeta) : ∀ seen,
  NoDup (transactionHash <$> firstOfHash seen txs) ∧
  (∀ h, h ∈ transactionHash <$> firstOfHash seen txs ↔
        h ∈ transactionHash <$> txs ∧ h ∉ seen).
Proof.
  induction txs as [|tx txs IH]; intros seen; cbn [firstOfHash].
  - split; [apply NoDup_nil_2|]. intros h. rewrite fmap_nil, elem_of_nil. tauto.
  - destruct (bool_decide (transactionHash tx ∈ seen)) eqn:Hin.
    + apply bool_decide_eq_true in Hin. destruct (IH seen) as [Hnd Hiff].
      split; [done|]. intros h. rewrite Hiff, fmap_cons, elem_of_cons.
      split; [tauto|]. intros [[->|?] ?]; tauto.
    + apply bool_decide_eq_false in Hin.
      destruct (IH (seen ++ [transactionHash tx])) as [Hnd Hiff].
      rewrite !fmap_cons. split.
      * apply NoDup_cons. split; [|done]. rewrite Hiff, elem_of_app, list_elem_of_singleton.
        tauto.
      * intros h. rewrite !elem_of_cons, Hiff, elem_of_app, list_elem_of_singleton.
        destruct (decide (h = transactionHash tx)) as [->|Hne]; tauto.
Qed.

(** X6. After [duplicatedTxHash] no two entries of the list carry the
    same transaction hash, every hash of the list is still there, and
    the entries that stay are in the order they came in. *)
Theorem dedupe_one_entry_per_hash (remoteTxs : list TransactionMeta) :
  NoDup (transactionHash <$> dedupe remoteTxs) ∧
  (∀ hash, hash ∈ transactionHash <$> dedupe remoteTxs
           ↔ hash ∈ transactionHash <$> remoteTxs) ∧
  dedupe remoteTxs `sublist_of` remoteTxs.
Proof.
  split; [|split].
  - rewrite dedupe_firstOfHash. apply firstOfHash_hashes.
  - intros h. rewrite dedupe_firstOfHash.
    rewrite (proj2 (firstOfHash_hashes remoteTxs [])), elem_of_nil. tauto.
  - apply filterIndexed_sublist.
Qed.

(** X7. Of the entries with one hash, [duplicatedTxHash] keeps the
    first: the entry at an index stays exactly when no entry before it
    has its hash. *)
Theorem dedupe_keeps_first (remoteTxs : list TransactionMeta) (tx : TransactionMeta) :
  tx ∈ dedupe remoteTxs ↔
  ∃ index, remoteTxs !! index = Some tx ∧
           Forall (fun earlier => transactionHash earlier ≠ transactionHash tx)
             (take index remoteTxs).
Proof.
  unfold dedupe. rewrite elem_of_filterIndexed.
  assert (∀ i, Forall (fun earlier => transactionHash earlier ≠ transactionHash tx)
                 (take i remoteTxs)
               ↔ Forall (fun y => JS.strictEq (transactionHash y) (transactionHash tx) = false)
                   (take i remoteTxs)) as Hsame.
  { intros i. apply Forall_proper; [|done]. intros y.
    unfold JS.strictEq. by rewrite bool_decide_eq_false. }
  split; intros (i & Hi & H); exists i; (split; [done|]).
  - apply Hsame. unfold duplicatedTxHash in H. apply bool_decide_eq_true in H.
    simpl in H. by apply findIndex_Some in H as (_ & _ & _ & H).
  - unfold duplicatedTxHash. apply bool_decide_eq_true. simpl.
    apply (findIndex_first _ _ _ tx); [done| |by apply Hsame].
    unfold JS.strictEq. by apply bool_decide_eq_true.
Qed.

Lemma firstOfHash_idempotent (txs : list TransactionMeta) : ∀ seen,
  firstOfHash seen (firstOfHash seen txs) = firstOfHash seen txs.
Proof.
  induction txs as [|tx txs IH]; intros seen; simpl; [done|].
  destruct (bool_decide (transactionHash tx ∈ seen)) eqn:Hin; [apply IH|].
  simpl. rewrite Hin. f_equal. apply IH.
Qed.

(** Removing the duplicates a second time changes nothing. *)
Lemma dedupe_idempotent (remoteTxs : list TransactionMeta) :
  dedupe (dedupe remoteTxs) = dedupe remoteTxs.
Proof. rewrite !dedupe_firstOfHash. apply firstOfHash_idempotent. Qed.

(** X8. A merge invents nothing: the local entries that stay are local
    entries in their order, the entries added are remote entries in
    their order, and every entry taken away is a local entry that is not
    confirmed and is matched by a confirmed remote entry. *)
Theorem merge_entries_come_from_inputs
    (address : string) (localTxs remoteTxs : list TransactionMeta) :
  localTxs' (merge address localTxs remoteTxs) `sublist_of` localTxs ∧
  remoteTxsForAdd (merge address localTxs remoteTxs) `sublist_of` remoteTxs ∧
  Forall (fun removed =>
            removed ∈ localTxs ∧ status removed ≠ confirmed ∧
            ∃ remoteTx, remoteTx ∈ remoteTxs ∧ status remoteTx = confirmed ∧
                        matchesLocal address remoteTx removed = true)
    (removeLocalTxs (merge address localTxs remoteTxs)).
Proof.
  rewrite ReconcileFacts.merge_spec. simpl.
  split; [apply filter_sublist|]. split; [apply filter_sublist|].
  apply Forall_forall. intros removed Hr.
  apply ReconcileFacts.removed_iff in Hr as (remoteTx & Hin & Hfind & Hs).
  apply ReconcileFacts.alreadyInLocalTx_some in Hfind as [Hl Hm].
  unfold supersedes in Hs. apply andb_true_iff in Hs as [Hs1 Hs2].
  apply bool_decide_eq_true in Hs1, Hs2. eauto 10.
Qed.

(** X9. A local entry whose hash no unconfirmed local entry carries is
    never taken away, whatever the explorer reports: a confirmed record
    is lost to a merge only through the hash of an unconfirmed one. *)
Theorem local_with_hash_of_its_own_stays
    (address : string) (localTxs remoteTxs : list TransactionMeta)
    (localTx : TransactionMeta) :
  localTx ∈ localTxs →
  (∀ other, other ∈ localTxs → status other ≠ confirmed →
            transactionHash other ≠ transactionHash localTx) →
  localTx ∈ localTxs' (merge address localTxs remoteTxs).
Proof.
  intros Hin Hown. rewrite ReconcileFacts.merge_spec. simpl.
  apply elem_of_List_filter. split; [done|].
  destruct (filterForLocalTx _ localTx) eqn:Hf; [done|].
  apply ReconcileFacts.filterForLocalTx_false in Hf as (removed & Hr & Hhash).
  apply ReconcileFacts.removed_iff in Hr as (remoteTx & _ & Hfind & Hs).
  apply ReconcileFacts.alreadyInLocalTx_some in Hfind as [Hl _].
  unfold supersedes in Hs. apply andb_true_iff in Hs as [Hs _].
  apply bool_decide_eq_true in Hs. by destruct (Hown removed Hl Hs).
Qed.

Lemma local_with_hash_of_its_own_stays_witness :
  Sample.remote5
  ∈ localTxs' (merge Sample.wallet [Sample.remote5; Sample.local6]
                 [Sample.remote5; Sample.remote6]).
Proof.
  apply (local_with_hash_of_its_own_stays Sample.wallet
           [Sample.remote5; Sample.local6] [Sample.remote5; Sample.remote6]
           Sample.remote5).
  - apply list_elem_of_here.
  - intros other Hother Hstatus.
    apply elem_of_cons in Hother as [->|Hother]; [done|].
    apply list_elem_of_singleton in Hother as ->. discriminate.
Defined.

End ReconcileExtras.

(** ** The Store operations: cancel, wipe, update *)
Module StoreFacts.
Import TransactionController ArrayFacts.

(** [this.update({ transactions })], field by field. *)
Lemma updateTransactions_fields (txs : list TransactionMeta) (c : Controller) :
  ∃ c', updateTransactions txs c = (Ok (), c') ∧
        state c' = mkTransactionState txs (methodData (state c)) ∧
        delivered c' =
          delivered c ++
          (if disabled c then []
           else List.map (fun key => (key, state c')) (internalListeners c)) ∧
        hub c' = hub c ∧ mutexLocked c' = mutexLocked c ∧ calls c' = calls c ∧
        uuids c' = uuids c ∧ disabled c' = disabled c ∧
        internalListeners c' = internalListeners c.
Proof.
  unfold updateTransactions, BaseController.update, BaseController.notify.
  destruct c as [s dis ls del h l q u]; simpl.
  destruct dis; (eexists; split; [reflexivity|]); simpl; by rewrite ?app_nil_r.
Qed.

Lemma find_hasId (transactionID : string) (txs : list TransactionMeta) meta :
  List.find (hasId transactionID) txs = Some meta →
  meta ∈ txs ∧ id meta = transactionID.
Proof.
  intros H. apply find_some in H as [Hin Hid].
  split; [by apply list_elem_of_In|]. by apply bool_decide_eq_true in Hid.
Qed.

Section Facts.
Variable TypedTransaction : Type.
Variable env : Env TypedTransaction.


(** [wipeTransactions] keeps exactly the records that are not on
    the current network, in their order, and none at all when told to
    ignore the network; method data, hub and mutex are left alone. *)
Lemma wipe_keeps_other_networks (ignoreNetwork : bool) (c : Controller) :
  ∃ c', wipeTransactions env ignoreNetwork c = (Ok (), c') ∧
        (∀ meta, meta ∈ transactions (state c') ↔
                 meta ∈ transactions (state c) ∧ ignoreNetwork = false ∧
                 onCurrentNetwork env meta = false) ∧
        transactions (state c') `sublist_of` transactions (state c) ∧
        methodData (state c') = methodData (state c) ∧
        hub c' = hub c ∧ mutexLocked c' = mutexLocked c ∧ calls c' = calls c.
Proof.
  unfold wipeTransactions, mbind, M_bind, bind, getState.
  destruct ignoreNetwork.
  - destruct (updateTransactions_fields [] c) as (c' & -> & Hs & _ & Hh & Hm & Hq & _).
    exists c'. rewrite Hs, Hh, Hm, Hq. cbn. split; [done|]. split.
    { intros meta. rewrite elem_of_nil. split; [done|]. by intros (_ & ? & _). }
    split; [apply sublist_nil_l|done].
  - match goal with
    | |- context [updateTransactions ?txs ?c0] =>
        destruct (updateTransactions_fields txs c0)
          as (c' & -> & Hs & _ & Hh & Hm & Hq & _)
    end.
    exists c'. rewrite Hs, Hh, Hm, Hq. cbn. split; [done|]. split.
    { intros meta. rewrite elem_of_List_filter, negb_true_iff. tauto. }
    split; [apply filter_sublist|done].
Qed.

(** X11. [updateTransaction] with a record whose identifier is not in
    the Store changes no record (the assignment at index -1 is lost when
    the array is copied), and yet the Store is republished: every
    listener is called with a state that holds the old records. *)
Theorem update_unknown_id_republishes (transactionMeta : TransactionMeta) (c : Controller) :
  validateTransaction env (normalizeTransaction env (transaction transactionMeta)) = None →
  (∀ meta, meta ∈ transactions (state c) → id meta ≠ id transactionMeta) →
  ∃ c', updateTransaction env transactionMeta c = (Ok (normalized env transactionMeta), c') ∧
        state c' = state c ∧
        delivered c' =
          delivered c ++
          (if disabled c then []
           else List.map (fun key => (key, state c)) (internalListeners c)) ∧
        hub c' = hub c.
Proof.
  intros Hvalid Hno.
  unfold updateTransaction, mbind, M_bind, bind, getState. cbn [transaction withTransaction].
  rewrite Hvalid.
  assert (findIndex (hasId (id transactionMeta)) (transactions (state c)) = None) as Hf.
  { apply findIndex_None, Forall_forall. intros meta Hin.
    apply bool_decide_eq_false. by apply Hno. }
  cbn [id withTransaction]. rewrite Hf.
  destruct (updateTransactions_fields (transactions (state c)) c)
    as (c' & -> & Hs & Hd & Hh & _).
  exists c'. split; [done|].
  assert (state c' = state c) as Hsame by (rewrite Hs; by destruct (state c)).
  by rewrite Hd, Hh, Hsame.
Qed.

(** X12. Whatever record it is given, and whether validation passes or
    not, [updateTransaction] never adds or removes a record and never
    changes the identifier at a position of the Store; it emits no hub
    event and issues no query. *)
Theorem update_keeps_identifiers (transactionMeta : TransactionMeta) (c : Controller) :
  ∃ r c', updateTransaction env transactionMeta c = (r, c') ∧
          id <$> transactions (state c') = id <$> transactions (state c) ∧
          hub c' = hub c ∧ calls c' = calls c ∧ mutexLocked c' = mutexLocked c.
Proof.
  unfold updateTransaction, mbind, M_bind, bind, getState.
  destruct (validateTransaction env _) as [e|]; [by eexists _, _|].
  match goal with
  | |- context [updateTransactions ?txs ?c0] =>
      destruct (updateTransactions_fields txs c0)
        as (c' & -> & Hs & _ & Hh & Hm & Hq & _)
  end.
  eexists _, c'. split; [reflexivity|]. rewrite Hs, Hh, Hm, Hq. cbn.
  repeat split.
  destruct (findIndex _ _) as [index|] eqn:Hf; [|done].
  apply findIndex_Some in Hf as (old & Hold & Hid & _).
  apply bool_decide_eq_true in Hid. cbn in Hid.
  rewrite list_fmap_insert. cbn. rewrite <- Hid.
  apply list_insert_id. by rewrite list_lookup_fmap, Hold.
Qed.

End Facts.


Lemma update_unknown_id_republishes_witness :
  ∃ c', updateTransaction
          (Sample.environment (Sample.node "0x1c9c380" "0x5208") None)
          Sample.local6 (Sample.controller [Sample.local5])
        = (Ok Sample.local6, c') ∧
        state c' = mkTransactionState [Sample.local5] [] ∧
        delivered c' = [("ui", mkTransactionState [Sample.local5] [])].
Proof.
  destruct (update_unknown_id_republishes _
              (Sample.environment (Sample.node "0x1c9c380" "0x5208") None)
              Sample.local6 (Sample.controller [Sample.local5]))
    as (c' & Hrun & Hs & Hd & _); [reflexivity| |].
  - intros meta Hin. apply list_elem_of_singleton in Hin as ->. discriminate.
  - exists c'. rewrite Hs, Hd. split; [exact Hrun|]. split; reflexivity.
Defined.

End StoreFacts.

(** ** The gas estimator: what it asks and what it answers *)
Module GasExtras.
Import TransactionController.

Lemma OnlyReads_ret {A} (a : A) : OnlyReads (mret a).
Proof.
  intros c. exists (Ok a), []. split; [|done].
  rewrite app_nil_r. by destruct c.
Qed.

Lemma OnlyReads_throw {A} (e : Error) : OnlyReads (@throw A e).
Proof.
  intros c. exists (Throw e), []. split; [|done].
  rewrite app_nil_r. by destruct c.
Qed.

Lemma OnlyReads_query {A} (call : Call) (answer : Outcome A) :
  readOnly call = true → OnlyReads (query call answer).
Proof.
  intros Hread c. exists answer, [call]. split; [done|]. simpl. by rewrite Hread.
Qed.

Lemma OnlyReads_bind {A B} (m : M A) (k : A → M B) :
  OnlyReads m → (∀ a, OnlyReads (k a)) → OnlyReads (m ≫= k).
Proof.
  intros Hm Hk c. unfold mbind, M_bind, bind.
  destruct (Hm c) as (r & q & -> & Hq).
  destruct r as [a|e|].
  - destruct (Hk a (setCalls (calls c ++ q) c)) as (r' & q' & -> & Hq').
    exists r', (q ++ q'). split.
    + destruct c; simpl. by rewrite app_assoc.
    + rewrite forallb_app, Hq, Hq'. done.
  - by exists (Throw e), q.
  - by exists Pending, q.
Qed.

Section Facts.
Variable TypedTransaction : Type.
Variable env : Env TypedTransaction.

Lemma OnlyReads_hexToBN' (inputHex : string) : OnlyReads (hexToBN' inputHex).
Proof.
  unfold hexToBN'. destruct (hexToBN inputHex); [apply OnlyReads_ret|apply OnlyReads_throw].
Qed.

Lemma OnlyReads_estimateGas (transaction : Transaction) :
  OnlyReads (estimateGas env transaction).
Proof.
  unfold estimateGas.
  apply OnlyReads_bind.
  { destruct (tx_gasPrice transaction); [apply OnlyReads_ret|by apply OnlyReads_query]. }
  intros gasPrice. destruct (tx_gas transaction) as [gas|]; [apply OnlyReads_ret|].
  apply OnlyReads_bind; [by apply OnlyReads_query|]. intros block.
  apply OnlyReads_bind.
  { destruct (tx_to transaction) as [[|a to]|]; try apply OnlyReads_ret.
    apply OnlyReads_bind; [by apply OnlyReads_query|]. intros code. apply OnlyReads_ret. }
  intros code. destruct (intrinsicGasOnly _ _ _ _); [apply OnlyReads_ret|].
  apply OnlyReads_bind; [apply OnlyReads_hexToBN'|]. intros gasLimitBN.
  apply OnlyReads_bind; [by apply OnlyReads_query|]. intros gasHex.
  apply OnlyReads_bind; [apply OnlyReads_hexToBN'|]. intros gasBN.
  destruct (_ || _); [apply OnlyReads_ret|].
  destruct (BN.lt _ _); apply OnlyReads_ret.
Qed.

(** X13. Whatever the draft and whatever the node answers,
    [estimateGas] changes nothing of the controller: not the Store, not
    what went out to listeners or to the hub, not the mutex. It only
    reads from the node, and never broadcasts. *)
Theorem estimateGas_only_reads (transaction : Transaction) (c : Controller) :
  ∃ r q, estimateGas env transaction c = (r, setCalls (calls c ++ q) c) ∧
         forallb readOnly q = true.
Proof. apply OnlyReads_estimateGas. Qed.

(** X14. A draft without gas on a network that is not custom gets the
    intrinsic gas of a plain transfer, [0x5208], when it names no
    recipient, or when it carries no data and the node reports no code
    at the recipient. The node is asked for the latest block and, with a
    recipient, for the code there; it is not asked for an estimate. *)
Theorem estimateGas_plain_transfer
    (transaction : Transaction) (c : Controller) (gasPrice : string) (block : Block) :
  tx_gas transaction = None →
  tx_gasPrice transaction = Some gasPrice →
  isCustomNetwork (getNetworkState env) = false →
  onGetBlockByNumber (ethQuery env) = Ok block →
  (JS.truthy (tx_to transaction) = false ∨
   ∃ to code, tx_to transaction = Some to ∧ JS.truthy (tx_data transaction) = false ∧
              onGetCode (ethQuery env) to = Ok code ∧ (code = "" ∨ code = "0x")) →
  estimateGas env transaction c
  = (Ok ("0x5208", gasPrice),
     setCalls
       (calls c ++
        eth_getBlockByNumber "latest" false
        :: (if JS.truthy (tx_to transaction)
            then [eth_getCode (default "" (tx_to transaction))] else []))
       c).
Proof.
  intros Hgas Hprice Hcustom Hblock Hcase.
  unfold estimateGas, mbind, M_bind, bind, mret, M_ret, ret, query.
  rewrite Hgas, Hprice, Hcustom, Hblock. cbn [calls setCalls].
  destruct Hcase as [Hto|(to & code & Hto & Hdata & Hcode & Hempty)].
  - rewrite Hto. destruct (tx_to transaction) as [[|a to]|]; try discriminate; cbn.
    all: by destruct c.
  - rewrite Hto. destruct to as [|a to].
    + cbn. by destruct c.
    + rewrite Hcode. cbn [JS.truthy default].
      assert (intrinsicGasOnly false (Some (String a to)) (tx_data transaction) (Some code)
              = true) as ->.
      { unfold intrinsicGasOnly. rewrite Hdata. by destruct Hempty as [-> | ->]. }
      destruct c; cbn. by rewrite <- app_assoc.
Qed.

(** X15. On a custom network the estimate of the node is returned as it
    came, with its hex prefix, whatever the block gas limit: there is
    neither the shortcut of [0x5208] nor any padding. *)
Theorem estimateGas_custom_network
    (transaction : Transaction) (c : Controller) (gasPrice limitHex gasHex : string)
    (gasLimitBN gasBN : BN.t) :
  tx_gas transaction = None →
  tx_gasPrice transaction = Some gasPrice →
  isCustomNetwork (getNetworkState env) = true →
  onGetBlockByNumber (ethQuery env) = Ok (mkBlock limitHex) →
  (∀ address, isOk (onGetCode (ethQuery env) address) = true) →
  hexToBN limitHex = Some gasLimitBN →
  (∀ working, onEstimateGas (ethQuery env) working = Ok gasHex) →
  hexToBN gasHex = Some gasBN →
  fst (estimateGas env transaction c) = Ok (addHexPrefix gasHex, gasPrice).
Proof.
  intros Hgas Hprice Hcustom Hblock Hcode Hlimit Hestimate Hhex.
  unfold estimateGas, mbind, M_bind, bind, mret, M_ret, ret, query, hexToBN'.
  rewrite Hgas, Hprice, Hcustom, Hblock. cbn [gasLimit].
  assert (∀ to data code, intrinsicGasOnly true to data code = false) as Hno by done.
  destruct (tx_to transaction) as [[|a to]|].
  - rewrite Hno, Hlimit. cbn. rewrite Hestimate, Hhex. cbn. by rewrite orb_true_r.
  - specialize (Hcode (String a to)).
    destruct (onGetCode (ethQuery env) (String a to)) as [code| |]; try discriminate.
    rewrite Hno, Hlimit. cbn. rewrite Hestimate, Hhex. cbn. by rewrite orb_true_r.
  - rewrite Hno, Hlimit. cbn. rewrite Hestimate, Hhex. cbn. by rewrite orb_true_r.
Qed.

End Facts.

Lemma estimateGas_plain_transfer_witness :
  fst (estimateGas
         (Sample.environment (Sample.node "0x1c9c380" "0x5208") None)
         (Cases.transfer None) (Sample.controller []))
  = Ok ("0x5208", "0xa").
Proof.
  rewrite (estimateGas_plain_transfer _
             (Sample.environment (Sample.node "0x1c9c380" "0x5208") None)
             (Cases.transfer None) (Sample.controller [])
             "0xa" (mkBlock "0x1c9c380")); try reflexivity.
  by left.
Defined.

Lemma estimateGas_custom_network_witness :
  fst (estimateGas
         (Cases.environment Cases.custom (Sample.node "0x1c9c380" "0x5208") None (Ok ([], [])))
         (Cases.transfer None) (Sample.controller []))
  = Ok ("0x5208", "0xa").
Proof.
  apply (estimateGas_custom_network _
           (Cases.environment Cases.custom (Sample.node "0x1c9c380" "0x5208") None (Ok ([], [])))
           (Cases.transfer None) (Sample.controller []) "0xa" "0x1c9c380" "0x5208"
           (BN.ofZ 30000000) (BN.ofZ 21000));
    try reflexivity; intros; reflexivity.
Defined.

End GasExtras.

(** ** Approval: the path to the node, and the paths that end before it *)
Module ApprovalExtras.
Import TransactionController ArrayFacts.

Lemma findIndex_insert_same (transactionID : string) (txs : list TransactionMeta)
    (index : nat) (meta : TransactionMeta) :
  findIndex (hasId transactionID) txs = Some index → id meta = transactionID →
  findIndex (hasId transactionID) (<[index := meta]> txs) = Some index.
Proof.
  intros Hf Hid. apply findIndex_Some in Hf as (old & Hold & _ & Hbefore).
  apply (findIndex_first _ _ _ meta).
  - apply list_lookup_insert_eq. by eapply lookup_lt_Some.
  - by apply bool_decide_eq_true.
  - by rewrite take_insert_ge.
Qed.

Section Facts.
Variable TypedTransaction : Type.
Variable env : Env TypedTransaction.

Lemma updateTransaction_known (transactionMeta : TransactionMeta) (c : Controller)
    (index : nat) :
  validateTransaction env (normalizeTransaction env (transaction transactionMeta)) = None →
  findIndex (hasId (id transactionMeta)) (transactions (state c)) = Some index →
  ∃ c', updateTransaction env transactionMeta c = (Ok (normalized env transactionMeta), c') ∧
        transactions (state c') = <[index := normalized env transactionMeta]> (transactions (state c)) ∧
        hub c' = hub c ∧ mutexLocked c' = mutexLocked c ∧ calls c' = calls c.
Proof.
  intros Hvalid Hindex.
  unfold updateTransaction, mbind, M_bind, bind, getState. cbn [transaction withTransaction id].
  rewrite Hvalid, Hindex.
  match goal with
  | |- context [updateTransactions ?txs ?c0] =>
      destruct (StoreFacts.updateTransactions_fields txs c0)
        as (c' & -> & Hs & _ & Hh & Hm & Hq & _)
  end.
  exists c'. rewrite Hs, Hh, Hm, Hq. done.
Qed.

(** X16. For the identifier of a record of the Store, [approveTransaction]
    releases the mutex on every path on which it ends, whatever the
    signer, the node and the validation do: it holds the mutex only
    while an answer it waits for has not come. *)
Theorem approve_known_id_releases_lock
    (transactionID : string) (c : Controller) (index : nat) :
  mutexLocked c = false →
  findIndex (hasId transactionID) (transactions (state c)) = Some index →
  ∃ r c', approveTransaction env transactionID c = (r, c') ∧
          (r = Pending ∨ mutexLocked c' = false).
Proof.
  intros Hfree Hindex.
  destruct (findIndex_Some _ _ _ Hindex) as (meta & Hlookup & _).
  unfold approveTransaction, mbind, M_bind, bind, getState, acquire.
  rewrite Hfree. cbn [state setMutexLocked]. rewrite Hindex. cbn [option_bind].
  rewrite Hlookup. unfold finally, releaseLock.
  match goal with
  | |- context [match ?body ?c0 with _ => _ end] => destruct (body c0) as [[?|?|] c1]
  end; eexists _, _; (split; [reflexivity|]); auto.
Qed.

(** X17. The path to the node. For a record of the Store without nonce,
    [approveTransaction] asks the node for the pending transaction count
    of the sender, has the transaction built from the record with that
    count as nonce, the chain identifier, the gas as gas limit and the
    status [approved], has the signer sign what was built for the
    sender, and broadcasts the serialisation of what the signer
    returned. When the node accepts it, the record is left in its place
    with status [submitted], that serialisation as raw transaction and
    the hash the node answered; that record goes out with the finished
    event, and the mutex is free again. *)
Theorem approve_submits
    (transactionID : string) (c : Controller) (index : nat) (meta : TransactionMeta)
    (signer : TypedTransaction → string → Outcome TypedTransaction)
    (count hash : string) (unsignedEthTx signedTx : TypedTransaction) :
  mutexLocked c = false →
  findIndex (hasId transactionID) (transactions (state c)) = Some index →
  transactions (state c) !! index = Some meta →
  tx_nonce (transaction meta) = None →
  sign env = Some signer →
  JS.truthy (providerChainId (provider (getNetworkState env))) = true →
  onGetTransactionCount (ethQuery env) (tx_from (transaction meta)) = Ok count →
  fromTxData env
    (mkTxParams
       (withGasLimit
          (withNonceAndChainId (transaction meta) (Some count)
             (Some (numberOf
                      (JS.parseInt
                         (default "" (providerChainId (provider (getNetworkState env))))
                         None))))
          (tx_gas (transaction meta)))
       (Some approved)) = Ok unsignedEthTx →
  signer unsignedEthTx (tx_from (transaction meta)) = Ok signedTx →
  onSendRawTransaction (ethQuery env) (serialize env signedTx) = Ok hash →
  (∀ transaction, validateTransaction env transaction = None) →
  ∃ c' final,
    approveTransaction env transactionID c = (Ok (), c') ∧
    mutexLocked c' = false ∧
    transactions (state c') = <[index := final]> (transactions (state c)) ∧
    id final = transactionID ∧
    status final = submitted ∧
    transactionHash final = Some hash ∧
    rawTransaction final = Some (serialize env signedTx) ∧
    hub c' = hub c ++ [(transactionID +:+ ":finished", final)] ∧
    calls c' = calls c ++ [eth_getTransactionCount (tx_from (transaction meta)) "pending";
                           eth_sendRawTransaction (serialize env signedTx)].
Proof.
  intros Hfree Hindex Hlookup Hnonce Hsign Hchain Hcount Hbuild Hsigned Hsend Hvalid.
  destruct (findIndex_Some _ _ _ Hindex) as (meta' & Hlookup' & Hid & _).
  rewrite Hlookup in Hlookup'. injection Hlookup' as <-.
  apply bool_decide_eq_true in Hid.
  unfold approveTransaction, mbind, M_bind, bind, getState, acquire.
  rewrite Hfree. cbn [state setMutexLocked]. rewrite Hindex. cbn [option_bind].
  rewrite Hlookup. unfold finally. rewrite Hsign, Hchain. cbn [negb].
  unfold attempt at 1. rewrite Hnonce. unfold query at 1. rewrite Hcount.
  unfold attempt at 1, await at 1.
  match goal with
  | |- context [fromTxData env ?p] =>
      replace (fromTxData env p) with (@Ok TypedTransaction unsignedEthTx)
        by (symmetry; exact Hbuild)
  end.
  unfold attempt at 1, await at 1. cbn [transaction withTransaction withStatus
    withNonceAndChainId tx_from]. rewrite Hsigned.
  unfold attempt at 1.
  match goal with
  | |- context [updateTransaction env ?m ?c0] =>
      destruct (updateTransaction_known m c0 index) as (c1 & -> & Htxs1 & Hhub1 & Hlock1 & Hq1);
        [apply Hvalid|cbn; by rewrite Hid|]
  end.
  unfold attempt at 1.
  match goal with
  | |- context [updateTransaction env ?m c1] =>
      destruct (updateTransaction_known m c1 index) as (c2 & -> & Htxs2 & Hhub2 & Hlock2 & Hq2);
        [apply Hvalid
        |cbn; rewrite Htxs1; apply findIndex_insert_same; [by rewrite Hid|reflexivity]|]
  end.
  unfold attempt at 1, query at 1. rewrite Hsend.
  unfold attempt at 1.
  match goal with
  | |- context [updateTransaction env ?m ?c0] =>
      destruct (updateTransaction_known m c0 index) as (c3 & -> & Htxs3 & Hhub3 & Hlock3 & Hq3);
        [apply Hvalid
        |cbn; rewrite Htxs2, Htxs1;
         apply findIndex_insert_same;
           [apply findIndex_insert_same; [by rewrite Hid|reflexivity]|reflexivity]|]
  end.
  unfold attempt at 1, emit, releaseLock.
  eexists _, _. split; [reflexivity|].
  cbn. rewrite Htxs3, Hhub3, Hq3. cbn. rewrite Htxs2, Htxs1, Hhub2, Hhub1, Hq2, Hq1. cbn.
  rewrite !list_insert_insert_eq.
  split; [done|]. split; [reflexivity|]. split; [exact Hid|]. split; [done|].
  split; [done|]. split; [reflexivity|]. split; [by rewrite <- Hid|].
  by rewrite <- app_assoc.
Qed.

(** X18. The paths that end before the node. Without a signer, or with a
    signer and no chain identifier, [approveTransaction] asks the node
    nothing: the record is failed in its place with the error "No sign
    method defined." or "No chainId defined.", the failed record goes
    out with the finished event, and the mutex is free again. *)
Theorem approve_without_signer_or_chain
    (transactionID : string) (c : Controller) (index : nat) (reason : string) :
  mutexLocked c = false →
  findIndex (hasId transactionID) (transactions (state c)) = Some index →
  (sign env = None ∧ reason = "No sign method defined.") ∨
  (is_Some (sign env) ∧
   JS.truthy (providerChainId (provider (getNetworkState env))) = false ∧
   reason = "No chainId defined.") →
  (∀ transaction, validateTransaction env transaction = None) →
  ∃ c' failedMeta,
    approveTransaction env transactionID c = (Ok (), c') ∧
    mutexLocked c' = false ∧
    transactions (state c') = <[index := failedMeta]> (transactions (state c)) ∧
    id failedMeta = transactionID ∧
    status failedMeta = failed ∧
    error failedMeta = Some (mkError reason) ∧
    hub c' = hub c ++ [(transactionID +:+ ":finished", failedMeta)] ∧
    calls c' = calls c.
Proof.
  intros Hfree Hindex Hcase Hvalid.
  destruct (findIndex_Some _ _ _ Hindex) as (meta & Hlookup & Hid & _).
  apply bool_decide_eq_true in Hid.
  unfold approveTransaction, mbind, M_bind, bind, getState, acquire.
  rewrite Hfree. cbn [state setMutexLocked]. rewrite Hindex. cbn [option_bind].
  rewrite Hlookup. unfold finally.
  assert (∀ c0, transactions (state c0) = transactions (state c) →
            hub c0 = hub c → calls c0 = calls c →
            ∃ c1, failTransaction env meta (mkError reason) c0 = (Ok (), c1) ∧
                  transactions (state c1)
                  = <[index := normalized env (withStatus (withError meta (mkError reason)) failed)]>
                      (transactions (state c)) ∧
                  hub c1 = hub c ++ [(transactionID +:+ ":finished",
                                      normalized env
                                        (withStatus (withError meta (mkError reason)) failed))] ∧
                  calls c1 = calls c) as Hfail.
  { intros c0 Htxs Hhub Hcalls. unfold failTransaction, mbind, M_bind, bind.
    destruct (updateTransaction_known (withStatus (withError meta (mkError reason)) failed)
                c0 index) as (c1 & -> & Htxs1 & Hhub1 & _ & Hq1).
    - apply Hvalid.
    - cbn. by rewrite Htxs, Hid.
    - unfold emit. eexists. split; [reflexivity|]. cbn.
      by rewrite Htxs1, Hhub1, Hq1, Htxs, Hhub, Hcalls, Hid. }
  destruct Hcase as [[Hsign ->]|([signer Hsign] & Hchain & ->)].
  - rewrite Hsign. unfold attempt, mbind, M_bind, bind, releaseLock.
    match goal with
    | |- context [failTransaction env meta ?e ?c0] =>
        destruct (Hfail c0) as (c1 & -> & Htxs & Hhub & Hq); [done..|]
    end.
    eexists _, _. split; [reflexivity|]. cbn. by rewrite Htxs, Hhub, Hq.
  - rewrite Hsign, Hchain. cbn [negb]. unfold attempt, mbind, M_bind, bind, releaseLock.
    match goal with
    | |- context [failTransaction env meta ?e ?c0] =>
        destruct (Hfail c0) as (c1 & -> & Htxs & Hhub & Hq); [done..|]
    end.
    eexists _, _. split; [reflexivity|]. cbn. by rewrite Htxs, Hhub, Hq.
Qed.

End Facts.

Lemma approve_known_id_releases_lock_witness :
  ∃ r c',
    approveTransaction (Sample.environment (Sample.node "0x1c9c380" "0x5208") None)
      "l5" (Sample.controller [Sample.local5]) = (r, c') ∧
    (r = Pending ∨ mutexLocked c' = false).
Proof.
  apply (approve_known_id_releases_lock _
           (Sample.environment (Sample.node "0x1c9c380" "0x5208") None)
           "l5" (Sample.controller [Sample.local5]) 0); reflexivity.
Defined.

Lemma approve_submits_witness :
  ∃ c' final,
    approveTransaction
      (Sample.environment (Sample.node "0x1c9c380" "0x5208") (Some Sample.signer))
      "u1" (Sample.controller [Cases.unapprovedRecord]) = (Ok (), c') ∧
    mutexLocked c' = false ∧
    transactions (state c') = [final] ∧
    status final = submitted ∧
    transactionHash final = Some "0xsent" ∧
    rawTransaction final = Some "0xf80x7" ∧
    hub c' = [("u1:finished", final)] ∧
    calls c' = [eth_getTransactionCount Sample.wallet "pending";
                eth_sendRawTransaction "0xf80x7"].
Proof.
  destruct (approve_submits _
              (Sample.environment (Sample.node "0x1c9c380" "0x5208") (Some Sample.signer))
              "u1" (Sample.controller [Cases.unapprovedRecord]) 0 Cases.unapprovedRecord
              Sample.signer "0x7" "0xsent"
              (mkTxParams
                 (withGasLimit
                    (withNonceAndChainId (transaction Cases.unapprovedRecord) (Some "0x7")
                       (Some (Finite 1)))
                    (Some "0x5208"))
                 (Some approved))
              (mkTxParams
                 (withGasLimit
                    (withNonceAndChainId (transaction Cases.unapprovedRecord) (Some "0x7")
                       (Some (Finite 1)))
                    (Some "0x5208"))
                 (Some approved)))
    as (c' & final & Hrun & Hlock & Htxs & _ & Hstatus & Hhash & Hraw & Hhub & Hcalls);
    try reflexivity.
  exists c', final. by rewrite Hrun, Hlock, Htxs, Hstatus, Hhash, Hraw, Hhub, Hcalls.
Defined.

Lemma approve_without_signer_or_chain_witness :
  ∃ c' failedMeta,
    approveTransaction (Sample.environment (Sample.node "0x1c9c380" "0x5208") None)
      "u1" (Sample.controller [Cases.unapprovedRecord]) = (Ok (), c') ∧
    mutexLocked c' = false ∧
    transactions (state c') = [failedMeta] ∧
    status failedMeta = failed ∧
    error failedMeta = Some (mkError "No sign method defined.") ∧
    hub c' = [("u1:finished", failedMeta)] ∧
    calls c' = [].
Proof.
  destruct (approve_without_signer_or_chain _
              (Sample.environment (Sample.node "0x1c9c380" "0x5208") None)
              "u1" (Sample.controller [Cases.unapprovedRecord]) 0 "No sign method defined.")
    as (c' & failedMeta & Hrun & Hlock & Htxs & _ & Hstatus & Herror & Hhub & Hcalls);
    try reflexivity.
  - by left.
  - exists c', failedMeta. by rewrite Hrun, Hlock, Htxs, Hstatus, Herror, Hhub, Hcalls.
Defined.

End ApprovalExtras.

(** ** Stop and speed up: failures, events, and the new price *)
Module FeeBumpExtras.
Import TransactionController ArrayFacts.

Lemma digitIn_hexChar (d : Z) : 0 ≤ d < 16 → JS.digitIn 16 (JS.hexChar d) = Some d.
Proof.
  intros Hd.
  assert (d = 0 ∨ d = 1 ∨ d = 2 ∨ d = 3 ∨ d = 4 ∨ d = 5 ∨ d = 6 ∨ d = 7 ∨ d = 8 ∨
          d = 9 ∨ d = 10 ∨ d = 11 ∨ d = 12 ∨ d = 13 ∨ d = 14 ∨ d = 15) as H by lia.
  repeat (destruct H as [->|H]; [reflexivity|]). by subst.
Qed.

Lemma hexChar_not_x (d : Z) : 0 ≤ d < 16 → JS.hexChar d ≠ "x"%char.
Proof.
  intros Hd.
  assert (d = 0 ∨ d = 1 ∨ d = 2 ∨ d = 3 ∨ d = 4 ∨ d = 5 ∨ d = 6 ∨ d = 7 ∨ d = 8 ∨
          d = 9 ∨ d = 10 ∨ d = 11 ∨ d = 12 ∨ d = 13 ∨ d = 14 ∨ d = 15) as H by lia.
  repeat (destruct H as [->|H]; [discriminate|]). by subst.
Qed.

Lemma digitsPrefix_hexOfFuel (fuel : nat) : ∀ (n : Z) (acc : string) (a : Z),
  0 ≤ n < 16 ^ Z.of_nat fuel → (0 < fuel)%nat →
  ∃ k, 0 ≤ k ∧
       JS.digitsPrefix 16 (JS.hexOfFuel fuel n acc) (Some a)
       = JS.digitsPrefix 16 acc (Some (a * 16 ^ k + n)).
Proof.
  induction fuel as [|fuel IH]; intros n acc a Hn Hfuel; [lia|].
  cbn [JS.hexOfFuel].
  assert (0 ≤ n mod 16 < 16) as Hmod by (apply Z.mod_pos_bound; lia).
  pose proof (Z.div_mod n 16 ltac:(lia)) as Hdm.
  destruct (n / 16 =? 0) eqn:Hq.
  - apply Z.eqb_eq in Hq. exists 1. split; [lia|].
    cbn [JS.digitsPrefix]. rewrite digitIn_hexChar by done. cbn [default].
    do 2 f_equal. unfold Datatypes.id. change (16 ^ 1) with 16. lia.
  - apply Z.eqb_neq in Hq.
    assert (0 ≤ n / 16 < 16 ^ Z.of_nat fuel) as Hdiv.
    { split; [apply Z.div_pos; lia|]. apply Z.div_lt_upper_bound; [lia|].
      rewrite Nat2Z.inj_succ, Z.pow_succ_r in Hn by lia. lia. }
    assert (0 < fuel)%nat as Hpos.
    { destruct fuel; [|lia]. change (16 ^ Z.of_nat 0) with 1 in Hdiv. lia. }
    destruct (IH (n / 16) (String (JS.hexChar (n mod 16)) acc) a Hdiv Hpos) as (k & Hk & ->).
    exists (k + 1). split; [lia|].
    cbn [JS.digitsPrefix]. rewrite digitIn_hexChar by done. cbn [default].
    do 2 f_equal. unfold Datatypes.id. rewrite Z.pow_add_r by lia.
    change (16 ^ 1) with 16. lia.
Qed.

(** A number printed in base 16 starts with two digits, or is one. *)
Lemma hexOfFuel_head (fuel : nat) : ∀ (n : Z) (acc : string),
  (0 < fuel)%nat → 0 ≤ n →
  (acc = "" ∨ ∃ d r, 0 ≤ d < 16 ∧ acc = String (JS.hexChar d) r) →
  ∃ d r, 0 ≤ d < 16 ∧ JS.hexOfFuel fuel n acc = String (JS.hexChar d) r ∧
         (r = "" ∨ ∃ d' r', 0 ≤ d' < 16 ∧ r = String (JS.hexChar d') r').
Proof.
  induction fuel as [|fuel IH]; intros n acc Hfuel Hn Hacc; [lia|].
  cbn [JS.hexOfFuel].
  assert (0 ≤ n mod 16 < 16) as Hmod by (apply Z.mod_pos_bound; lia).
  destruct (n / 16 =? 0).
  - exists (n mod 16), acc. done.
  - destruct fuel as [|fuel].
    + exists (n mod 16), acc. done.
    + apply IH; [lia|apply Z.div_pos; lia|]. right. eauto.
Qed.

Lemma hexOfNat_not_prefixed (n : Z) : 0 ≤ n → isHexPrefixed (JS.hexOfNat n) = false.
Proof.
  intros Hn. unfold JS.hexOfNat.
  destruct (hexOfFuel_head (S (Z.to_nat (Z.log2 n))) n "") as (d & r & Hd & -> & Hr);
    [lia|done|by left|].
  destruct Hr as [->|(d' & r' & Hd' & ->)].
  - cbn. by destruct (JS.hexChar d) as [[] [] [] [] [] [] [] []].
  - pose proof (hexChar_not_x d' Hd') as Hx. cbn.
    destruct (JS.hexChar d) as [[] [] [] [] [] [] [] []]; try done.
    destruct (JS.hexChar d') as [[] [] [] [] [] [] [] []]; done.
Qed.

(** Printing a number in base 16 and reading it back. *)
Lemma parseInt_toString16 (n : Z) :
  0 ≤ n → JS.parseInt (addHexPrefix (JS.toString16 (Some n))) (Some 16) = Some n.
Proof.
  intros Hn. unfold JS.toString16. rewrite (proj2 (Z.ltb_ge n 0)) by lia.
  unfold addHexPrefix. rewrite hexOfNat_not_prefixed by done.
  unfold JS.parseInt. cbn -[JS.hexOfNat JS.digitsPrefix].
  unfold JS.hexOfNat.
  assert (0 ≤ n < 16 ^ Z.of_nat (S (Z.to_nat (Z.log2 n)))) as Hfuel.
  { split; [done|]. rewrite Nat2Z.inj_succ, Z2Nat.id by apply Z.log2_nonneg.
    destruct (decide (n = 0)) as [->|Hne]; [by cbn|].
    apply Z.lt_le_trans with (2 ^ Z.succ (Z.log2 n)).
    - apply Z.log2_spec. lia.
    - apply Z.pow_le_mono_l. lia. }
  destruct (hexOfFuel_head (S (Z.to_nat (Z.log2 n))) n "") as (d & r & Hd & Hhead & _);
    [lia|done|by left|].
  destruct (digitsPrefix_hexOfFuel (S (Z.to_nat (Z.log2 n))) n "" 0 Hfuel ltac:(lia))
    as (k & Hk & Hdigits).
  assert (JS.digitsPrefix 16 (JS.hexOfFuel (S (Z.to_nat (Z.log2 n))) n "") None = Some n)
    as Hread.
  { rewrite Hhead in Hdigits |- *. cbn [JS.digitsPrefix] in Hdigits |- *.
    rewrite digitIn_hexChar in Hdigits |- * by done.
    cbn [default] in Hdigits |- *. unfold Datatypes.id in Hdigits.
    rewrite Hdigits. reflexivity. }
  generalize dependent (JS.hexOfFuel (S (Z.to_nat (Z.log2 n))) n "").
  intros hex _ _ Hread.
  change ("0x" +:+ hex) with (String "0" (String "x" hex)).
  change (JS.trimStart (String "0" (String "x" hex))) with (String "0" (String "x" hex)).
  cbn. by rewrite Hread.
Qed.

(** X19. The price of a replacement, as a number. For a record whose gas
    price reads as the number [price], at most 422212465065984 wei, the
    replacement of [stopTransaction] carries a price that reads as
    [price * 3 / 2] rounded down, and that of [speedUpTransaction] one
    that reads as [price * 11 / 10] rounded down: up to this price the
    product in doubles has the integer part of the exact product. The
    new price is never below the old one; it is above it only from 2 wei
    on for a stop and from 10 wei on for a speed-up, and a record
    without gas price gets the price zero again. *)
Theorem bumped_price_value (existingGasPrice : option string) (price : Z) :
  JS.parseInt (default "0x0" existingGasPrice) (Some 16) = Some price →
  0 ≤ price ≤ 422212465065984 →
  JS.parseInt (bumpedGasPrice existingGasPrice CANCEL_RATE) (Some 16)
  = Some (price * 3 / 2) ∧
  JS.parseInt (bumpedGasPrice existingGasPrice SPEED_UP_RATE) (Some 16)
  = Some (price * 11 / 10) ∧
  price ≤ price * 3 / 2 ∧ price ≤ price * 11 / 10 ∧
  (price < price * 3 / 2 ↔ 2 ≤ price) ∧
  (price < price * 11 / 10 ↔ 10 ≤ price).
Proof.
  intros Hprice Hpos.
  destruct (FeeBumpFacts.timesTruncated_in_range price Hpos) as [Hcancel Hspeed].
  unfold bumpedGasPrice, CANCEL_RATE, SPEED_UP_RATE.
  rewrite Hprice. cbn [fst snd]. rewrite Hcancel, Hspeed.
  assert (0 ≤ price * 3 / 2) as H32 by (apply Z.div_pos; lia).
  assert (0 ≤ price * 11 / 10) as H1110 by (apply Z.div_pos; lia).
  rewrite !parseInt_toString16 by done.
  pose proof (Z.div_mod (price * 3) 2 ltac:(lia)) as Hd32.
  pose proof (Z.mod_pos_bound (price * 3) 2 ltac:(lia)) as Hm32.
  pose proof (Z.div_mod (price * 11) 10 ltac:(lia)) as Hd1110.
  pose proof (Z.mod_pos_bound (price * 11) 10 ltac:(lia)) as Hm1110.
  repeat split; lia.
Qed.

Section Facts.
Variable TypedTransaction : Type.
Variable env : Env TypedTransaction.

(** X20. A stop or a speed-up that does not succeed (no signer, a
    transaction that cannot be built, a signer that refuses, a node that
    rejects the broadcast or never answers) leaves the Store as it was:
    the original record stays, nothing goes out to listeners or to the
    hub, and no identifier is drawn. *)
Theorem fee_bump_failure_keeps_record
    (transactionID : string) (cancel : bool) (c c' : Controller) (r : Outcome unit) :
  (if cancel then stopTransaction env transactionID c
   else speedUpTransaction env transactionID c) = (r, c') →
  isOk r = false →
  state c' = state c ∧ delivered c' = delivered c ∧ hub c' = hub c ∧
  uuids c' = uuids c ∧ mutexLocked c' = mutexLocked c.
Proof.
  intros Hrun Hfail.
  destruct cancel.
  - unfold stopTransaction, mbind, M_bind, bind, getState, await, query, freshId,
      mret, M_ret, ret, throw in Hrun.
    destruct (List.find _ _) as [meta|]; [|by simplify_eq].
    destruct (sign env) as [signer|]; [|by simplify_eq].
    destruct (fromTxData env _) as [unsignedEthTx| |]; [|by simplify_eq..].
    destruct (signer _ _) as [signedTx| |]; [|by simplify_eq..].
    destruct (onSendRawTransaction _ _) as [hash| |]; [|by simplify_eq..].
    exfalso. revert Hrun.
    match goal with
    | |- context [updateTransactions ?txs ?c0] =>
        destruct (StoreFacts.updateTransactions_fields txs c0) as (c1 & -> & _)
    end.
    unfold emit. intros [= <- _]. discriminate.
  - unfold speedUpTransaction, mbind, M_bind, bind, getState, await, query, freshId,
      mret, M_ret, ret, throw in Hrun.
    destruct (List.find _ _) as [meta|]; [|by simplify_eq].
    destruct (sign env) as [signer|]; [|by simplify_eq].
    destruct (fromTxData env _) as [unsignedEthTx| |]; [|by simplify_eq..].
    destruct (signer _ _) as [signedTx| |]; [|by simplify_eq..].
    destruct (onSendRawTransaction _ _) as [hash| |]; [|by simplify_eq..].
    exfalso. revert Hrun.
    match goal with
    | |- context [updateTransactions ?txs ?c0] =>
        destruct (StoreFacts.updateTransactions_fields txs c0) as (c1 & -> & _)
    end.
    unfold emit. intros [= <- _]. discriminate.
Qed.

(** X21. What a stop or speed-up that succeeds tells the outside: the
    replacement is the last record of the Store and goes out on the hub,
    for a stop under the finished event of the original record and for a
    speed-up under its speedup event; one identifier is drawn, and the
    only query is the broadcast. *)
Theorem fee_bump_events
    (transactionID : string) (c : Controller) (transactionMeta : TransactionMeta)
    (signer : TypedTransaction → string → Outcome TypedTransaction) (cancel : bool) :
  List.find (hasId transactionID) (transactions (state c)) = Some transactionMeta →
  sign env = Some signer →
  (∀ txParams, ∃ unsignedEthTx signedTx,
      fromTxData env txParams = Ok unsignedEthTx ∧
      signer unsignedEthTx (tx_from (transaction transactionMeta)) = Ok signedTx) →
  (∀ rawTransaction, isOk (onSendRawTransaction (ethQuery env) rawTransaction) = true) →
  ∃ c' replacement raw,
    (if cancel then stopTransaction env transactionID c
     else speedUpTransaction env transactionID c) = (Ok (), c') ∧
    last (transactions (state c')) = Some replacement ∧
    status replacement = (if cancel then cancelSubmitted else accelerateSubmitted) ∧
    hub c' = hub c ++
             [(transactionID +:+ (if cancel then ":finished" else ":speedup"), replacement)] ∧
    uuids c' = S (uuids c) ∧
    calls c' = calls c ++ [eth_sendRawTransaction raw].
Proof.
  intros Hfind Hsign Hsigner Hsend.
  destruct (StoreFacts.find_hasId _ _ _ Hfind) as [_ Hid].
  destruct cancel.
  - unfold stopTransaction, mbind, M_bind, bind, getState, await, query, freshId.
    rewrite Hfind, Hsign.
    match goal with
    | |- context [fromTxData env ?p] =>
        destruct (Hsigner p) as (unsignedEthTx & signedTx & -> & ->)
    end.
    specialize (Hsend (serialize env signedTx)).
    destruct (onSendRawTransaction _ _) as [hash| |]; try discriminate.
    match goal with
    | |- context [updateTransactions ?txs ?c0] =>
        destruct (StoreFacts.updateTransactions_fields txs c0)
          as (c1 & -> & Hs & _ & Hh & _ & Hq & Hu & _)
    end.
    unfold emit. eexists _, _, _. split; [reflexivity|].
    cbn. rewrite Hs, Hh, Hq, Hu. cbn. unfold replaceById.
    split; [destruct (findIndex _ _); apply last_snoc|].
    split; [reflexivity|]. by rewrite Hid.
  - unfold speedUpTransaction, mbind, M_bind, bind, getState, await, query, freshId.
    rewrite Hfind, Hsign.
    match goal with
    | |- context [fromTxData env ?p] =>
        destruct (Hsigner p) as (unsignedEthTx & signedTx & -> & ->)
    end.
    specialize (Hsend (serialize env signedTx)).
    destruct (onSendRawTransaction _ _) as [hash| |]; try discriminate.
    match goal with
    | |- context [updateTransactions ?txs ?c0] =>
        destruct (StoreFacts.updateTransactions_fields txs c0)
          as (c1 & -> & Hs & _ & Hh & _ & Hq & Hu & _)
    end.
    unfold emit. eexists _, _, _. split; [reflexivity|].
    cbn. rewrite Hs, Hh, Hq, Hu. cbn. unfold replaceById.
    split; [destruct (findIndex _ _); apply last_snoc|].
    split; [reflexivity|]. by rewrite Hid.
Qed.

End Facts.

Lemma fee_bump_failure_keeps_record_witness :
  state (snd (stopTransaction (Sample.environment (Sample.node "0x1c9c380" "0x5208") None)
                "l5" (Sample.controller [Sample.local5])))
  = state (Sample.controller [Sample.local5]).
Proof.
  eapply (fee_bump_failure_keeps_record _
            (Sample.environment (Sample.node "0x1c9c380" "0x5208") None)
            "l5" true (Sample.controller [Sample.local5])).
  - apply surjective_pairing.
  - reflexivity.
Defined.

Lemma fee_bump_events_witness :
  ∃ c' replacement,
    speedUpTransaction
      (Sample.environment (Sample.node "0x1c9c380" "0x5208") (Some Sample.signer))
      "l5b" (Sample.controller [Sample.retry5]) = (Ok (), c') ∧
    transactions (state c') = [replacement] ∧
    hub c' = [("l5b:speedup", replacement)].
Proof.
  destruct (fee_bump_events _
              (Sample.environment (Sample.node "0x1c9c380" "0x5208") (Some Sample.signer))
              "l5b" (Sample.controller [Sample.retry5]) Sample.retry5 Sample.signer false)
    as (c' & replacement & raw & Hrun & Hlast & _ & Hhub & _); try reflexivity.
  - intros txParams. by exists txParams, txParams.
  - exists c', replacement. split; [exact Hrun|]. split; [|exact Hhub].
    injection Hrun as <-. cbn in Hlast |- *. by injection Hlast as <-.
Defined.

Lemma bumped_price_value_witness :
  JS.parseInt (bumpedGasPrice (Some "0xa") CANCEL_RATE) (Some 16) = Some 15 ∧
  JS.parseInt (bumpedGasPrice (Some "0xa") SPEED_UP_RATE) (Some 16) = Some 11.
Proof.
  destruct (bumped_price_value (Some "0xa") 10) as (H1 & H2 & _); [reflexivity|lia|].
  split; [exact H1|exact H2].
Defined.

End FeeBumpExtras.

(** ** The poller: what a tick can and cannot do *)
Module PollerExtras.
Import Poller.

Section Facts.
Variable TypedTransaction : Type.
Variable env : TransactionController.Env TypedTransaction.

(** What a tick may have done to the record objects: each one is as it
    was, or was [submitted] on the current network and is now
    [confirmed]. *)
Lemma pollRecords_only_confirms (refs : list nat) :
  (∀ hash, onGetTransactionByHash (TransactionController.ethQuery env) hash ≠ Pending) →
  ∀ st gotUpdates rejected,
    ∃ st' gotUpdates',
      pollRecords env refs st gotUpdates rejected = Some (st', gotUpdates') ∧
      published st' = published st ∧
      publications st' = publications st ∧
      ∀ ref, heap st' !! ref = heap st !! ref ∨
             ∃ meta, heap st !! ref = Some meta ∧ status meta = submitted ∧
                     TransactionController.onCurrentNetwork env meta = true ∧
                     heap st' !! ref = Some (withStatus meta confirmed).
Proof.
  intros Hanswers. induction refs as [|r refs IH]; intros st gotUpdates rejected; simpl.
  - eexists _, _. split; [reflexivity|]. auto.
  - destruct (heap st !! r) as [m|] eqn:Hr; [|apply IH].
    destruct (bool_decide (status m = submitted)
              && TransactionController.onCurrentNetwork env m) eqn:Hcond; [|apply IH].
    apply andb_true_iff in Hcond as [Hs Hnet]. apply bool_decide_eq_true in Hs.
    pose proof (Hanswers (transactionHash m)) as Hnot.
    destruct (onGetTransactionByHash _ (transactionHash m)) as [txObj|e|]; [| |done].
    + destruct (isIncluded txObj).
      * match goal with
        | |- context [pollRecords env refs ?st2 ?g ?rj] =>
            destruct (IH st2 g rj) as (st' & got' & -> & Hpub & Hpubs & Hheap)
        end.
        eexists _, _. split; [reflexivity|]. split; [done|]. split; [done|].
        intros ref. destruct (Hheap ref) as [Hsame|(meta & Hm & Hms & Hmn & Hm')].
        -- cbn in Hsame. destruct (decide (ref = r)) as [->|Hne].
           ++ rewrite lookup_insert_eq in Hsame. right. exists m. by rewrite Hr.
           ++ rewrite lookup_insert_ne in Hsame by done. by left.
        -- cbn in Hm. destruct (decide (ref = r)) as [->|Hne].
           ++ rewrite lookup_insert_eq in Hm. by simplify_eq.
           ++ rewrite lookup_insert_ne in Hm by done. right. by exists meta.
      * match goal with
        | |- context [pollRecords env refs ?st2 ?g ?rj] =>
            destruct (IH st2 g rj) as (st' & got' & -> & Hpub & Hpubs & Hheap)
        end.
        eexists _, _. split; [reflexivity|]. done.
    + match goal with
      | |- context [pollRecords env refs ?st2 ?g ?rj] =>
          destruct (IH st2 g rj) as (st' & got' & -> & Hpub & Hpubs & Hheap)
      end.
      eexists _, _. split; [reflexivity|]. done.
Qed.

(** X22. A tick of the poller ends whenever the node answers, with a
    result or with an error: a failed query is swallowed. The published
    array keeps its records in their places, and the only change a tick
    makes to a record is from [submitted] on the current network to
    [confirmed]. *)
Theorem poller_tick_only_confirms (st : Store) :
  (∀ hash, onGetTransactionByHash (TransactionController.ethQuery env) hash ≠ Pending) →
  ∃ st', queryTransactionStatuses env st = Some st' ∧
         published st' = published st ∧
         ∀ ref, heap st' !! ref = heap st !! ref ∨
                ∃ meta, heap st !! ref = Some meta ∧ status meta = submitted ∧
                        TransactionController.onCurrentNetwork env meta = true ∧
                        heap st' !! ref = Some (withStatus meta confirmed).
Proof.
  intros Hanswers. unfold queryTransactionStatuses.
  destruct (pollRecords_only_confirms (published st) Hanswers st false false)
    as (st' & got & -> & Hpub & _ & Hheap).
  eexists. split; [reflexivity|]. destruct got; cbn; by rewrite ?Hpub.
Qed.

(** X23. A tick that finds no record both [submitted] and on the current
    network asks the node nothing and leaves everything as it was:
    nothing is published and no event goes out. *)
Theorem poller_idle_tick (st : Store) :
  Forall (fun ref => ∀ meta, heap st !! ref = Some meta →
                      bool_decide (status meta = submitted)
                      && TransactionController.onCurrentNetwork env meta = false)
    (published st) →
  queryTransactionStatuses env st = Some st.
Proof.
  intros Hnone. unfold queryTransactionStatuses.
  assert (∀ refs got rj,
            Forall (fun ref => ∀ meta, heap st !! ref = Some meta →
                                bool_decide (status meta = submitted)
                                && TransactionController.onCurrentNetwork env meta = false)
              refs →
            pollRecords env refs st got rj = Some (st, got)) as Hidle.
  { induction refs as [|r refs IH]; intros got rj Hrefs; simpl; [done|].
    apply Forall_cons in Hrefs as [Hr Hrefs].
    destruct (heap st !! r) as [m|]; [|by apply IH].
    rewrite (Hr m eq_refl). by apply IH. }
  by rewrite (Hidle (published st) false false Hnone).
Qed.



End Facts.

Lemma poller_tick_only_confirms_witness :
  ∃ st',
    queryTransactionStatuses (Sample.environment (Sample.node "0x1c9c380" "0x5208") None)
      (Sample.store Sample.incomingLocal) = Some st' ∧
    published st' = [0%nat].
Proof.
  destruct (poller_tick_only_confirms _
              (Sample.environment (Sample.node "0x1c9c380" "0x5208") None)
              (Sample.store Sample.incomingLocal))
    as (st' & Hrun & Hpub & _); [done|].
  exists st'. by rewrite Hrun, Hpub.
Defined.

Lemma poller_idle_tick_witness :
  queryTransactionStatuses (Sample.environment (Sample.node "0x1c9c380" "0x5208") None)
    (Sample.store Sample.local5) = Some (Sample.store Sample.local5).
Proof.
  apply (poller_idle_tick _ (Sample.environment (Sample.node "0x1c9c380" "0x5208") None)
           (Sample.store Sample.local5)).
  repeat constructor. intros meta Hmeta. vm_compute in Hmeta. by injection Hmeta as <-.
Defined.


End PollerExtras.

(** ** Method data and new transactions *)
Module IntakeFacts.
Import TransactionController Intake ArrayFacts.

Lemma known_prefix (fourBytePrefix : string) (keys : list string) :
  JS.truthy (List.find (fun known => bool_decide (fourBytePrefix = known)) keys)
  = bool_decide (fourBytePrefix ≠ "" ∧ fourBytePrefix ∈ keys).
Proof.
  induction keys as [|k keys IH]; cbn [List.find].
  - cbn. symmetry. apply bool_decide_eq_false. intros [_ ?%elem_of_nil]. done.
  - destruct (bool_decide (fourBytePrefix = k)) eqn:Hk.
    + apply bool_decide_eq_true in Hk. subst k. destruct fourBytePrefix as [|a s]; cbn.
      * symmetry. apply bool_decide_eq_false. by intros [? _].
      * symmetry. apply bool_decide_eq_true. split; [done|]. apply list_elem_of_here.
    + apply bool_decide_eq_false in Hk. rewrite IH. apply bool_decide_ext.
      rewrite elem_of_cons. tauto.
Qed.

Lemma valueOf_assign (methodData : list (string * string)) (key value : string) :
  valueOf (assign methodData key value) key = Some value ∧
  key ∈ (assign methodData key value).*1.
Proof.
  induction methodData as [|[k v] md IH]; cbn [assign].
  - unfold valueOf. cbn. rewrite bool_decide_eq_true_2 by done. split; [done|].
    apply list_elem_of_here.
  - destruct (bool_decide (k = key)) eqn:Hk.
    + unfold valueOf. cbn. rewrite Hk. split; [done|].
      apply bool_decide_eq_true in Hk. subst. apply list_elem_of_here.
    + unfold valueOf in *. cbn. rewrite Hk. destruct IH as [IH Hin].
      split; [done|]. by apply list_elem_of_further.
Qed.

Lemma setMutexLocked_free (c : Controller) :
  mutexLocked c = false → setMutexLocked false (setMutexLocked true c) = c.
Proof. intros H. destruct c; cbn in *. by subst. Qed.

Lemma finished_is_not_unapproved (transactionID : string) :
  transactionID +:+ ":finished" ≠ "unapprovedTransaction".
Proof.
  do 22 (destruct transactionID as [|? transactionID]; [discriminate|]).
  discriminate.
Qed.

Section Facts.
Variable TypedTransaction : Type.
Variable env : Env TypedTransaction.
Variable stringify : TransactionMeta → string.

(** A prefix that is in the Store is served from there. *)
Lemma handleMethodData_known (registryLookup : string → Outcome string)
    (fourBytePrefix : string) (c : Controller) :
  mutexLocked c = false →
  fourBytePrefix ≠ "" →
  fourBytePrefix ∈ (methodData (state c)).*1 →
  handleMethodData registryLookup fourBytePrefix c
  = (Ok (valueOf (methodData (state c)) fourBytePrefix), c).
Proof.
  intros Hfree Hne Hin.
  unfold handleMethodData, mbind, M_bind, bind, acquire, finally, getState, releaseLock.
  rewrite Hfree. cbn [state setMutexLocked].
  change (List.map fst (methodData (state c))) with ((methodData (state c)).*1).
  rewrite known_prefix, bool_decide_eq_true_2 by done.
  cbn. by rewrite setMutexLocked_free.
Qed.

(** X25. [handleMethodData] for a prefix that the Store does not hold, or
    for the empty prefix, follows the registry. When the registry
    answers, the answer is stored under the prefix, the new state goes
    to the listeners, the transactions stay as they are and the mutex is
    free again; when the registry fails, the error comes out with the
    controller as it was, the mutex free; while the registry does not
    answer, the mutex stays taken. *)
Theorem handleMethodData_asks_registry
    (registryLookup : string → Outcome string) (fourBytePrefix : string) (c : Controller) :
  mutexLocked c = false →
  fourBytePrefix = "" ∨ fourBytePrefix ∉ (methodData (state c)).*1 →
  match registryLookup fourBytePrefix with
  | Ok registry =>
      ∃ c', handleMethodData registryLookup fourBytePrefix c = (Ok (Some registry), c') ∧
            methodData (state c') = assign (methodData (state c)) fourBytePrefix registry ∧
            transactions (state c') = transactions (state c) ∧
            delivered c' =
              delivered c ++
              (if disabled c then []
               else List.map (fun key => (key, state c')) (internalListeners c)) ∧
            mutexLocked c' = false
  | Throw e => handleMethodData registryLookup fourBytePrefix c = (Throw e, c)
  | Pending =>
      handleMethodData registryLookup fourBytePrefix c = (Pending, setMutexLocked true c)
  end.
Proof.
  intros Hfree Hunknown.
  unfold handleMethodData, mbind, M_bind, bind, acquire, finally, getState, releaseLock, await.
  rewrite Hfree. cbn [state setMutexLocked].
  change (List.map fst (methodData (state c))) with ((methodData (state c)).*1).
  rewrite known_prefix, bool_decide_eq_false_2 by tauto.
  destruct (registryLookup fourBytePrefix) as [registry|e|].
  - unfold BaseController.update, BaseController.notify.
    destruct c as [s dis ls del h l q u]. cbn in *.
    destruct dis; cbn; eexists; (split; [reflexivity|]); cbn; by rewrite ?app_nil_r.
  - cbn. by rewrite setMutexLocked_free.
  - done.
Qed.

(** X26. What the registry answered once is not asked again: after a
    call that returned the method data of a prefix that is not empty, a
    second call for that prefix returns the same and changes nothing,
    whatever the registry would answer now. *)
Theorem handleMethodData_second_call_is_served
    (registryLookup later : string → Outcome string) (fourBytePrefix registry : string)
    (c c' : Controller) :
  mutexLocked c = false →
  fourBytePrefix ≠ "" →
  handleMethodData registryLookup fourBytePrefix c = (Ok (Some registry), c') →
  handleMethodData later fourBytePrefix c' = (Ok (Some registry), c').
Proof.
  intros Hfree Hne Hrun.
  destruct (decide (fourBytePrefix ∈ (methodData (state c)).*1)) as [Hin|Hnot].
  - rewrite handleMethodData_known in Hrun by done. injection Hrun as Hvalue <-.
    rewrite handleMethodData_known by done. by rewrite Hvalue.
  - destruct (valueOf_assign (methodData (state c)) fourBytePrefix registry) as [Hvalue Hin].
    assert (mutexLocked c' = false ∧
            methodData (state c') = assign (methodData (state c)) fourBytePrefix registry)
      as [Hfree' Hstored].
    { revert Hrun.
      unfold handleMethodData, mbind, M_bind, bind, acquire, finally, getState,
        releaseLock, await.
      rewrite Hfree. cbn [state setMutexLocked].
      change (List.map fst (methodData (state c))) with ((methodData (state c)).*1).
      rewrite known_prefix, bool_decide_eq_false_2 by tauto.
      destruct (registryLookup fourBytePrefix) as [answer|e|]; [|done..].
      unfold BaseController.update, BaseController.notify.
      destruct c as [s dis ls del h l q u]. cbn.
      destruct dis; cbn; intros [= <- <-]; done. }
    rewrite handleMethodData_known; [|done|done|by rewrite Hstored].
    by rewrite Hstored, Hvalue.
Qed.

(** The controller that [estimateGas] leaves is the one it was given,
    with a longer log of queries. *)
Lemma estimateGas_leaves (transaction : Transaction) (c c1 : Controller)
    (r : Outcome (string * string)) :
  estimateGas env transaction c = (r, c1) →
  state c1 = state c ∧ hub c1 = hub c ∧ delivered c1 = delivered c ∧
  disabled c1 = disabled c ∧ internalListeners c1 = internalListeners c ∧
  mutexLocked c1 = mutexLocked c ∧ uuids c1 = uuids c.
Proof.
  destruct (GasExtras.OnlyReads_estimateGas _ env transaction c) as (r' & q & -> & _).
  intros [= _ <-]. done.
Qed.

(** What a call of [addTransaction] that returns has done. *)
Lemma addTransaction_returned
    (draft : Transaction) (origin : option string)
    (deviceConfirmedOn : option WalletDevice)
    (transferInformation : option TransferInformation)
    (c c' : Controller) (meta : TransactionMeta) (registered : nat) :
  addTransaction env draft origin deviceConfirmedOn transferInformation c
  = (Ok (meta, registered), c') →
  registered = length (hub c) ∧
  hub c' = hub c ++ [("unapprovedTransaction", meta)] ∧
  transactions (state c') = transactions (state c) ++ [meta] ∧
  methodData (state c') = methodData (state c) ∧
  id meta = random env None (uuids c) ∧
  status meta = unapproved ∧
  mutexLocked c' = mutexLocked c ∧
  ∃ gas gasPrice,
    transaction meta
    = withGasAndGasPrice (normalizeTransaction env draft) gas gasPrice.
Proof.
  unfold addTransaction, mbind, M_bind, bind, getState, freshId, tryCatch, emittedSoFar.
  destruct (validateTransaction env _) as [e|]; [done|].
  destruct (estimateGas env _ _) as [[[gas gasPrice]|e|] c1] eqn:Hestimate.
  - destruct (estimateGas_leaves _ _ _ _ Hestimate)
      as (Hs1 & Hh1 & _ & _ & _ & Hm1 & _).
    match goal with
    | |- context [updateTransactions ?txs c1] =>
        destruct (StoreFacts.updateTransactions_fields txs c1)
          as (c2 & -> & Hs & _ & Hh & Hm & _)
    end.
    unfold emit, mret, M_ret, ret. intros [= <- <- <-].
    cbn. rewrite Hs, Hh, Hh1, Hm, Hm1, Hs1. cbn. eauto 10.
  - unfold failTransaction, throw, mbind, M_bind, bind.
    destruct (updateTransaction env _ c1) as [[?|?|] ?]; [|done..].
    unfold emit. done.
  - done.
Qed.

(** X27. [addTransaction] with a draft that passes validation and gets
    an estimate: the new record is appended to the Store with status
    [unapproved], a fresh identifier and the estimated gas and gas
    price, it goes out on the hub as [unapprovedTransaction], and the
    promise [result] is still pending. *)
Theorem addTransaction_adds_unapproved
    (draft : Transaction) (origin : option string)
    (deviceConfirmedOn : option WalletDevice)
    (transferInformation : option TransferInformation)
    (c : Controller) (gas gasPrice : string) :
  validateTransaction env (normalizeTransaction env draft) = None →
  (∀ c0, fst (estimateGas env (normalizeTransaction env draft) c0)
         = Ok (gas, gasPrice)) →
  ∃ c' meta,
    addTransaction env draft origin deviceConfirmedOn transferInformation c
    = (Ok (meta, length (hub c)), c') ∧
    transactions (state c') = transactions (state c) ++ [meta] ∧
    id meta = random env None (uuids c) ∧
    status meta = unapproved ∧
    transaction meta
    = withGasAndGasPrice (normalizeTransaction env draft) gas gasPrice ∧
    hub c' = hub c ++ [("unapprovedTransaction", meta)] ∧
    resultOf stringify (id meta) (drop (length (hub c)) (hub c')) = Pending.
Proof.
  intros Hvalid Hestimate.
  unfold addTransaction, mbind, M_bind, bind, getState, freshId, tryCatch, emittedSoFar.
  rewrite Hvalid.
  match goal with
  | |- context [estimateGas env ?t ?c0] =>
      specialize (Hestimate c0);
      destruct (estimateGas env t c0) as [r c1] eqn:Hrun
  end.
  cbn in Hestimate. subst r.
  destruct (estimateGas_leaves _ _ _ _ Hrun) as (Hs1 & Hh1 & _).
  match goal with
  | |- context [updateTransactions ?txs c1] =>
      destruct (StoreFacts.updateTransactions_fields txs c1)
        as (c2 & -> & Hs & _ & Hh & _)
  end.
  unfold emit, mret, M_ret, ret. eexists _, _.
  rewrite Hh1. split; [reflexivity|].
  cbn. rewrite Hs, Hh, Hh1, Hs1. cbn.
  repeat (split; [done|]).
  rewrite drop_app_length. unfold resultOf. cbn.
  rewrite bool_decide_eq_false_2; [done|].
  intros Heq. by apply (finished_is_not_unapproved (random env None (uuids c))).
Qed.

(** X28. When the estimate fails, [addTransaction] rejects with the
    error of the estimator and the draft never enters the Store; its
    failure is announced all the same, under the finished event of the
    identifier it had drawn, with a record that reads [failed] and
    carries the error. *)
Theorem addTransaction_estimate_failure
    (draft : Transaction) (origin : option string)
    (deviceConfirmedOn : option WalletDevice)
    (transferInformation : option TransferInformation)
    (c : Controller) (e : Error) :
  (∀ t, validateTransaction env t = None) →
  (∀ c0, fst (estimateGas env (normalizeTransaction env draft) c0) = Throw e) →
  Forall (fun meta => id meta ≠ random env None (uuids c)) (transactions (state c)) →
  ∃ c' failedMeta,
    addTransaction env draft origin deviceConfirmedOn transferInformation c
    = (Throw e, c') ∧
    transactions (state c') = transactions (state c) ∧
    hub c' = hub c ++ [(random env None (uuids c) +:+ ":finished", failedMeta)] ∧
    id failedMeta = random env None (uuids c) ∧
    status failedMeta = failed ∧
    error failedMeta = Some e.
Proof.
  intros Hvalid Hestimate Hfresh.
  unfold addTransaction, mbind, M_bind, bind, getState, freshId, tryCatch, emittedSoFar.
  rewrite Hvalid.
  match goal with
  | |- context [estimateGas env ?t ?c0] =>
      specialize (Hestimate c0);
      destruct (estimateGas env t c0) as [r c1] eqn:Hrun
  end.
  cbn in Hestimate. subst r.
  destruct (estimateGas_leaves _ _ _ _ Hrun) as (Hs1 & Hh1 & _).
  unfold failTransaction, updateTransaction, mbind, M_bind, bind, getState, throw.
  rewrite Hvalid. cbn [id withStatus withError withTransaction].
  assert (findIndex (hasId (random env None (uuids c))) (transactions (state c1)) = None)
    as ->.
  { rewrite Hs1. apply findIndex_None. eapply Forall_impl; [exact Hfresh|].
    intros meta Hne. by apply bool_decide_eq_false. }
  destruct (StoreFacts.updateTransactions_fields (transactions (state c1)) c1)
    as (c2 & -> & Hs & _ & Hh & _).
  unfold emit, mret, M_ret, ret. eexists _, _. split; [reflexivity|].
  cbn. rewrite Hs, Hh, Hh1, Hs1. cbn. done.
Qed.

(** X29. Adding a transaction and cancelling it: the promise [result] of
    [addTransaction] is rejected with "User rejected the transaction",
    and when the identifier drawn was not in the Store, the Store holds
    the records it held before. *)
Theorem add_then_cancel_rejects
    (draft : Transaction) (origin : option string)
    (deviceConfirmedOn : option WalletDevice)
    (transferInformation : option TransferInformation)
    (c c' : Controller) (meta : TransactionMeta) (registered : nat) :
  addTransaction env draft origin deviceConfirmedOn transferInformation c
  = (Ok (meta, registered), c') →
  ∃ c'',
    cancelTransaction (id meta) c' = (Ok (), c'') ∧
    resultOf stringify (id meta) (drop registered (hub c''))
    = Throw (mkError "User rejected the transaction") ∧
    (Forall (fun old => id old ≠ id meta) (transactions (state c)) →
     transactions (state c'') = transactions (state c)).
Proof.
  intros Hadd.
  destruct (addTransaction_returned _ _ _ _ _ _ _ _ Hadd)
    as (-> & Hhub & Htxs & _ & _ & _ & _ & _).
  assert (∃ found, List.find (hasId (id meta)) (transactions (state c')) = Some found)
    as [found Hfound].
  { destruct (List.find _ _) eqn:Hf; [eauto|].
    assert (In meta (transactions (state c'))) as Hin.
    { rewrite Htxs. apply in_or_app. right. by left. }
    pose proof (find_none _ _ Hf meta Hin) as Hn.
    unfold hasId in Hn. by rewrite bool_decide_eq_true_2 in Hn. }
  destruct (StoreFacts.find_hasId _ _ _ Hfound) as [_ Hid].
  unfold cancelTransaction, mbind, M_bind, bind, getState, emit.
  rewrite Hfound, Hid. cbn [state setHub].
  match goal with
  | |- context [updateTransactions ?txs ?c0] =>
      destruct (StoreFacts.updateTransactions_fields txs c0)
        as (c2 & -> & Hs & _ & Hh & _)
  end.
  exists c2. split; [done|]. rewrite Hh, Hs. cbn. rewrite Hhub, Htxs. split.
  - rewrite <- app_assoc, drop_app_length. unfold resultOf. cbn.
    rewrite bool_decide_eq_false_2
      by (intros Heq; by apply (finished_is_not_unapproved (id meta))).
    by rewrite bool_decide_eq_true_2.
  - intros Hfresh. rewrite List.filter_app. cbn. unfold hasId at 2.
    rewrite bool_decide_eq_true_2 by done. cbn. rewrite app_nil_r.
    clear -Hfresh. induction Hfresh as [|old olds Hold _ IH]; [done|]. cbn.
    unfold hasId at 1. rewrite bool_decide_eq_false_2 by done. cbn. by rewrite IH.
Qed.

(** Records whose smart-contract flags are both set are not looked
    up again: annotating them asks the node nothing and returns them as
    they are. *)
Lemma annotateAll_known_flags (txs : list TransactionMeta) (c : Controller) :
  Forall (fun tx => is_Some (toSmartContract tx) ∧ is_Some (fromSmartContract tx)) txs →
  annotateAll env txs c = (Ok txs, c).
Proof.
  intros Hflags. induction Hflags as [|tx txs [[t Ht] [f Hf]] _ IH]; [done|].
  cbn [annotateAll]. unfold mbind, M_bind, bind, annotate at 1.
  rewrite Ht, Hf. unfold mbind, M_bind, bind, mret, M_ret, ret. rewrite IH.
  do 2 f_equal. f_equal. destruct tx; cbn in *. by subst.
Qed.

Lemma blockBefore_irreflexive (a : string) : blockBefore a a = false.
Proof.
  unfold blockBefore. destruct (JS.parseInt a (Some 10)); [apply Z.ltb_irrefl|done].
Qed.

Lemma blockBefore_later (latest number other : string) :
  blockBefore latest number = true → blockBefore latest other = false →
  blockBefore number other = false.
Proof.
  unfold blockBefore.
  destruct (JS.parseInt latest (Some 10)), (JS.parseInt number (Some 10)),
    (JS.parseInt other (Some 10)); try done.
  intros H1%Z.ltb_lt H2%Z.ltb_ge. apply Z.ltb_ge. lia.
Qed.

(** X30. The block number that [fetchAll] returns. Over the merged
    list, it is undefined exactly when no entry addressed to the wallet
    on the current network has a block number; otherwise it is the block
    number of such an entry, and no such entry has a later block. *)
Theorem latest_incoming_block (address : string) (txs : list TransactionMeta) :
  let incoming tx :=
    onCurrentNetwork env tx && JS.truthy (tx_to (transaction tx))
    && bool_decide (JS.toLowerCase (default "" (tx_to (transaction tx)))
                    = JS.toLowerCase address)
    && JS.truthy (blockNumber tx) in
  match fold_left (latestIncoming _ env address) txs None with
  | None => Forall (fun tx => incoming tx = false) txs
  | Some latest =>
      Exists (fun tx => incoming tx = true ∧ blockNumber tx = Some latest) txs ∧
      Forall (fun tx => incoming tx = true →
                        blockBefore latest (default "" (blockNumber tx)) = false) txs
  end.
Proof.
  intros incoming.
  set (P := fun (acc : option string) (seen : list TransactionMeta) =>
              match acc with
              | None => Forall (fun tx => incoming tx = false) seen
              | Some latest =>
                  latest ≠ "" ∧
                  Exists (fun tx => incoming tx = true ∧ blockNumber tx = Some latest) seen ∧
                  Forall (fun tx => incoming tx = true →
                                    blockBefore latest (default "" (blockNumber tx)) = false)
                    seen
              end).
  assert (∀ acc seen tx, P acc seen → P (latestIncoming _ env address acc tx) (seen ++ [tx]))
    as Hstep.
  { intros acc seen tx HP. unfold latestIncoming.
    destruct (incoming tx) eqn:Hinc.
    - unfold incoming in Hinc. apply andb_true_iff in Hinc as [Hcond Hblock].
      rewrite Hcond.
      destruct (blockNumber tx) as [[|a number]|] eqn:Hnumber; try discriminate.
      assert (incoming tx = true) as Hinc.
      { unfold incoming. by rewrite Hcond, Hnumber. }
      destruct acc as [[|b latest]|].
      + by destruct HP as [? _].
      + destruct HP as (_ & Hex & Hall).
        destruct (blockBefore (String b latest) (String a number)) eqn:Hbefore.
        * split; [done|]. split.
          -- apply Exists_app. right. by constructor.
          -- apply Forall_app. split.
             ++ eapply Forall_impl; [exact Hall|]. intros tx' Htx' Hinc'.
                eapply blockBefore_later; [exact Hbefore|by apply Htx'].
             ++ constructor; [|done]. intros _. rewrite Hnumber.
                apply blockBefore_irreflexive.
        * split; [done|]. split.
          -- apply Exists_app. by left.
          -- apply Forall_app. split; [done|]. constructor; [|done].
             intros _. by rewrite Hnumber.
      + split; [done|]. split.
        * apply Exists_app. right. by constructor.
        * apply Forall_app. split.
          -- eapply Forall_impl; [exact HP|]. intros tx' Htx' Hinc'. congruence.
          -- constructor; [|done]. intros _. rewrite Hnumber.
             apply blockBefore_irreflexive.
    - assert (latestIncoming _ env address acc tx = acc) as Hsame.
      { unfold latestIncoming. unfold incoming in Hinc.
        apply andb_false_iff in Hinc as [->|Hblock]; [done|].
        destruct (_ && _ && _); [|done].
        by destruct (blockNumber tx) as [[|? ?]|]. }
      unfold latestIncoming in Hsame. rewrite Hsame.
      destruct acc as [latest|].
      + destruct HP as (Hne & Hex & Hall). split; [done|]. split.
        * apply Exists_app. by left.
        * apply Forall_app. split; [done|]. constructor; [|done]. congruence.
      + apply Forall_app. split; [done|]. by constructor. }
  assert (∀ rest acc seen, P acc seen →
            P (fold_left (latestIncoming _ env address) rest acc) (seen ++ rest)) as Hfold.
  { induction rest as [|tx rest IH]; intros acc seen HP; cbn [fold_left].
    - by rewrite app_nil_r.
    - rewrite (cons_middle tx seen rest), app_assoc. by apply IH, Hstep. }
  specialize (Hfold txs None [] (Forall_nil_2 _)). cbn [app] in Hfold.
  unfold P in Hfold. destruct (fold_left _ txs None); [|done].
  by destruct Hfold as (_ & ? & ?).
Qed.

End Facts.

Lemma addTransaction_adds_unapproved_witness :
  ∃ c' meta,
    addTransaction (Sample.environment (Sample.node "0x1c9c380" "0x5208") None)
      (Cases.transfer None) None None None (Sample.controller [Sample.local5])
    = (Ok (meta, 0%nat), c') ∧
    transactions (state c') = [Sample.local5; meta] ∧
    id meta = "uuid-0" ∧
    status meta = unapproved ∧
    tx_gas (transaction meta) = Some "0x5208" ∧
    hub c' = [("unapprovedTransaction", meta)].
Proof.
  destruct (addTransaction_adds_unapproved _
              (Sample.environment (Sample.node "0x1c9c380" "0x5208") None) id
              (Cases.transfer None) None None None (Sample.controller [Sample.local5])
              "0x5208" "0xa")
    as (c' & meta & Hrun & Htxs & Hid & Hstatus & Htx & Hhub & _).
  - reflexivity.
  - intros c0. reflexivity.
  - exists c', meta. rewrite Hrun, Htxs, Hid, Hstatus, Htx, Hhub. done.
Defined.

Lemma addTransaction_estimate_failure_witness :
  ∃ c' failedMeta,
    addTransaction (Sample.environment Cases.offline None)
      (Cases.transfer None) None None None (Sample.controller [Sample.local5])
    = (Throw (mkError "offline"), c') ∧
    transactions (state c') = [Sample.local5] ∧
    hub c' = [("uuid-0:finished", failedMeta)] ∧
    status failedMeta = failed.
Proof.
  destruct (addTransaction_estimate_failure _
              (Sample.environment Cases.offline None)
              (Cases.transfer None) None None None (Sample.controller [Sample.local5])
              (mkError "offline"))
    as (c' & failedMeta & Hrun & Htxs & Hhub & _ & Hstatus & _).
  - intros t. reflexivity.
  - intros c0. reflexivity.
  - repeat constructor. discriminate.
  - exists c', failedMeta. rewrite Hrun, Htxs, Hhub, Hstatus. done.
Defined.

Lemma add_then_cancel_rejects_witness :
  let env := Sample.environment (Sample.node "0x1c9c380" "0x5208") None in
  let added := addTransaction env (Cases.transfer None) None None None
                 (Sample.controller [Sample.local5]) in
  ∃ meta registered c' c'',
    added = (Ok (meta, registered), c') ∧
    cancelTransaction (id meta) c' = (Ok (), c'') ∧
    resultOf id (id meta) (drop registered (hub c''))
    = Throw (mkError "User rejected the transaction") ∧
    transactions (state c'') = [Sample.local5].
Proof.
  intros env added.
  destruct added as [[[meta registered]|e|] c'] eqn:Hadd; try discriminate.
  destruct (add_then_cancel_rejects _ env id (Cases.transfer None) None None None
              (Sample.controller [Sample.local5]) c' meta registered Hadd)
    as (c'' & Hcancel & Hresult & Hstore).
  exists meta, registered, c', c''. repeat split; try done.
  apply Hstore. injection Hadd as <- _ _. repeat constructor. discriminate.
Defined.

Lemma handleMethodData_asks_registry_witness :
  ∃ c', handleMethodData (fun _ => Ok "transfer(address,uint256)") "0xa9059cbb"
          (Sample.controller []) = (Ok (Some "transfer(address,uint256)"), c') ∧
        methodData (state c') = [("0xa9059cbb", "transfer(address,uint256)")] ∧
        mutexLocked c' = false.
Proof.
  pose proof (handleMethodData_asks_registry (fun _ => Ok "transfer(address,uint256)")
                "0xa9059cbb" (Sample.controller [])) as H.
  destruct H as (c' & Hrun & Hdata & _ & _ & Hfree); [reflexivity| |].
  - right. apply not_elem_of_nil.
  - exists c'. by rewrite Hrun, Hdata, Hfree.
Defined.

Lemma handleMethodData_second_call_is_served_witness :
  handleMethodData (fun _ => Throw (mkError "offline")) "0xa9059cbb"
    (snd (handleMethodData (fun _ => Ok "transfer(address,uint256)") "0xa9059cbb"
            (Sample.controller [])))
  = (Ok (Some "transfer(address,uint256)"),
     snd (handleMethodData (fun _ => Ok "transfer(address,uint256)") "0xa9059cbb"
            (Sample.controller []))).
Proof.
  apply (handleMethodData_second_call_is_served
           (fun _ => Ok "transfer(address,uint256)") (fun _ => Throw (mkError "offline"))
           "0xa9059cbb" "transfer(address,uint256)" (Sample.controller []));
    [reflexivity|discriminate|reflexivity].
Defined.

End IntakeFacts.
